(** * Yahoo NBA Fantasy Assistant: the value model, the matchup simulator and
      the recommendation search, embedded from [draft.py], [simulation.py] and
      [recommendation.py].

    Conventions of the embedding.
    - A Python number is an exact rational ([Q]); NaN, infinities and binary
      rounding error are outside the model. Comparisons are the boolean
      tests of [Q]; results are compared with [==].
    - A [stats] dict is a finite map from key to value, where a value is a
      number ([Some q]) or Python's [None] ([None]). Arithmetic or an order
      comparison on [None] raises [TypeError].
    - A raised exception is a value of [Res]; [try/except] is a match on it.
    - [np.random.normal] reads the next variate of an explicit draw sequence;
      the position in the sequence is threaded through the simulator. *)

From Stdlib Require Import QArith Qround Qabs Qfield Lqa Lia ZArith.
From stdpp Require Import base option list sorting gmap strings pretty.

Open Scope Q_scope.

(* ===================================================================== *)
(** * Numbers *)

Module Num.

Definition ltb (a b : Q) : bool := negb (Qle_bool b a).
Definition leb (a b : Q) : bool := Qle_bool a b.
Definition eqb (a b : Q) : bool := Qeq_bool a b.

(** Python's two-argument [max] and [min] keep the first argument unless the
    second is strictly better. *)
Definition max (a b : Q) : Q := if ltb a b then b else a.
Definition min (a b : Q) : Q := if ltb b a then b else a.

Definition abs (a : Q) : Q := if ltb a 0 then - a else a.

(** [round(x)]: the nearest integer, a tie going to the even one. *)
Definition round (x : Q) : Z :=
  let f := Qfloor x in
  let r := x - inject_Z f in
  if ltb r (1 # 2) then f
  else if ltb (1 # 2) r then (f + 1)%Z
  else if Z.even f then f else (f + 1)%Z.

Definition pow10 (n : nat) : Q := inject_Z (10 ^ Z.of_nat n).

(** [round(x, n)]: [x] rounded to [n] decimals, kept as a rational. *)
Definition round_n (x : Q) (n : nat) : Q :=
  inject_Z (round (x * pow10 n)) / pow10 n.

End Num.

Infix "<?" := Num.ltb (at level 70, no associativity) : Q_scope.
Infix "<=?" := Num.leb (at level 70, no associativity) : Q_scope.
Infix "=?" := Num.eqb (at level 70, no associativity) : Q_scope.

#[global] Instance Q_eq_dec : EqDecision Q.
Proof. solve_decision. Defined.

(* ===================================================================== *)
(** * Exceptions *)

Inductive PyError : Type :=
  | TypeError
  | ZeroDivisionError
  | ValueError.

Inductive Res (A : Type) : Type :=
  | Ok (a : A)
  | Raise (e : PyError).

Arguments Ok {A} a.
Arguments Raise {A} e.

#[global] Instance res_ret : MRet Res := fun A a => Ok a.
#[global] Instance res_bind : MBind Res := fun A B f m =>
  match m with
  | Ok a => f a
  | Raise e => Raise e
  end.

(** [for x in xs: acc = body(acc, x)], stopping at the first exception. *)
Fixpoint for_each {A S : Type} (body : S -> A -> Res S) (xs : list A) (acc : S)
  : Res S :=
  match xs with
  | [] => Ok acc
  | x :: rest => acc' ← body acc x; for_each body rest acc'
  end.

(** [[f(x) for x in xs]] with a fallible [f]. *)
Fixpoint map_res {A B : Type} (f : A -> Res B) (xs : list A) : Res (list B) :=
  match xs with
  | [] => Ok []
  | x :: rest => y ← f x; ys ← map_res f rest; Ok (y :: ys)
  end.

(* ===================================================================== *)
(** * Player records *)

(** A value stored in a [stats] dict: a number, or [None]. *)
Abbreviation Stats := (gmap string (option Q)).

(** [stats.get(key, default)]. *)
Definition py_get (stats : Stats) (key : string) (default : option Q) : option Q :=
  match stats !! key with
  | Some v => v
  | None => default
  end.

(** A value used as an operand of [+], [-], [*], [<] or [>]. *)
Definition as_num (v : option Q) : Res Q :=
  match v with
  | Some q => Ok q
  | None => Raise TypeError
  end.

(** Truth value of a number-or-[None]: [None] and [0] are false. *)
Definition truthy (v : option Q) : bool :=
  match v with
  | Some q => negb (q =? 0)
  | None => false
  end.

(** [not stats]. *)
Definition stats_empty (stats : Stats) : bool := bool_decide (stats = ∅).

Record Player : Type := mkPlayer {
  name : string;
  team : option string;
  position : option string;
  minutes : Q;
  fantasy_team : option string;
  stats : Stats
}.

(* ===================================================================== *)
(** * draft.py: the credit valuation *)

Module Draft.

(** The weighted composite of [calculate_player_credit] (the running
    [score]). *)
Definition composite_score (stats : Stats) : Res Q :=
  pts ← as_num (py_get stats "points" (Some 0));
  reb ← as_num (py_get stats "rebounds" (Some 0));
  ast ← as_num (py_get stats "assists" (Some 0));
  stl ← as_num (py_get stats "steals" (Some 0));
  blk ← as_num (py_get stats "blocks" (Some 0));
  fg3m ← as_num (py_get stats "three_pointers_made" (Some 0));
  let score := 0 + pts * 1.0 + reb * 1.2 + ast * 1.5 + stl * 3.0 + blk * 3.0
               + fg3m * 0.5 in
  fg_pct ← as_num (py_get stats "fg_percentage" (Some 0));
  let score := if 0 <? fg_pct then score + (fg_pct - 0.46) * 50 else score in
  ft_pct ← as_num (py_get stats "ft_percentage" (Some 0));
  let score := if 0 <? ft_pct then score + (ft_pct - 0.78) * 30 else score in
  to ← as_num (py_get stats "turnovers" (Some 0));
  Ok (score - to * 1.0).

(** The cascading [if/elif] from composite score to auction value. *)
Definition tier_credit (score : Q) : Q :=
  if 55 <=? score then 50 + Num.min 20 ((score - 55) * 1.5)
  else if 45 <=? score then 35 + ((score - 45) * 1.4)
  else if 35 <=? score then 25 + ((score - 35) * 1.0)
  else if 25 <=? score then 15 + ((score - 25) * 1.0)
  else if 15 <=? score then 8 + ((score - 15) * 0.7)
  else if 5 <=? score then 3 + ((score - 5) * 0.4)
  else Num.max 1 (score * 0.4).

(** The minutes adjustment applied to [credit]. *)
Definition minutes_adjust (minutes credit : Q) : Q :=
  if minutes <? 28 then credit * (0.6 + (minutes / 28) * 0.4) else credit.

(** The value of [credit] just before the final [max(1, min(70, round(..)))],
    for a call that reaches that line. *)
Definition credit_before_clamp (stats : Stats) (minutes : Q) : Res Q :=
  score ← composite_score stats;
  Ok (minutes_adjust minutes (tier_credit score)).

Definition calculate_player_credit (stats : Stats) (minutes : Q) : Res Z :=
  if stats_empty stats then Ok 1%Z
  else if minutes <? 10 then Ok 1%Z
  else
    credit ← credit_before_clamp stats minutes;
    Ok (Z.max 1 (Z.min 70 (Num.round credit))).

(** ** The fantasy value *)

(** [d.get(key)] on a dict literal given by its items. *)
Fixpoint lookup_item {V : Type} (key : string) (items : list (string * V))
  : option V :=
  match items with
  | [] => None
  | (k, v) :: rest => if bool_decide (k = key) then Some v else lookup_item key rest
  end.

(** The dict [scoring_weights] of [_calculate_fantasy_value]. *)
Definition scoring_weights : list (string * Q) :=
  [("points", 1.0); ("rebounds", 1.2); ("assists", 1.5); ("steals", 3.0);
   ("blocks", 3.0); ("fg3m", 3.0); ("fg_percentage", 10.0);
   ("ft_percentage", 8.0); ("turnovers", -1.0)].

(** The loop over [stats.items()], on any listing of the items. *)
Definition add_scored (items : list (string * option Q)) : Res Q :=
  for_each
    (fun fantasy_value '(category, value) =>
       match lookup_item category scoring_weights with
       | Some weight => v ← as_num value; Ok (fantasy_value + v * weight)
       | None => Ok fantasy_value
       end)
    items 0.

Definition _calculate_fantasy_value (stats : Stats) : Res Q :=
  if stats_empty stats then Ok 0
  else
    fantasy_value ← add_scored (map_to_list stats);
    Ok (Num.round_n fantasy_value 2).

(** ** Multi-season averages *)

(** [self.season_weights], in insertion order. *)
Definition season_weights : list (string * Q) :=
  [("2024-25", 0.6); ("2023-24", 0.3); ("2022-23", 0.1)].

(** [self.categories]. *)
Definition categories : list string :=
  ["points"; "rebounds"; "assists"; "steals"; "blocks"; "fg3m";
   "fg_percentage"; "ft_percentage"; "turnovers"].

(** The inner loop of [_calculate_weighted_averages]: one season's stats
    added with the season's weight. *)
Definition add_season (stats : Stats) (weight : Q) (weighted_stats : gmap string Q)
  : Res (gmap string Q) :=
  for_each
    (fun weighted_stats category =>
       match stats !! category with
       | Some value =>
           v ← as_num value;
           Ok (<[category := default 0 (weighted_stats !! category) + v * weight]>
                 weighted_stats)
       | None => Ok weighted_stats
       end)
    (categories ++ ["minutes"]) weighted_stats.

Definition _calculate_weighted_averages (historical_stats : gmap string Stats)
  : Res (gmap string Q) :=
  '(weighted_stats, total_weight) ← for_each
    (fun '(weighted_stats, total_weight) '(season, weight) =>
       match historical_stats !! season with
       | Some stats =>
           let total_weight := total_weight + weight in
           weighted_stats ← add_season stats weight weighted_stats;
           Ok (weighted_stats, total_weight)
       | None => Ok (weighted_stats, total_weight)
       end)
    season_weights (∅, 0);
  Ok (if 0 <? total_weight
      then fmap (M := gmap string) (fun v => v / total_weight) weighted_stats
      else weighted_stats).

(** ** Trends *)

(** [np.mean] of a list of numbers; the NaN of an empty list is [None]. *)
Definition np_mean (xs : list Q) : option Q :=
  match xs with
  | [] => None
  | _ => Some (fold_left Qplus xs 0 / inject_Z (Z.of_nat (length xs)))
  end.

(** The dict returned by [_calculate_trends]: the key ['trend'] of the short
    answer, the rounded per-category trends in insertion order, and the key
    ['overall_trend']. *)
Record Trends : Type := mkTrends {
  trend : option string;
  category_trends : list (string * Q);
  overall_trend : option string
}.

(** The part of [_calculate_trends] after [seasons[0]] and [seasons[-1]] are
    looked up. Every comparison with NaN is false. *)
Definition compare_seasons (oldest latest : Stats) : Res Trends :=
  trends ← for_each
    (fun trends category =>
       match oldest !! category, latest !! category with
       | Some old_value, Some new_value =>
           old_value ← as_num old_value;
           if 0 <? old_value then
             new_value ← as_num new_value;
             let trend_pct := ((new_value - old_value) / old_value) * 100 in
             Ok (trends ++ [(category +:+ "_trend", Num.round_n trend_pct 1)])
           else Ok trends
       | _, _ => Ok trends
       end)
    ["points"; "rebounds"; "assists"] [];
  let avg_trend := np_mean (map snd trends) in
  let overall :=
    match avg_trend with
    | Some avg =>
        if 5 <? avg then "improving"
        else if avg <? -5 then "declining" else "stable"
    | None => "stable"
    end in
  Ok (mkTrends None trends (Some overall)).

Definition _calculate_trends (historical_stats : gmap string Stats) : Res Trends :=
  let seasons := merge_sort String.le (map fst (map_to_list historical_stats)) in
  if (length seasons <? 2)%nat
  then Ok (mkTrends (Some "insufficient_data") [] None)
  else
    let stats_of (season : option string) : Stats :=
      default ∅ (s ← season; historical_stats !! s) in
    compare_seasons (stats_of (head seasons)) (stats_of (last seasons)).

End Draft.

(* ===================================================================== *)
(** * simulation.py: the Monte Carlo matchup simulator *)

Module Simulation.

(** The nine categories, the keys of a team projection. *)
Inductive Category : Type :=
  | points
  | rebounds
  | assists
  | steals
  | blocks
  | three_pointers_made
  | fg_percentage
  | ft_percentage
  | turnovers.

#[global] Instance Category_eq_dec : EqDecision Category.
Proof. solve_decision. Defined.

Definition key (c : Category) : string :=
  match c with
  | points => "points"
  | rebounds => "rebounds"
  | assists => "assists"
  | steals => "steals"
  | blocks => "blocks"
  | three_pointers_made => "three_pointers_made"
  | fg_percentage => "fg_percentage"
  | ft_percentage => "ft_percentage"
  | turnovers => "turnovers"
  end.

Definition stat_volatility (c : Category) : Q :=
  match c with
  | points => 0.25
  | rebounds => 0.30
  | assists => 0.35
  | steals => 0.50
  | blocks => 0.60
  | three_pointers_made => 0.40
  | fg_percentage => 0.15
  | ft_percentage => 0.10
  | turnovers => 0.30
  end.

(** Key order of the dict built by [_get_team_projections]; every loop over
    [projections.keys()] or [.items()] runs in this order. *)
Definition stat_categories : list Category :=
  [points; rebounds; assists; steals; blocks; three_pointers_made;
   fg_percentage; ft_percentage; turnovers].

(** A dict whose keys are the nine categories. *)
Definition upd {V : Type} (m : Category -> V) (c : Category) (v : V)
  : Category -> V :=
  fun c' => if decide (c' = c) then v else m c'.

(** The eleven-key dict returned by [_get_sample_player_projections]. *)
Record PlayerProjection : Type := mkProjection {
  proj : Category -> Q;
  proj_fg_attempts : Q;
  proj_ft_attempts : Q
}.

(** The literal returned when the player has no stats. *)
Definition default_projection : PlayerProjection :=
  {| proj := fun c =>
       match c with
       | points => 10.0
       | rebounds => 4.0
       | assists => 3.0
       | steals => 0.8
       | blocks => 0.5
       | three_pointers_made => 1.0
       | fg_percentage => 0.45
       | ft_percentage => 0.75
       | turnovers => 1.5
       end;
     proj_fg_attempts := 8.0;
     proj_ft_attempts := 3.0 |}.

(** The inner helper [safe_get]. *)
Definition safe_get (stats : Stats) (k : string) (default : Q) : Q :=
  match py_get stats k (Some default) with
  | None => default
  | Some value => value
  end.

Definition _get_sample_player_projections (player : Player) : PlayerProjection :=
  let stats := stats player in
  if stats_empty stats then default_projection
  else
    {| proj := fun c =>
         match c with
         | fg_percentage => safe_get stats "fg_percentage" 0.45
         | ft_percentage => safe_get stats "ft_percentage" 0.75
         | _ => safe_get stats (key c) 0.0
         end;
       proj_fg_attempts := safe_get stats "field_goals_attempted" 10.0;
       proj_ft_attempts := safe_get stats "free_throws_attempted" 3.0 |}.

(** The local variables of [_get_team_projections]. *)
Record TeamAcc : Type := mkTeamAcc {
  team_projections : Category -> Q;
  active_players : Z;
  fg_makes : Q;
  fg_attempts : Q;
  ft_makes : Q;
  ft_attempts : Q
}.

Definition counting_stats : list Category :=
  [points; rebounds; assists; steals; blocks; three_pointers_made; turnovers].

(** One iteration of [for player in roster]. The returned projection dict is
    never empty, so the [if player_stats:] branch is always taken. *)
Definition add_player (acc : TeamAcc) (player : Player) : TeamAcc :=
  let player_stats := _get_sample_player_projections player in
  let tp :=
    fold_left (fun tp stat => upd tp stat (tp stat + proj player_stats stat))
              counting_stats (team_projections acc) in
  let fg_pct := proj player_stats fg_percentage in
  let fg_att := proj_fg_attempts player_stats in
  let hit_fg := (0 <? fg_pct) && (0 <? fg_att) in
  let ft_pct := proj player_stats ft_percentage in
  let ft_att := proj_ft_attempts player_stats in
  let hit_ft := (0 <? ft_pct) && (0 <? ft_att) in
  {| team_projections := tp;
     active_players := (active_players acc + 1)%Z;
     fg_makes := if hit_fg then fg_makes acc + fg_pct * fg_att else fg_makes acc;
     fg_attempts := if hit_fg then fg_attempts acc + fg_att else fg_attempts acc;
     ft_makes := if hit_ft then ft_makes acc + ft_pct * ft_att else ft_makes acc;
     ft_attempts := if hit_ft then ft_attempts acc + ft_att else ft_attempts acc |}.

Definition team_acc0 : TeamAcc :=
  {| team_projections := fun _ => 0;
     active_players := 0;
     fg_makes := 0; fg_attempts := 0; ft_makes := 0; ft_attempts := 0 |}.

Definition _get_team_projections (roster : list Player) : Category -> Q :=
  let acc := fold_left add_player roster team_acc0 in
  let tp := team_projections acc in
  let tp := if 0 <? fg_attempts acc
            then upd tp fg_percentage (fg_makes acc / fg_attempts acc) else tp in
  let tp := if 0 <? ft_attempts acc
            then upd tp ft_percentage (ft_makes acc / ft_attempts acc) else tp in
  tp.

(** ** Sampling *)

(** [np.random.normal(loc, scale)]: location plus scale times the next
    standard variate; a negative scale is refused. The second component is the
    position of the next unread variate. *)
Definition normal (draws : nat -> Q) (loc scale : Q) (k : nat) : Res (Q * nat) :=
  if scale <? 0 then Raise ValueError
  else Ok (loc + scale * draws k, S k).

Definition simulate_stat (draws : nat -> Q) (stat : Category) (projection : Q)
    (k : nat) : Res (Q * nat) :=
  if projection =? 0 then Ok (0, k)
  else
    let volatility := stat_volatility stat in
    let std_dev := projection * volatility in
    if bool_decide (stat = fg_percentage \/ stat = ft_percentage) then
      '(simulated_value, k') ← normal draws projection std_dev k;
      Ok (Num.max 0.2 (Num.min 1.0 simulated_value), k')
    else
      '(simulated_value, k') ← normal draws projection std_dev k;
      Ok (Num.max 0 simulated_value, k').

Definition _simulate_team_performance (draws : nat -> Q)
    (projections : Category -> Q) (k : nat) : Res ((Category -> Q) * nat) :=
  for_each
    (fun '(simulated_stats, k) stat =>
       '(v, k') ← simulate_stat draws stat (projections stat) k;
       Ok (upd simulated_stats stat v, k'))
    stat_categories ((fun _ => 0), k).

(** ** The trial loop *)

(** One stored [sim_detail] dict: the trial number, the rounded samples in
    insertion order, the category counts and the winner. *)
Record SimDetail : Type := mkSimDetail {
  simulation : Z;
  sampled : list (string * Q);
  detail_categories_won : Z;
  detail_categories_lost : Z;
  winner : string
}.

(** The counters that live across trials. *)
Record Tally : Type := mkTally {
  my_wins : Q;
  category_wins : Category -> Z;
  category_losses : Category -> Z;
  category_ties : Category -> Z;
  simulation_details : list SimDetail
}.

(** The variables of one trial together with the three counter dicts. *)
Record TrialAcc : Type := mkTrialAcc {
  categories_won : Z;
  categories_lost : Z;
  wins : Category -> Z;
  losses : Category -> Z;
  ties : Category -> Z;
  sim_detail : list (string * Q)
}.

Definition incr (m : Category -> Z) (c : Category) : Category -> Z :=
  upd m c (m c + 1)%Z.

Definition record_win (a : TrialAcc) (c : Category) : TrialAcc :=
  mkTrialAcc (categories_won a + 1) (categories_lost a)
             (incr (wins a) c) (losses a) (ties a) (sim_detail a).

Definition record_loss (a : TrialAcc) (c : Category) : TrialAcc :=
  mkTrialAcc (categories_won a) (categories_lost a + 1)
             (wins a) (incr (losses a) c) (ties a) (sim_detail a).

Definition record_tie (a : TrialAcc) (c : Category) : TrialAcc :=
  mkTrialAcc (categories_won a) (categories_lost a)
             (wins a) (losses a) (incr (ties a) c) (sim_detail a).

(** Body of [for category in my_projections.keys()]. *)
Definition compare_category (my_sim_stats opp_sim_stats : Category -> Q)
    (a : TrialAcc) (category : Category) : TrialAcc :=
  let my_value := my_sim_stats category in
  let opp_value := opp_sim_stats category in
  let a :=
    if decide (category = turnovers) then
      if my_value <? opp_value then record_win a category
      else if opp_value <? my_value then record_loss a category
      else record_tie a category
    else
      if opp_value <? my_value then record_win a category
      else if my_value <? opp_value then record_loss a category
      else record_tie a category in
  mkTrialAcc (categories_won a) (categories_lost a) (wins a) (losses a) (ties a)
    (sim_detail a ++ [("my_" +:+ key category, Num.round_n my_value 3);
                      ("opp_" +:+ key category, Num.round_n opp_value 3)]).

(** One trial once both teams are sampled: compare the categories, decide
    the winner, keep the detail of the first hundred trials. [outcome] pairs
    the updated [my_wins] with the ['winner'] label. *)
Definition tally_trial (sim : nat) (my_sim_stats opp_sim_stats : Category -> Q)
    (t : Tally) : Tally :=
  let a := fold_left (compare_category my_sim_stats opp_sim_stats) stat_categories
             (mkTrialAcc 0 0 (category_wins t) (category_losses t)
                         (category_ties t) []) in
  let won := categories_won a in
  let lost := categories_lost a in
  let outcome :=
    if (lost <? won)%Z then (my_wins t + 1, "me"%string)
    else if (won <? lost)%Z then (my_wins t, "opponent"%string)
    else (my_wins t + 0.5, "tie"%string) in
  let d := mkSimDetail (Z.of_nat sim + 1) (sim_detail a) won lost outcome.2 in
  mkTally outcome.1 (wins a) (losses a) (ties a)
    (if (sim <? 100)%nat then simulation_details t ++ [d]
     else simulation_details t).

(** Body of [for sim in range(self.num_simulations)]. *)
Definition trial (draws : nat -> Q) (my_projections opponent_projections : Category -> Q)
    (st : Tally * nat) (sim : nat) : Res (Tally * nat) :=
  let '(t, k) := st in
  '(my_sim_stats, k) ← _simulate_team_performance draws my_projections k;
  '(opp_sim_stats, k) ← _simulate_team_performance draws opponent_projections k;
  Ok (tally_trial sim my_sim_stats opp_sim_stats t, k).

Definition tally0 : Tally :=
  mkTally 0 (fun _ => 0%Z) (fun _ => 0%Z) (fun _ => 0%Z) [].

(** [a / n] with an integer divisor. *)
Definition divide (a : Q) (n : nat) : Res Q :=
  match n with
  | O => Raise ZeroDivisionError
  | _ => Ok (a / inject_Z (Z.of_nat n))
  end.

Record CategoryReport : Type := mkCategoryReport {
  win_pct : Q;
  loss_pct : Q;
  tie_pct : Q;
  strength : string
}.

Record SimulationResults : Type := mkSimulationResults {
  win_probability : Q;
  category_breakdown : Category -> CategoryReport;
  expected_categories_won : nat;
  expected_categories_lost : nat;
  expected_categories_tied : nat;
  details : list SimDetail
}.

(** One entry of [category_breakdown]. *)
Definition category_report (num_simulations : nat) (t : Tally) (category : Category)
  : Res CategoryReport :=
  w ← divide (inject_Z (category_wins t category)) num_simulations;
  let win_pct := w * 100 in
  l ← divide (inject_Z (category_losses t category)) num_simulations;
  let loss_pct := l * 100 in
  ti ← divide (inject_Z (category_ties t category)) num_simulations;
  let tie_pct := ti * 100 in
  Ok (mkCategoryReport (Num.round_n win_pct 1) (Num.round_n loss_pct 1)
        (Num.round_n tie_pct 1)
        (if 60 <? win_pct then "strong"%string
         else if win_pct <? 40 then "weak"%string else "even"%string)).

(** [sum(1 for cat, data in category_breakdown.items() if test(data))]. *)
Definition count_categories (test : CategoryReport -> bool)
    (breakdown : Category -> CategoryReport) : nat :=
  length (filter (fun c => test (breakdown c) = true) stat_categories).

(** The configured trial count [self.num_simulations] is a natural number;
    [draws] is the variate sequence and [k0] the first unread position. *)
Definition _run_simulations (num_simulations : nat) (draws : nat -> Q) (k0 : nat)
    (my_projections opponent_projections : Category -> Q)
  : Res (SimulationResults * nat) :=
  '(t, k) ← for_each (trial draws my_projections opponent_projections)
             (seq 0 num_simulations) (tally0, k0);
  p ← divide (my_wins t) num_simulations;
  let win_probability := p * 100 in
  category_breakdown ←
    for_each (fun breakdown category =>
                r ← category_report num_simulations t category;
                Ok (upd breakdown category r))
             stat_categories (fun _ => mkCategoryReport 0 0 0 "");
  Ok (mkSimulationResults (Num.round_n win_probability 1) category_breakdown
        (count_categories (fun data => 50 <? win_pct data) category_breakdown)
        (count_categories (fun data => win_pct data <? 50) category_breakdown)
        (count_categories (fun data => win_pct data =? 50) category_breakdown)
        (simulation_details t), k).

(** An entry of the strategic recommendations: its type and categories. *)
Definition _generate_matchup_recommendations (r : SimulationResults)
  : list (string * list Category) :=
  let weak_categories :=
    filter (fun c => (win_pct (category_breakdown r c) <? 40) = true)
           stat_categories in
  let strong_categories :=
    filter (fun c => (60 <? win_pct (category_breakdown r c)) = true)
           stat_categories in
  (if bool_decide (weak_categories = []) then []
   else [("improve_weakness"%string, weak_categories)])
  ++ (if bool_decide (strong_categories = []) then []
      else [("leverage_strength"%string, strong_categories)]).

Record MatchupReport : Type := mkMatchupReport {
  results : SimulationResults;
  my_team_projections : Category -> Q;
  opponent_projections : Category -> Q;
  recommendations : list (string * list Category)
}.

Definition simulate_matchup (num_simulations : nat) (draws : nat -> Q) (k0 : nat)
    (my_roster opponent_roster : list Player) : Res (MatchupReport * nat) :=
  let my_projections := _get_team_projections my_roster in
  let opponent_projections := _get_team_projections opponent_roster in
  '(simulation_results, k) ←
    _run_simulations num_simulations draws k0 my_projections opponent_projections;
  Ok (mkMatchupReport simulation_results my_projections opponent_projections
        (_generate_matchup_recommendations simulation_results), k).

(** ** Points leagues *)

(** The category a key of the simulated stats names, if any: [stat in stats]
    and [stats[stat]]. *)
Definition category_of_key (stat : string) : option Category :=
  List.find (fun c => bool_decide (key c = stat)) stat_categories.

(** [scoring_settings] is given by its items, in insertion order. *)
Definition _calculate_fantasy_points (stats : Category -> Q)
    (scoring_settings : list (string * Q)) : Q :=
  fold_left
    (fun total_points '(stat, points_per) =>
       match category_of_key stat with
       | Some c => total_points + stats c * points_per
       | None => total_points
       end)
    scoring_settings 0.

Record PointsReport : Type := mkPointsReport {
  points_win_probability : Q;
  projected_points : Q;
  opponent_projected_points : Q
}.

Definition simulate_points_league (num_simulations : nat) (draws : nat -> Q)
    (k0 : nat) (my_roster opponent_roster : list Player)
    (scoring_settings : list (string * Q)) : Res (PointsReport * nat) :=
  '(my_points, opp_points, k) ← for_each
    (fun '(my_points, opp_points, k) _ =>
       '(my_stats, k) ←
         _simulate_team_performance draws (_get_team_projections my_roster) k;
       '(opp_stats, k) ←
         _simulate_team_performance draws (_get_team_projections opponent_roster) k;
       let my_sim_points := _calculate_fantasy_points my_stats scoring_settings in
       let opp_sim_points := _calculate_fantasy_points opp_stats scoring_settings in
       if opp_sim_points <? my_sim_points
       then Ok ((my_points + 1)%Z, opp_points, k)
       else Ok (my_points, (opp_points + 1)%Z, k))
    (seq 0 num_simulations) (0%Z, 0%Z, k0);
  p ← divide (inject_Z my_points) num_simulations;
  let win_probability := p * 100 in
  Ok (mkPointsReport (Num.round_n win_probability 1)
        (_calculate_fantasy_points (_get_team_projections my_roster) scoring_settings)
        (_calculate_fantasy_points (_get_team_projections opponent_roster)
           scoring_settings), k).

End Simulation.

(* ===================================================================== *)
(** * recommendation.py: the roster-move search *)

Module Recommendation.

(** ** Python built-ins used by the search *)

(** [sorted(xs, key=..)] and [sorted(xs, key=.., reverse=True)] over items
    paired with their keys: a stable insertion sort. *)
Fixpoint insert_by {A : Type} (reverse : bool) (x : Q * A) (l : list (Q * A))
  : list (Q * A) :=
  match l with
  | [] => [x]
  | y :: rest =>
      if (if reverse then x.1 <? y.1 else y.1 <? x.1)
      then y :: insert_by reverse x rest
      else x :: y :: rest
  end.

Definition sort_by {A : Type} (reverse : bool) (l : list (Q * A)) : list (Q * A) :=
  foldr (insert_by reverse) [] l.

Definition sorted_by_res {A : Type} (key : A -> Res Q) (reverse : bool)
    (xs : list A) : Res (list A) :=
  keyed ← map_res (fun x => k ← key x; Ok (k, x)) xs;
  Ok (map snd (sort_by reverse keyed)).

(** [sorted(names)] on strings. *)
Definition sorted_names (names : list string) : list string :=
  merge_sort String.le names.

(** [itertools.combinations(xs, k)], in its lexicographic order. *)
Fixpoint combinations {A : Type} (xs : list A) (k : nat) : list (list A) :=
  match k with
  | O => [[]]
  | S k' =>
      match xs with
      | [] => []
      | x :: rest => map (cons x) (combinations rest k') ++ combinations rest k
      end
  end.

(** [sum(xs)] from the left, starting at 0. *)
Definition sum (xs : list Q) : Q := fold_left Qplus xs 0.

(** [list(set(xs))]. CPython does not fix the order in which a set of strings
    is listed; the model lists first occurrences in order. *)
Definition list_of_set (xs : list string) : list string := remove_dups xs.

(** [repr(round(x, 1))], the text an f-string prints for a number rounded to
    one decimal (magnitudes printed in exponent form are outside the model). *)
Definition repr_round1 (x : Q) : string :=
  let tenths := Z.abs (Num.round (x * 10)) in
  (if x <? 0 then "-" else "")
  +:+ pretty (tenths / 10)%Z +:+ "." +:+ pretty (tenths mod 10)%Z.

(** A for loop that an iteration can leave early. *)
Inductive Flow (S : Type) : Type :=
  | Next (s : S)
  | Stop (s : S).

Arguments Next {S} s.
Arguments Stop {S} s.

Fixpoint loop {A S : Type} (body : S -> A -> Res (Flow S)) (xs : list A) (s : S)
  : Res (Flow S) :=
  match xs with
  | [] => Ok (Next s)
  | x :: rest =>
      r ← body s x;
      match r with
      | Next s' => loop body rest s'
      | Stop s' => Ok (Stop s')
      end
  end.

Definition state_of {S : Type} (f : Flow S) : S :=
  match f with
  | Next s => s
  | Stop s => s
  end.

(** ** Value and position predicates *)

Definition _calculate_player_value (player : Player) : Res Q :=
  let stats := stats player in
  pts ← as_num (py_get stats "points" (Some 0));
  let pts := pts * 1.0 in
  reb ← as_num (py_get stats "rebounds" (Some 0));
  let reb := reb * 1.3 in
  ast ← as_num (py_get stats "assists" (Some 0));
  let ast := ast * 1.5 in
  stl ← as_num (py_get stats "steals" (Some 0));
  let stl := stl * 3.5 in
  blk ← as_num (py_get stats "blocks" (Some 0));
  let blk := blk * 3.5 in
  threes ← as_num (py_get stats "three_pointers_made" (Some 0));
  let threes := threes * 1.5 in
  to ← as_num (py_get stats "turnovers" (Some 0));
  let to := to * -2.0 in
  let fg_pct := py_get stats "fg_percentage" (Some 0) in
  let fg_value := if truthy fg_pct then (default 0 fg_pct - 0.45) * 100 else 0 in
  let ft_pct := py_get stats "ft_percentage" (Some 0) in
  let ft_value := if truthy ft_pct then (default 0 ft_pct - 0.75) * 80 else 0 in
  Ok (pts + reb + ast + stl + blk + threes + to + fg_value + ft_value).

(** [player.get('position', '')]. *)
Definition position_of (p : Player) : string := default "" (position p).

Definition _check_position_compatibility (pos1 pos2 : string) : bool :=
  if bool_decide (pos1 = "") || bool_decide (pos2 = "") then true
  else
    let guards := ["PG"; "SG"; "G"] in
    let forwards := ["SF"; "PF"; "F"] in
    let wing := ["SG"; "SF"; "G"; "F"] in
    let big := ["PF"; "C"; "F"] in
    if bool_decide (pos1 = pos2) then true
    else if bool_decide (pos1 ∈ guards) && bool_decide (pos2 ∈ guards) then true
    else if bool_decide (pos1 ∈ forwards) && bool_decide (pos2 ∈ forwards) then true
    else if bool_decide (pos1 ∈ wing) && bool_decide (pos2 ∈ wing) then true
    else if bool_decide (pos1 ∈ big) && bool_decide (pos2 ∈ big) then true
    else false.

(** The inner helper of [_check_multi_position_balance]. *)
Definition count_position_types (positions : list string) : Z * Z * Z :=
  let count (group : list string) :=
    Z.of_nat (length (filter (fun p => p ∈ group) positions)) in
  (count ["PG"; "SG"; "G"], count ["SF"; "PF"; "F"], count ["C"]).

Definition _check_multi_position_balance (drop_positions add_positions : list string)
  : bool :=
  let '(drop_g, drop_f, drop_c) := count_position_types drop_positions in
  let '(add_g, add_f, add_c) := count_position_types add_positions in
  (Z.abs (drop_g - add_g) <=? 1)%Z
  && (Z.abs (drop_f - add_f) <=? 1)%Z
  && (Z.abs (drop_c - add_c) <=? 1)%Z.

(** ** Category deltas *)

(** The dict returned by the two delta reports. *)
Record CategoryChanges : Type := mkCategoryChanges {
  all_categories : list string;
  improvements : list string;
  declines : list string
}.

Definition improved (s : string) (c : CategoryChanges) : CategoryChanges :=
  mkCategoryChanges (all_categories c ++ [s]) (improvements c ++ [s]) (declines c).

Definition declined (s : string) (c : CategoryChanges) : CategoryChanges :=
  mkCategoryChanges (all_categories c ++ [s]) (improvements c) (declines c ++ [s]).

Definition unchanged (s : string) (c : CategoryChanges) : CategoryChanges :=
  mkCategoryChanges (all_categories c ++ [s]) (improvements c) (declines c).

(** The loop body shared, word for word, by [_analyze_category_improvements]
    and [_compare_stat_totals]: one category with its value before ([drop_val])
    and after ([add_val]). *)
Definition category_line (stat_key stat_name : string) (is_percentage : bool)
    (drop_val add_val : Q) (c : CategoryChanges) : CategoryChanges :=
  if bool_decide (stat_key = "turnovers") then
    let diff := drop_val - add_val in
    if 0.01 <? Num.abs diff then
      if 0 <? diff
      then improved (stat_name +:+ " ↓" +:+ repr_round1 (Num.abs diff)) c
      else declined (stat_name +:+ " ↑" +:+ repr_round1 (Num.abs diff)) c
    else unchanged (stat_name +:+ " —") c
  else
    let diff := add_val - drop_val in
    if is_percentage then
      let pct_diff := diff * 100 in
      if 0.01 <? Num.abs pct_diff then
        if 0 <? pct_diff
        then improved (stat_name +:+ " +" +:+ repr_round1 pct_diff +:+ "%") c
        else declined (stat_name +:+ " " +:+ repr_round1 pct_diff +:+ "%") c
      else unchanged (stat_name +:+ " —") c
    else
      if 0.01 <? Num.abs diff then
        if 0 <? diff
        then improved (stat_name +:+ " +" +:+ repr_round1 diff) c
        else declined (stat_name +:+ " " +:+ repr_round1 diff) c
      else unchanged (stat_name +:+ " —") c.

(** The table [categories]: key, display name, is-percentage flag. *)
Definition categories : list (string * string * bool) :=
  [("points", "PTS", false); ("rebounds", "REB", false);
   ("assists", "AST", false); ("steals", "STL", false);
   ("blocks", "BLK", false); ("three_pointers_made", "3PM", false);
   ("fg_percentage", "FG%", true); ("ft_percentage", "FT%", true);
   ("turnovers", "TO", false)].

Definition no_changes : CategoryChanges := mkCategoryChanges [] [] [].

Definition _analyze_category_improvements (drop_player add_player : Player)
  : Res CategoryChanges :=
  let drop_stats := stats drop_player in
  let add_stats := stats add_player in
  for_each
    (fun c '(stat_key, stat_name, is_percentage) =>
       drop_val ← as_num (py_get drop_stats stat_key (Some 0));
       add_val ← as_num (py_get add_stats stat_key (Some 0));
       Ok (category_line stat_key stat_name is_percentage drop_val add_val c))
    categories no_changes.

(** ** Recommendation records *)

(** A player entry inside a recommendation; ['value'] is present only in
    1-for-1 swaps and trades. *)
Record MovePlayer : Type := mkMovePlayer {
  mp_name : string;
  mp_team : string;
  mp_position : string;
  mp_stats : Stats;
  mp_value : option Q;
  mp_fantasy_team : string
}.

(** A recommendation dict. A key that a strategy does not write is [None];
    [drop_players] and [add_players] are read with [.get(.., [])]. *)
Record RosterMove : Type := mkRosterMove {
  type_ : string;
  swap_type : option string;
  trade_partner : option string;
  drop_players : list MovePlayer;
  add_players : list MovePlayer;
  impact_score : Q;
  move_all_categories : option (list string);
  category_improvements : list string;
  category_declines : list string;
  reasoning : string;
  priority : string
}.

Definition entry (p : Player) (value : option Q) (owner : string) : MovePlayer :=
  mkMovePlayer (name p) (default "-" (team p)) (default "-" (position p))
    (stats p) value (default owner (fantasy_team p)).

Definition join (sep : string) (xs : list string) : string := String.concat sep xs.

Definition _generate_swap_reasoning (drop_players add_players : list Player)
    (improvement : Q) (improvements declines : list string) : string :=
  match drop_players, add_players with
  | [drop_p], [add_p] =>
      let head := "Upgrade " +:+ name drop_p +:+ " → " +:+ name add_p +:+ ": " in
      if bool_decide (improvements = []) then
        head +:+ "+" +:+ repr_round1 improvement +:+ " overall value"
      else
        let reason := head +:+ join ", " (take 3 improvements) in
        if bool_decide (declines = []) then reason
        else reason +:+ " | Loses: " +:+ join ", " (take 2 declines)
  | _, _ =>
      let drop_names := join ", " (map name drop_players) in
      let add_names := join ", " (map name add_players) in
      let head := "Swap " +:+ drop_names +:+ " for " +:+ add_names +:+ ": " in
      if bool_decide (improvements = []) then
        head +:+ "+" +:+ repr_round1 improvement +:+ " total value"
      else
        let reason := head +:+ join ", " (take 3 (list_of_set improvements)) in
        if bool_decide (declines = []) then reason
        else reason +:+ " | Loses: " +:+ join ", " (take 2 (list_of_set declines))
  end.

(** ** Strategy 1: 1-for-1 swaps *)

Definition _analyze_single_swaps (current_roster free_agents : list Player)
  : Res (list RosterMove) :=
  sorted_roster ← sorted_by_res _calculate_player_value false current_roster;
  sorted_fas ← sorted_by_res _calculate_player_value true free_agents;
  let sorted_free_agents := take 80 sorted_fas in
  r ← loop
    (fun recommendations roster_player =>
       roster_value ← _calculate_player_value roster_player;
       let roster_position := position_of roster_player in
       loop
         (fun recommendations fa =>
            fa_value ← _calculate_player_value fa;
            let fa_position := position_of fa in
            let position_compatible :=
              _check_position_compatibility roster_position fa_position in
            if (roster_value <? fa_value) && position_compatible then
              let improvement := fa_value - roster_value in
              category_changes ← _analyze_category_improvements roster_player fa;
              if 0.5 <? improvement then
                let recommendations := recommendations ++ [
                  mkRosterMove "single_swap" (Some "1-for-1") None
                    [entry roster_player (Some (Num.round_n roster_value 1)) "My Team"]
                    [entry fa (Some (Num.round_n fa_value 1)) "Free Agent"]
                    (Num.round_n improvement 1)
                    (Some (all_categories category_changes))
                    (improvements category_changes)
                    (declines category_changes)
                    (_generate_swap_reasoning [roster_player] [fa] improvement
                       (improvements category_changes) (declines category_changes))
                    (if 10.0 <? improvement then "high" else "medium")] in
                if (60 <=? length recommendations)%nat
                then Ok (Stop recommendations)
                else Ok (Next recommendations)
              else Ok (Next recommendations)
            else Ok (Next recommendations))
         sorted_free_agents recommendations)
    sorted_roster [];
  Ok (state_of r).

(** ** Strategy 2: 2-for-2 and 3-for-3 swaps *)

(** The dict [combined_changes] built for a multi-player swap. *)
Definition combined_changes (all_improvements all_declines : list string)
  : gmap string (list string) :=
  {[ "improvements" := take 5 (list_of_set all_improvements);
     "declines" := take 3 (list_of_set all_declines);
     "combined" := take 6 (list_of_set (all_improvements ++ all_declines)) ]}.

Definition values_total (players : list Player) : Res Q :=
  values ← map_res _calculate_player_value players;
  Ok (sum values).

Definition _analyze_multi_player_swaps (current_roster free_agents : list Player)
  : Res (list RosterMove) :=
  let swap_sizes := [2; 3]%nat in
  r ← loop
    (fun recommendations swap_size =>
       let max_combo :=
         match swap_size with 2 => 50 | 3 => 30 | _ => 10 end%nat in
       let roster_combos := take max_combo (combinations current_roster swap_size) in
       let fa_combos :=
         take max_combo (combinations (take 50 free_agents) swap_size) in
       let threshold :=
         match swap_size with 2%nat => 0.5 | 3%nat => 1.0 | _ => 0.5 end in
       loop
         (fun recommendations drop_combo =>
            drop_value_total ← values_total drop_combo;
            let drop_positions := map position_of drop_combo in
            loop
              (fun recommendations add_combo =>
                 add_value_total ← values_total add_combo;
                 let add_positions := map position_of add_combo in
                 let value_change := add_value_total - drop_value_total in
                 let position_balanced :=
                   _check_multi_position_balance drop_positions add_positions in
                 if threshold <? value_change then
                   '(all_improvements, all_declines) ←
                     for_each
                       (fun '(imps, decs) '(d, a) =>
                          cat_changes ← _analyze_category_improvements d a;
                          Ok (imps ++ improvements cat_changes,
                              decs ++ declines cat_changes))
                       (zip drop_combo add_combo) ([], []);
                   let combined_changes :=
                     combined_changes all_improvements all_declines in
                   let recommendations := recommendations ++ [
                     mkRosterMove "multi_swap"
                       (Some (pretty swap_size +:+ "-for-" +:+ pretty swap_size)) None
                       (map (fun p => entry p None "My Team") drop_combo)
                       (map (fun p => entry p None "Free Agent") add_combo)
                       (Num.round_n value_change 1)
                       (Some (default [] (combined_changes !! "all_categories")))
                       (default [] (combined_changes !! "improvements"))
                       (default [] (combined_changes !! "declines"))
                       (_generate_swap_reasoning drop_combo add_combo value_change
                          (default [] (combined_changes !! "improvements"))
                          (default [] (combined_changes !! "declines")))
                       (if threshold * 2 <? value_change then "high" else "medium")] in
                   if (30 <=? length recommendations)%nat
                   then Ok (Stop recommendations)
                   else Ok (Next recommendations)
                 else Ok (Next recommendations))
              fa_combos recommendations)
         roster_combos recommendations)
    swap_sizes [];
  Ok (state_of r).

(** ** Strategy 3: value upgrades *)

Definition _find_budget_upgrades (current_roster free_agents : list Player)
  : Res (list RosterMove) :=
  recommendations ← for_each
    (fun recommendations roster_player =>
       roster_value ← _calculate_player_value roster_player;
       let roster_position := position_of roster_player in
       for_each
         (fun recommendations fa =>
            fa_value ← _calculate_player_value fa;
            let fa_position := position_of fa in
            let position_compatible :=
              _check_position_compatibility roster_position fa_position in
            if (roster_value * 1.05 <? fa_value) && position_compatible then
              let improvement := fa_value - roster_value in
              category_changes ← _analyze_category_improvements roster_player fa;
              let improvement_str :=
                if bool_decide (improvements category_changes = [])
                then "overall value"
                else join ", " (take 3 (improvements category_changes)) in
              ratio ← (if roster_value =? 0 then Raise ZeroDivisionError
                       else Ok (fa_value / roster_value));
              Ok (recommendations ++ [
                mkRosterMove "budget_upgrade" (Some "value-play") None
                  [entry roster_player None "My Team"]
                  [entry fa None "Free Agent"]
                  (Num.round_n improvement 1)
                  None
                  (improvements category_changes)
                  (declines category_changes)
                  ("💎 Value pick: " +:+ name fa +:+ " is "
                   +:+ pretty (Num.round ((ratio - 1) * 100))
                   +:+ "% better! (" +:+ improvement_str +:+ ")")
                  "high"])
            else Ok recommendations)
         free_agents recommendations)
    current_roster [];
  Ok (take 20 recommendations).

(** ** Strategy 4: trades with other teams *)

(** One element of [other_teams_rosters]. *)
Record TeamData : Type := mkTeamData {
  team_name : option string;
  roster : list Player
}.

Definition total_keys : list string :=
  ["points"; "rebounds"; "assists"; "steals"; "blocks"; "three_pointers_made";
   "field_goals"; "field_goal_attempts"; "free_throws"; "free_throw_attempts";
   "turnovers"].

Definition _sum_player_stats (players : list Player) : Res (gmap string Q) :=
  for_each
    (fun totals p =>
       for_each
         (fun totals key =>
            v ← as_num (py_get (stats p) key (Some 0));
            Ok (<[key := default 0 (totals !! key) + v]> totals))
         total_keys totals)
    players (list_to_map (map (fun key => (key, 0)) total_keys)).

(** [d.get(key, fallback)] on a dict of totals. *)
Definition total (d : gmap string Q) (key : string) (fallback : Q) : Q :=
  default fallback (d !! key).

Definition _compare_stat_totals (my_stats other_stats : gmap string Q)
  : CategoryChanges :=
  let pct (d : gmap string Q) (made attempts : string) : Q :=
    if 0 <? total d attempts 0 then total d made 0 / total d attempts 1 else 0 in
  let my_fg_pct := pct my_stats "field_goals" "field_goal_attempts" in
  let other_fg_pct := pct other_stats "field_goals" "field_goal_attempts" in
  let my_ft_pct := pct my_stats "free_throws" "free_throw_attempts" in
  let other_ft_pct := pct other_stats "free_throws" "free_throw_attempts" in
  let counting (key : string) := (total my_stats key 0, total other_stats key 0) in
  let categories :=
    [("points", "PTS", false, counting "points");
     ("rebounds", "REB", false, counting "rebounds");
     ("assists", "AST", false, counting "assists");
     ("steals", "STL", false, counting "steals");
     ("blocks", "BLK", false, counting "blocks");
     ("three_pointers_made", "3PM", false, counting "three_pointers_made");
     ("fg_percentage", "FG%", true, (my_fg_pct, other_fg_pct));
     ("ft_percentage", "FT%", true, (my_ft_pct, other_ft_pct));
     ("turnovers", "TO", false, counting "turnovers")] in
  fold_left
    (fun c '(stat_key, display_name, is_percentage, (my_val, other_val)) =>
       category_line stat_key display_name is_percentage my_val other_val c)
    categories no_changes.

(** [len([r for r in recommendations if test(r)])]. *)
Definition count_moves (test : RosterMove -> bool) (l : list RosterMove) : nat :=
  length (filter (fun r => test r = true) l).

(** The body shared by the 2-for-2 and 3-for-3 trade loops, which differ in
    the ratio band [lo..hi], the labels and the per-team cap. *)
Definition combo_trades (team_name size_label reason : string) (lo hi big : Q)
    (cap : nat) (my_combos other_combos : list (list Player))
    (recommendations : list RosterMove) : Res (list RosterMove) :=
  for_each
    (fun recommendations my_combo =>
       my_total_value ← values_total my_combo;
       r ← loop
         (fun recommendations other_combo =>
            other_total_value ← values_total other_combo;
            if my_total_value =? 0 then Ok (Next recommendations)
            else
              let value_ratio := other_total_value / my_total_value in
              if (lo <=? value_ratio) && (value_ratio <=? hi) then
                let improvement := other_total_value - my_total_value in
                my_stats_total ← _sum_player_stats my_combo;
                other_stats_total ← _sum_player_stats other_combo;
                let category_changes :=
                  _compare_stat_totals my_stats_total other_stats_total in
                let my_fantasy_team :=
                  match my_combo with
                  | p :: _ => default "My Team" (fantasy_team p)
                  | [] => "My Team"
                  end in
                let recommendations := recommendations ++ [
                  mkRosterMove "trade" (Some size_label) (Some team_name)
                    (map (fun p => entry p None my_fantasy_team) my_combo)
                    (map (fun p => entry p None team_name) other_combo)
                    (Num.round_n improvement 1)
                    (Some (all_categories category_changes))
                    (improvements category_changes)
                    (declines category_changes)
                    (if bool_decide (size_label = "trade-2-for-2")
                     then reason +:+ join ", " (map name my_combo) +:+ " for "
                          +:+ join ", " (map name other_combo)
                     else reason)
                    (if big <? improvement then "high" else "medium")] in
                if (cap <=? count_moves
                      (fun r => bool_decide (trade_partner r = Some team_name)
                                && bool_decide (swap_type r = Some size_label))
                      recommendations)%nat
                then Ok (Stop recommendations)
                else Ok (Next recommendations)
              else Ok (Next recommendations))
         other_combos recommendations;
       Ok (state_of r))
    my_combos recommendations.

(** [recommendations.sort(key=lambda x: x.get('impact_score', 0), reverse=True)]. *)
Definition sort_by_impact (l : list RosterMove) : list RosterMove :=
  map snd (sort_by true (map (fun r => (impact_score r, r)) l)).

Definition _analyze_multi_player_trades (current_roster : list Player)
    (other_teams_rosters : list TeamData) : Res (list RosterMove) :=
  recommendations ← for_each
    (fun recommendations team_data =>
       let team_name := default "Unknown Team" (team_name team_data) in
       let team_roster := roster team_data in
       if (length team_roster <? 2)%nat then Ok recommendations
       else
         recommendations ←
           combo_trades team_name "trade-2-for-2"
             ("🤝 2-for-2 Trade with " +:+ team_name +:+ ": ") 1.1 1.3 10.0 3
             (combinations current_roster 2) (combinations team_roster 2)
             recommendations;
         if (3 <=? length current_roster)%nat && (3 <=? length team_roster)%nat then
           combo_trades team_name "trade-3-for-3"
             ("🤝 3-for-3 Trade with " +:+ team_name +:+ ": Major roster shake-up")
             1.15 1.35 15.0 2
             (take 15 (combinations current_roster 3))
             (take 15 (combinations team_roster 3))
             recommendations
         else Ok recommendations)
    other_teams_rosters [];
  Ok (take 20 (sort_by_impact recommendations)).

Definition _analyze_trade_opportunities (current_roster : list Player)
    (other_teams_rosters : list TeamData) : Res (list RosterMove) :=
  recommendations ← for_each
    (fun recommendations my_player =>
       my_value ← _calculate_player_value my_player;
       let my_position := position_of my_player in
       for_each
         (fun recommendations team_data =>
            let team_name := default "Unknown Team" (team_name team_data) in
            let team_roster := roster team_data in
            r ← loop
              (fun recommendations other_player =>
                 other_value ← _calculate_player_value other_player;
                 let other_position := position_of other_player in
                 let value_ratio :=
                   if 0 <? my_value then other_value / my_value else 0 in
                 if (1.1 <=? value_ratio) && (value_ratio <=? 1.25)
                    && _check_position_compatibility my_position other_position then
                   let improvement := other_value - my_value in
                   category_changes ←
                     _analyze_category_improvements my_player other_player;
                   let recommendations := recommendations ++ [
                     mkRosterMove "trade" (Some "trade-1-for-1") (Some team_name)
                       [entry my_player (Some (Num.round_n my_value 1)) "My Team"]
                       [entry other_player (Some (Num.round_n other_value 1)) team_name]
                       (Num.round_n improvement 1)
                       (Some (all_categories category_changes))
                       (improvements category_changes)
                       (declines category_changes)
                       ("🤝 Trade with " +:+ team_name +:+ ": " +:+ name my_player
                        +:+ " for " +:+ name other_player +:+ " ("
                        +:+ (if bool_decide (improvements category_changes = [])
                             then "balanced upgrade"
                             else join ", " (take 2 (improvements category_changes)))
                        +:+ ")")
                       (if 5.0 <? improvement then "high" else "medium")] in
                   if (3 <=? count_moves
                         (fun r => bool_decide
                            (mp_name <$> head (drop_players r) = Some (name my_player)))
                         recommendations)%nat
                   then Ok (Stop recommendations)
                   else Ok (Next recommendations)
                 else Ok (Next recommendations))
              team_roster recommendations;
            Ok (state_of r))
         other_teams_rosters recommendations)
    current_roster [];
  let one_for_one_trades := take 20 recommendations in
  multi_trades ← _analyze_multi_player_trades current_roster other_teams_rosters;
  let all_trades := one_for_one_trades ++ multi_trades in
  Ok (take 40 all_trades).

(** ** The entry point *)

(** The identity key of a recommendation. *)
Definition _get_recommendation_key (r : RosterMove) : list string * list string :=
  let drop_names := sorted_names (map mp_name (drop_players r)) in
  let add_names := sorted_names (map mp_name (add_players r)) in
  (drop_names, add_names).

(** The fallback list. Its single dict has the keys ['drop_player'] and
    ['add_player'] (singular, not modelled) and neither ['drop_players'] nor
    ['add_players'], which therefore read as empty. *)
Definition _get_sample_recommendations : list RosterMove :=
  [mkRosterMove "add_drop" None None [] [] 12.5 None [] []
     "Better all-around production" "high"].

(** One of the four [for rec in ..: if rec_key not in seen: ..] loops. *)
Definition add_unseen (acc : list RosterMove * gset (list string * list string))
    (recs : list RosterMove)
  : list RosterMove * gset (list string * list string) :=
  fold_left
    (fun '(recommendations, seen_recommendations) r =>
       let rec_key := _get_recommendation_key r in
       if decide (rec_key ∈ seen_recommendations)
       then (recommendations, seen_recommendations)
       else (recommendations ++ [r], seen_recommendations ∪ {[ rec_key ]}))
    recs acc.

(** The body of the [try] block; [stored] is [self.other_teams_rosters] after
    the assignment at the top of the method. *)
Definition try_recommendations (stored : list TeamData)
    (current_roster free_agents all_players : list Player)
    (max_recommendations : nat) : Res (list RosterMove) :=
  let acc := ([], ∅) in
  single_swap_recs ← _analyze_single_swaps current_roster free_agents;
  let acc := add_unseen acc single_swap_recs in
  multi_swap_recs ← _analyze_multi_player_swaps current_roster free_agents;
  let acc := add_unseen acc multi_swap_recs in
  budget_upgrades ← _find_budget_upgrades current_roster free_agents;
  let acc := add_unseen acc budget_upgrades in
  acc ← (if bool_decide (stored = []) then Ok acc
         else
           trade_suggestions ← _analyze_trade_opportunities current_roster stored;
           Ok (add_unseen acc trade_suggestions));
  let recommendations := sort_by_impact acc.1 in
  Ok (take max_recommendations recommendations).

(** [get_recommendations_for_roster]. The first argument is the value of
    [self.other_teams_rosters] before the call; the result carries its value
    after the call. The requested maximum is a natural number. *)
Definition get_recommendations_for_roster (self_other_teams_rosters : list TeamData)
    (current_roster free_agents all_players : list Player)
    (max_recommendations : nat) (other_teams_rosters : option (list TeamData))
  : list RosterMove * list TeamData :=
  let stored :=
    match other_teams_rosters with
    | Some (t :: ts) => t :: ts
    | _ => self_other_teams_rosters
    end in
  match try_recommendations stored current_roster free_agents all_players
          max_recommendations with
  | Ok recommendations => (recommendations, stored)
  | Raise _ => (_get_sample_recommendations, stored)
  end.

(** ** Roster averages *)

(** The keys of the dict built by [_calculate_roster_stats]. *)
Definition roster_keys : list string :=
  ["points"; "rebounds"; "assists"; "steals"; "blocks"; "turnovers"].

Definition _calculate_roster_stats (roster : list Player) : Res (gmap string Q) :=
  totals ← for_each
    (fun totals player =>
       let player_stats := stats player in
       for_each
         (fun totals key =>
            v ← as_num (py_get player_stats key (Some 0));
            Ok (<[key := default 0 (totals !! key) + v]> totals))
         roster_keys totals)
    roster (list_to_map (map (fun key => (key, 0)) roster_keys));
  let roster_size :=
    match roster with
    | [] => 1%nat
    | _ => length roster
    end in
  Ok (fmap (M := gmap string) (fun v => v / inject_Z (Z.of_nat roster_size)) totals).

End Recommendation.

(* ===================================================================== *)
(** * app.py: the roster order of the matchup pages *)

Module App.

(** [position.split('-')[0]]: the text before the first dash. *)
Fixpoint primary_position (position : string) : string :=
  match position with
  | EmptyString => EmptyString
  | String a rest =>
      if bool_decide (String a EmptyString = "-") then EmptyString
      else String a (primary_position rest)
  end.

(** [position_order.get(position, 6)]. *)
Definition position_order (position : string) : Z :=
  if bool_decide (position = "PG") then 1
  else if bool_decide (position = "SG") then 2
  else if bool_decide (position = "SF") then 3
  else if bool_decide (position = "PF") then 4
  else if bool_decide (position = "C") then 5
  else 6.

Definition get_position_sort_key (player : Player) : Z :=
  position_order (primary_position (default "C" (position player))).

Definition sort_roster_by_position (roster : list Player) : list Player :=
  map snd (Recommendation.sort_by false
             (map (fun p => (inject_Z (get_position_sort_key p), p)) roster)).

End App.

(* ===================================================================== *)
(** * Reference definitions

    The statements below compare the embedded code with these definitions,
    which follow the wording of the specification. *)

(** Every stored value is a number. *)
Definition numeric (stats : Stats) : Prop :=
  forall key : string, stats !! key <> Some None.

(** The six bands of the credit tier function: threshold, base, slope and,
    for the elite band, the cap. *)
Definition tier_bands : list (Q * Q * Q * option Q) :=
  [(55, 50, 1.5, Some 70);
   (45, 35, 1.4, None);
   (35, 25, 1.0, None);
   (25, 15, 1.0, None);
   (15, 8, 0.7, None);
   (5, 3, 0.4, None)].

(** Lookup of the first band whose threshold the score reaches, then linear
    interpolation on the excess; below every band, [max(1, 0.4 * score)]. *)
Definition tier_spec (score : Q) : Q :=
  match List.find (fun '(threshold, _, _, _) => threshold <=? score) tier_bands with
  | Some (threshold, base, slope, cap) =>
      let value := base + slope * (score - threshold) in
      match cap with
      | Some c => Num.min c value
      | None => value
      end
  | None => Num.max 1 (0.4 * score)
  end.

(** The minutes-dampening multiplier. *)
Definition minutes_multiplier (minutes : Q) : Q :=
  if minutes <? 28 then 0.6 + (minutes / 28) * 0.4 else 1.

(** [total f l]: the sum of [f x] over the elements [x] of [l]. *)
Definition total {A : Type} (f : A -> Q) (l : list A) : Q :=
  foldr (fun x acc => f x + acc) 0 l.

(** The players that count in a ratio category: positive rate and positive
    attempts. *)
Definition counts (rate attempts : Simulation.PlayerProjection -> Q)
    (pp : Simulation.PlayerProjection) : bool :=
  (0 <? rate pp) && (0 <? attempts pp).

Definition shooters (rate attempts : Simulation.PlayerProjection -> Q)
    (l : list Simulation.PlayerProjection) : list Simulation.PlayerProjection :=
  filter (fun pp => counts rate attempts pp = true) l.

(** Weighted makes over weighted attempts, 0 when the attempts sum to 0. *)
Definition ratio_spec (rate attempts : Simulation.PlayerProjection -> Q)
    (roster : list Player) : Q :=
  let counted :=
    shooters rate attempts (map Simulation._get_sample_player_projections roster) in
  let attempts_sum := total attempts counted in
  if attempts_sum =? 0 then 0
  else total (fun pp => rate pp * attempts pp) counted / attempts_sum.

Definition fg_rate (pp : Simulation.PlayerProjection) : Q :=
  Simulation.proj pp Simulation.fg_percentage.

Definition ft_rate (pp : Simulation.PlayerProjection) : Q :=
  Simulation.proj pp Simulation.ft_percentage.

(** The arithmetic mean of a list of numbers. *)
Definition arithmetic_mean (xs : list Q) : Q :=
  total id xs / inject_Z (Z.of_nat (length xs)).

(** The line given to a player without stats: 10 points, 4 rebounds,
    3 assists, 0.8 steals, 0.5 blocks, 1 three-pointer, 45% and 75% shooting
    and 1.5 turnovers. *)
Definition default_line (c : Simulation.Category) : Q :=
  match c with
  | Simulation.points => 10
  | Simulation.rebounds => 4
  | Simulation.assists => 3
  | Simulation.steals => 0.8
  | Simulation.blocks => 0.5
  | Simulation.three_pointers_made => 1
  | Simulation.fg_percentage => 0.45
  | Simulation.ft_percentage => 0.75
  | Simulation.turnovers => 1.5
  end.

(** What one player puts into a category of the team projection: the fixed
    default line when the stats mapping is empty; otherwise the stored number,
    or the placeholder (0.45 for FG%, 0.75 for FT%, 0 for a counting stat)
    when the key is missing or holds [None]. *)
Definition stat_line (p : Player) (c : Simulation.Category) : Q :=
  if stats_empty (stats p) then default_line c
  else
    match stats p !! Simulation.key c with
    | Some (Some v) => v
    | _ =>
        match c with
        | Simulation.fg_percentage => 0.45
        | Simulation.ft_percentage => 0.75
        | _ => 0
        end
    end.

(** The attempts with which a player enters a team percentage: the number
    [without_stats] for a player without stats; otherwise the number stored
    under [attempts_key], or [placeholder] when the key is missing or holds
    [None]. *)
Definition attempts_line (attempts_key : string) (without_stats placeholder : Q)
    (p : Player) : Q :=
  if stats_empty (stats p) then without_stats
  else
    match stats p !! attempts_key with
    | Some (Some v) => v
    | _ => placeholder
    end.

(** Field-goal attempts: 8 without stats, else the stored
    'field_goals_attempted' or 10. Free-throw attempts: 3 without stats, else
    the stored 'free_throws_attempted' or 3. *)
Definition fg_attempts_line : Player -> Q :=
  attempts_line "field_goals_attempted" 8 10.

Definition ft_attempts_line : Player -> Q :=
  attempts_line "free_throws_attempted" 3 3.

(** Rate times attempts over attempts, summed over the players whose rate and
    attempts are both positive; 0 when no attempts are left. *)
Definition line_ratio (rate attempts : Player -> Q) (roster : list Player) : Q :=
  let counted :=
    filter (fun p => (0 <? rate p) && (0 <? attempts p) = true) roster in
  let attempts_sum := total attempts counted in
  if attempts_sum =? 0 then 0
  else total (fun p => rate p * attempts p) counted / attempts_sum.

(** [beats c mine theirs]: the holder of [mine] takes category [c] from the
    holder of [theirs]: the lower value for turnovers, the higher value for
    every other category. *)
Definition beats (c : Simulation.Category) (mine theirs : Q) : bool :=
  if decide (c = Simulation.turnovers) then mine <? theirs else theirs <? mine.

(** The same rule as a proposition. *)
Definition takes (c : Simulation.Category) (mine theirs : Q) : Prop :=
  if decide (c = Simulation.turnovers) then mine < theirs else theirs < mine.

(** Number of categories the first team takes from the second in one trial. *)
Definition categories_taken (mine theirs : Simulation.Category -> Q) : Z :=
  Z.of_nat (length (filter (fun c => beats c (mine c) (theirs c) = true)
                           Simulation.stat_categories)).

(** One trial: my sampled stats and the opponent's. *)
Definition Sample : Type := (Simulation.Category -> Q) * (Simulation.Category -> Q).

(** The credit a trial adds to my win tally: 1 when I take strictly more
    categories, 0 when the opponent does, one half on an equal count. *)
Definition trial_credit (s : Sample) : Q :=
  let won := categories_taken s.1 s.2 in
  let lost := categories_taken s.2 s.1 in
  if (lost <? won)%Z then 1
  else if (won <? lost)%Z then 0
  else 1 # 2.

Definition trial_winner (s : Sample) : string :=
  let won := categories_taken s.1 s.2 in
  let lost := categories_taken s.2 s.1 in
  if (lost <? won)%Z then "me"
  else if (won <? lost)%Z then "opponent"
  else "tie".

(** The samples of [n] consecutive trials, read from position [k] of the draw
    sequence: for each trial my team first, then the opponent. *)
Fixpoint sample_trials (draws : nat -> Q)
    (my_projections opponent_projections : Simulation.Category -> Q)
    (n k : nat) : Res (list Sample * nat) :=
  match n with
  | O => Ok ([], k)
  | S n' =>
      '(mine, k) ← Simulation._simulate_team_performance draws my_projections k;
      '(theirs, k) ←
        Simulation._simulate_team_performance draws opponent_projections k;
      '(rest, k) ← sample_trials draws my_projections opponent_projections n' k;
      Ok ((mine, theirs) :: rest, k)
  end.

(** The tally after the trials [trials], numbered from [s] on. *)
Fixpoint tally_all (s : nat) (trials : list Sample) (t : Simulation.Tally)
  : Simulation.Tally :=
  match trials with
  | [] => t
  | smp :: rest => tally_all (S s) rest (Simulation.tally_trial s smp.1 smp.2 t)
  end.

(** The projection of an empty roster and the stats sampled from it. *)
Definition zero_projection : Simulation.Category -> Q := fun _ => 0.

Definition zero_sample : Simulation.Category -> Q :=
  fold_left (fun simulated_stats stat => Simulation.upd simulated_stats stat 0)
            Simulation.stat_categories (fun _ => 0).

(** The second move does not have a larger impact score than the first. *)
Definition impact_ge (a b : Recommendation.RosterMove) : Prop :=
  Recommendation.impact_score b <= Recommendation.impact_score a.

#[global] Instance impact_ge_transitive : Transitive impact_ge.
Proof. intros a b c Hab Hbc. exact (Qle_trans _ _ _ Hbc Hab). Qed.

(** Sorted by impact score in descending order. *)
Definition impact_descending (l : list Recommendation.RosterMove) : Prop :=
  StronglySorted impact_ge l.

(** No two entries share an identity key. *)
Definition distinct_keys (l : list Recommendation.RosterMove) : Prop :=
  NoDup (map Recommendation._get_recommendation_key l).

(** Invariant of the four merge loops: the kept moves have distinct keys, all
    of them recorded in the seen set. *)
Definition merged
    (acc : list Recommendation.RosterMove * gset (list string * list string)) : Prop :=
  distinct_keys acc.1 /\
  forall k, In k (map Recommendation._get_recommendation_key acc.1) -> k ∈ acc.2.

(** The order a sort by key establishes between an item and a later one. *)
Definition key_ordered {A : Type} (reverse : bool) (x y : Q * A) : Prop :=
  if reverse then y.1 <= x.1 else x.1 <= y.1.

(* ===================================================================== *)
(** * Concrete inputs used by the examples *)

(** A stats dict as [data.py] builds it for a player who attempted no free
    throw: every key a number, ['ft_percentage'] set to [None]. *)
Definition stats_without_free_throws : Stats :=
  {[ "points" := Some 4.2; "rebounds" := Some 3.1; "assists" := Some 0.8;
     "steals" := Some 0.4; "blocks" := Some 0.6; "turnovers" := Some 0.7;
     "fg_percentage" := Some 0.52; "ft_percentage" := None;
     "three_pointers_made" := Some 0 ]}.

(** A starter's line: 25 points, 8 rebounds, 5 assists. *)
Definition starter_stats : Stats :=
  {[ "points" := Some 25; "rebounds" := Some 8; "assists" := Some 5 ]}.

(** A 100% shooter on one attempt and a 45% shooter on twenty. *)
Definition hot_hand : Player :=
  mkPlayer "Hot Hand" None None 12 None
    {[ "fg_percentage" := Some 1.0; "field_goals_attempted" := Some 1 ]}.

Definition volume_shooter : Player :=
  mkPlayer "Volume Shooter" None None 34 None
    {[ "fg_percentage" := Some 0.45; "field_goals_attempted" := Some 20 ]}.

(** A rostered player for whom no statistics were found. *)
Definition unknown_player : Player :=
  mkPlayer "Unknown" None None 0 None ∅.

(** A draw sequence and two rosters for the example runs. *)
Definition example_draws : nat -> Q := fun k => (Z.of_nat k # 7) - 1.

Definition example_roster : list Player :=
  [mkPlayer "Starter" None (Some "SF") 34 None starter_stats; hot_hand].

Definition example_opponents : list Player :=
  [volume_shooter; unknown_player].

(** Two rostered centers and two free-agent point guards. *)
Definition two_centers : list Player :=
  [mkPlayer "Center A" (Some "DEN") (Some "C") 24 None
     {[ "points" := Some 8; "rebounds" := Some 6; "blocks" := Some 1 ]};
   mkPlayer "Center B" (Some "UTA") (Some "C") 22 None
     {[ "points" := Some 6; "rebounds" := Some 7; "blocks" := Some 1 ]}].

Definition two_guards : list Player :=
  [mkPlayer "Guard A" (Some "OKC") (Some "PG") 34 None
     {[ "points" := Some 20; "assists" := Some 8; "steals" := Some 2 ]};
   mkPlayer "Guard B" (Some "DAL") (Some "PG") 33 None
     {[ "points" := Some 18; "assists" := Some 7; "steals" := Some 1 ]}].

(** Two rostered forwards and two better free-agent forwards. *)
Definition two_forwards : list Player :=
  [mkPlayer "Forward A" (Some "BOS") (Some "SF") 28 None
     {[ "points" := Some 10; "rebounds" := Some 4; "assists" := Some 2 ]};
   mkPlayer "Forward B" (Some "MIA") (Some "PF") 26 None
     {[ "points" := Some 9; "rebounds" := Some 6; "assists" := Some 1 ]}].

Definition better_forwards : list Player :=
  [mkPlayer "Forward C" (Some "NYK") (Some "SF") 33 None
     {[ "points" := Some 18; "rebounds" := Some 5; "assists" := Some 3 ]};
   mkPlayer "Forward D" (Some "MIL") (Some "PF") 32 None
     {[ "points" := Some 16; "rebounds" := Some 9; "assists" := Some 2 ]}].

(* ===================================================================== *)
(** * Reference definitions for the further properties *)

(** What every stored trial detail satisfies: category counts that are not
    negative and sum to at most nine, and eighteen sampled values. *)
Definition detail_well_formed (d : Simulation.SimDetail) : Prop :=
  (0 <= Simulation.detail_categories_won d)%Z
  /\ (0 <= Simulation.detail_categories_lost d)%Z
  /\ (Simulation.detail_categories_won d + Simulation.detail_categories_lost d <= 9)%Z
  /\ length (Simulation.sampled d) = 18%nat.

(** No stored counting stat of the player is negative. *)
Definition counting_nonnegative (p : Player) : Prop :=
  forall (c : Simulation.Category) (v : Q),
    c ∈ Simulation.counting_stats ->
    stats p !! Simulation.key c = Some (Some v) -> 0 <= v.

(** The lineup order of the matchup pages. *)
Definition lineup : list string := ["PG"; "SG"; "SF"; "PF"; "C"].

(** The rank of a position text: its place in the lineup counted from 1, and
    6 for a text that is not in the lineup. *)
Definition lineup_rank (pos : string) : Z :=
  match list_find (fun x => x = pos) lineup with
  | Some (i, _) => Z.of_nat i + 1
  | None => 6
  end.

(** [pre] is the primary position written in [text]: [pre] holds no dash, and
    [text] is [pre] alone or [pre] followed by a dash and more text. *)
Definition primary_of (text pre : string) : Prop :=
  (forall a b : string, pre <> a +:+ "-" +:+ b)
  /\ (text = pre \/ exists rest : string, text = pre +:+ "-" +:+ rest).

(** [r] is the rank of a player: the lineup rank of the primary position, a
    player without a position counting as a center. *)
Definition has_rank (p : Player) (r : Z) : Prop :=
  exists pre : string,
    primary_of (default "C" (position p)) pre /\ r = lineup_rank pre.

(** The first player does not rank after the second. *)
Definition position_ordered (p q : Player) : Prop :=
  forall rp rq : Z, has_rank p rp -> has_rank q rq -> (rp <= rq)%Z.

(** The number stored under a key; 0 when the key is missing or holds
    [None]. *)
Definition stat_or_zero (stats : Stats) (key : string) : Q :=
  match stats !! key with
  | Some (Some v) => v
  | _ => 0
  end.

(** The sum of weight times stored number over a table of weights. *)
Definition weighted_sum (weights : list (string * Q)) (stats : Stats) : Q :=
  total (fun '(key, weight) => stat_or_zero stats key * weight) weights.

(** What one item of [stats.items()] adds to the fantasy value. *)
Definition scored_contribution (item : string * option Q) : Q :=
  match Draft.lookup_item item.1 Draft.scoring_weights with
  | Some weight => default 0 item.2 * weight
  | None => 0
  end.

(** The total weight of the listed seasons that a history covers. *)
Definition present_weight (seasons : list (string * Q))
    (historical : gmap string Stats) : Q :=
  total (fun '(season, weight) =>
           match historical !! season with
           | Some _ => weight
           | None => 0
           end) seasons.

(** Weight times stored number of a category, summed over the listed seasons
    that a history covers. *)
Definition weighted_total (seasons : list (string * Q))
    (historical : gmap string Stats) (category : string) : Q :=
  total (fun '(season, weight) =>
           match historical !! season with
           | Some stats => stat_or_zero stats category * weight
           | None => 0
           end) seasons.

(** Some listed season of the history stores the category. *)
Definition stored_in (seasons : list (string * Q)) (historical : gmap string Stats)
    (category : string) : Prop :=
  exists season weight stats,
    (season, weight) ∈ seasons /\ historical !! season = Some stats
    /\ is_Some (stats !! category).

(** No stats mapping of the history holds [None]. *)
Definition numeric_history (historical : gmap string Stats) : Prop :=
  forall season stats, historical !! season = Some stats -> numeric stats.

(** A history of two seasons: the starter's line in 2024-25 after a quieter
    2022-23. *)
Definition two_season_history : gmap string Stats :=
  {[ "2024-25" := starter_stats;
     "2022-23" := {[ "points" := Some 15; "rebounds" := Some 6; "assists" := Some 5 ]} ]}.

(** A 2-for-2 move that drops the first group for the second. *)
Definition block_move (dropped added : list Player) : Recommendation.RosterMove :=
  Recommendation.mkRosterMove "multi_swap" (Some "2-for-2") None
    (map (fun p => Recommendation.entry p None "My Team") dropped)
    (map (fun p => Recommendation.entry p None "Free Agent") added)
    0 (Some []) [] [] "Swap" "medium".

(** The counting stats read by [_calculate_player_value]. *)
Definition value_keys : list string :=
  ["points"; "rebounds"; "assists"; "steals"; "blocks"; "three_pointers_made";
   "turnovers"].

(** What a 1-for-1 swap found for a roster and a free-agent pool records: a
    rostered player and a free agent at a compatible position whose value is
    more than 0.5 higher, both with their rounded values, the rounded
    value gain as impact score and the category report of the pair. *)
Definition single_swap_of (current_roster free_agents : list Player)
    (m : Recommendation.RosterMove) : Prop :=
  exists (p fa : Player) (vp vf : Q) (cc : Recommendation.CategoryChanges),
    p ∈ current_roster /\ fa ∈ free_agents
    /\ Recommendation._calculate_player_value p = Ok vp
    /\ Recommendation._calculate_player_value fa = Ok vf
    /\ 0.5 < vf - vp
    /\ Recommendation._check_position_compatibility
         (Recommendation.position_of p) (Recommendation.position_of fa) = true
    /\ Recommendation._analyze_category_improvements p fa = Ok cc
    /\ Recommendation.drop_players m
       = [Recommendation.entry p (Some (Num.round_n vp 1)) "My Team"]
    /\ Recommendation.add_players m
       = [Recommendation.entry fa (Some (Num.round_n vf 1)) "Free Agent"]
    /\ Recommendation.impact_score m = Num.round_n (vf - vp) 1
    /\ Recommendation.move_all_categories m
       = Some (Recommendation.all_categories cc).

(** What a 2-for-2 or 3-for-3 swap records: as many dropped as added
    players, two or three, the dropped ones rostered and the added ones among
    the first fifty free agents. *)
Definition multi_swap_of (current_roster free_agents : list Player)
    (m : Recommendation.RosterMove) : Prop :=
  exists (k : nat) (drop_combo add_combo : list Player),
    (k = 2 \/ k = 3)%nat
    /\ length drop_combo = k /\ length add_combo = k
    /\ drop_combo ⊆ current_roster /\ add_combo ⊆ take 50 free_agents
    /\ Recommendation.drop_players m
       = map (fun p => Recommendation.entry p None "My Team") drop_combo
    /\ Recommendation.add_players m
       = map (fun p => Recommendation.entry p None "Free Agent") add_combo.

(** A reserve without free-throw attempts and without a listed position. *)
Definition reserve : Player :=
  mkPlayer "Reserve" None None (29 # 2) None stats_without_free_throws.

(* ===================================================================== *)
(** * Proof steps *)

(** Turns the boolean comparisons among the hypotheses into
    propositions. *)
Ltac qcompare :=
  repeat match goal with
  | H : Num.ltb _ _ = true |- _ =>
      unfold Num.ltb in H; apply negb_true_iff, not_true_iff_false in H;
      rewrite Qle_bool_iff in H; apply Qnot_le_lt in H
  | H : Num.ltb _ _ = false |- _ =>
      unfold Num.ltb in H; apply negb_false_iff, Qle_bool_iff in H
  | H : Num.leb _ _ = true |- _ =>
      unfold Num.leb in H; apply Qle_bool_iff in H
  | H : Num.leb _ _ = false |- _ =>
      unfold Num.leb in H; apply not_true_iff_false in H;
      rewrite Qle_bool_iff in H; apply Qnot_le_lt in H
  | H : Num.eqb _ _ = true |- _ =>
      unfold Num.eqb in H; apply Qeq_bool_iff in H
  | H : Num.eqb _ _ = false |- _ =>
      unfold Num.eqb in H; apply Qeq_bool_neq in H
  end.

(* ===================================================================== *)
(** * Facts about numbers *)

Section NumFacts.

Lemma ltb_lt (a b : Q) : (a <? b) = true <-> a < b.
Proof.
  unfold Num.ltb. rewrite negb_true_iff, <- not_true_iff_false, Qle_bool_iff.
  split; [apply Qnot_le_lt | apply Qlt_not_le].
Qed.

Lemma ltb_ge (a b : Q) : (a <? b) = false <-> b <= a.
Proof.
  unfold Num.ltb. rewrite negb_false_iff. apply Qle_bool_iff.
Qed.

Lemma leb_le (a b : Q) : (a <=? b) = true <-> a <= b.
Proof. apply Qle_bool_iff. Qed.

Lemma leb_gt (a b : Q) : (a <=? b) = false <-> b < a.
Proof.
  unfold Num.leb. rewrite <- not_true_iff_false, Qle_bool_iff.
  split; [apply Qnot_le_lt | apply Qlt_not_le].
Qed.

Lemma eqb_eq (a b : Q) : (a =? b) = true <-> a == b.
Proof. apply Qeq_bool_iff. Qed.

Lemma eqb_neq (a b : Q) : (a =? b) = false <-> ~ a == b.
Proof. unfold Num.eqb. rewrite <- not_true_iff_false, Qeq_bool_iff. tauto. Qed.

Lemma ltb_compat (a a' b b' : Q) : a == a' -> b == b' -> (a <? b) = (a' <? b').
Proof.
  intros Ha Hb. destruct (a' <? b') eqn:E.
  - apply ltb_lt. apply ltb_lt in E. lra.
  - apply ltb_ge. apply ltb_ge in E. lra.
Qed.

(** [round] is within one half of its argument. *)
Lemma round_near (x : Q) :
  x - (1 # 2) <= inject_Z (Num.round x) /\ inject_Z (Num.round x) <= x + (1 # 2).
Proof.
  unfold Num.round.
  pose proof (Qfloor_le x) as Hlo.
  pose proof (Qlt_floor x) as Hhi.
  rewrite inject_Z_plus in Hhi. change (inject_Z 1) with 1 in Hhi.
  destruct (x - inject_Z (Qfloor x) <? 1 # 2) eqn:E1.
  { apply ltb_lt in E1. lra. }
  apply ltb_ge in E1.
  destruct ((1 # 2) <? x - inject_Z (Qfloor x)) eqn:E2.
  { rewrite inject_Z_plus. change (inject_Z 1) with 1. lra. }
  apply ltb_ge in E2.
  destruct (Z.even (Qfloor x)).
  - lra.
  - rewrite inject_Z_plus. change (inject_Z 1) with 1. lra.
Qed.

Lemma round_compat (x y : Q) : x == y -> Num.round x = Num.round y.
Proof.
  intros H. unfold Num.round.
  rewrite (Qfloor_comp x y H).
  rewrite (ltb_compat (x - inject_Z (Qfloor y)) (y - inject_Z (Qfloor y))
             (1 # 2) (1 # 2)) by lra.
  rewrite (ltb_compat (1 # 2) (1 # 2) (x - inject_Z (Qfloor y))
             (y - inject_Z (Qfloor y))) by lra.
  reflexivity.
Qed.

Lemma round_n_compat (x y : Q) (n : nat) : x == y -> Num.round_n x n = Num.round_n y n.
Proof.
  intros H. unfold Num.round_n.
  rewrite (round_compat (x * Num.pow10 n) (y * Num.pow10 n)); [reflexivity|].
  rewrite H. reflexivity.
Qed.

(** Rounding to one decimal moves a number by at most 0.05. *)
Lemma round_1_near (x : Q) :
  x - (1 # 20) <= Num.round_n x 1 /\ Num.round_n x 1 <= x + (1 # 20).
Proof.
  unfold Num.round_n.
  change (Num.pow10 1) with 10.
  pose proof (round_near (x * 10)) as [Hlo Hhi].
  set (r := inject_Z (Num.round (x * 10))) in *.
  split.
  - apply Qle_shift_div_l; lra.
  - apply Qle_shift_div_r; lra.
Qed.

End NumFacts.

(* ===================================================================== *)
(** * draft.py: credit bounds and the tier function *)

Section DraftFacts.

Lemma numeric_get (stats : Stats) (key : string) (d : Q) :
  numeric stats -> exists q, py_get stats key (Some d) = Some q.
Proof.
  intros Hn. unfold py_get. specialize (Hn key).
  destruct (stats !! key) as [[q|]|]; eauto. congruence.
Qed.

(** On numbers the composite score is defined. *)
Lemma composite_score_defined (stats : Stats) :
  numeric stats -> exists score, Draft.composite_score stats = Ok score.
Proof.
  intros Hn. unfold Draft.composite_score.
  repeat match goal with
  | |- context [as_num (py_get stats ?k (Some ?d))] =>
      let q := fresh "q" in let E := fresh "E" in
      destruct (numeric_get stats k d Hn) as [q E]; rewrite E; cbn
  end.
  eauto.
Qed.

(** Whatever [calculate_player_credit] returns lies in [1, 70]. *)
Lemma credit_in_range (stats : Stats) (minutes : Q) (c : Z) :
  Draft.calculate_player_credit stats minutes = Ok c -> (1 <= c <= 70)%Z.
Proof.
  unfold Draft.calculate_player_credit.
  destruct (stats_empty stats); [intros [= <-]; lia|].
  destruct (minutes <? 10); [intros [= <-]; lia|].
  destruct (Draft.credit_before_clamp stats minutes); cbn; [|discriminate].
  intros [= <-]. lia.
Qed.

(** On numbers, and for any minutes, a credit in [1, 70] is returned. *)
Lemma credit_bounds_on_numbers (stats : Stats) (minutes : Q) :
  numeric stats ->
  exists c, Draft.calculate_player_credit stats minutes = Ok c /\ (1 <= c <= 70)%Z.
Proof.
  intros Hn.
  assert (exists c, Draft.calculate_player_credit stats minutes = Ok c) as [c Hc].
  { unfold Draft.calculate_player_credit, Draft.credit_before_clamp.
    destruct (stats_empty stats); [eauto|].
    destruct (minutes <? 10); [eauto|].
    destruct (composite_score_defined stats Hn) as [score ->]. cbn. eauto. }
  exists c. split; [exact Hc | exact (credit_in_range _ _ _ Hc)].
Qed.

(** The cascading [if/elif] computes the band table. *)
Lemma tier_credit_spec (score : Q) : Draft.tier_credit score == tier_spec score.
Proof.
  unfold Draft.tier_credit, tier_spec, tier_bands, List.find.
  repeat match goal with
  | |- context [if ?b <=? score then _ else _] => destruct (b <=? score) eqn:?
  end; try lra.
  - unfold Num.min.
    destruct ((score - 55) * 1.5 <? 20) eqn:E1;
      destruct (50 + 1.5 * (score - 55) <? 70) eqn:E2;
      try apply ltb_lt in E1; try apply ltb_ge in E1;
      try apply ltb_lt in E2; try apply ltb_ge in E2; lra.
  - unfold Num.max.
    rewrite (ltb_compat 1 1 (score * 0.4) (0.4 * score)) by lra.
    destruct (1 <? 0.4 * score); lra.
Qed.

Lemma minutes_adjust_spec (minutes credit : Q) :
  Draft.minutes_adjust minutes credit == credit * minutes_multiplier minutes.
Proof.
  unfold Draft.minutes_adjust, minutes_multiplier.
  destruct (minutes <? 28); lra.
Qed.

End DraftFacts.

(** ** The claims about the credit *)

(** C4 (defect in the code). The claim asks for an integer in [1, 70] on
    every stats mapping. A mapping in which ['ft_percentage'] is [None], as
    the data layer stores it for a player without free-throw attempts, makes
    [calculate_player_credit] raise [TypeError] at [ft_pct > 0] once the
    player has at least 10 minutes: no credit is returned. On mappings that
    hold only numbers the bound is [credit_bounds_on_numbers]. *)
Theorem credit_raises_on_none_percentage :
  Draft.calculate_player_credit stats_without_free_throws 14.5 = Raise TypeError.
Proof. vm_compute. reflexivity. Qed.

(** C5. With fewer than 10 minutes the credit is exactly 1. With at least 10
    minutes and a non-empty stats mapping, the credit before the final clamp
    is the six-band tier function of the composite score times the minutes
    multiplier ([0.6 + (minutes/28) * 0.4] below 28 minutes, else 1), and the
    returned credit is that value rounded and clamped to [1, 70]. *)
Theorem credit_follows_tier_function (stats : Stats) (minutes : Q) :
  (minutes < 10 -> Draft.calculate_player_credit stats minutes = Ok 1%Z) /\
  (stats <> ∅ -> 10 <= minutes ->
   forall score, Draft.composite_score stats = Ok score ->
   exists credit,
     Draft.credit_before_clamp stats minutes = Ok credit /\
     credit == tier_spec score * minutes_multiplier minutes /\
     Draft.calculate_player_credit stats minutes
       = Ok (Z.max 1 (Z.min 70 (Num.round credit)))).
Proof.
  split.
  - intros Hm. apply ltb_lt in Hm. unfold Draft.calculate_player_credit.
    rewrite Hm. destruct (stats_empty stats); reflexivity.
  - intros Hne Hm score Hs.
    exists (Draft.minutes_adjust minutes (Draft.tier_credit score)).
    assert (Draft.credit_before_clamp stats minutes
            = Ok (Draft.minutes_adjust minutes (Draft.tier_credit score))) as Hc.
    { unfold Draft.credit_before_clamp. rewrite Hs. reflexivity. }
    split; [exact Hc|]. split.
    + rewrite minutes_adjust_spec, tier_credit_spec. reflexivity.
    + unfold Draft.calculate_player_credit, stats_empty.
      rewrite bool_decide_eq_false_2 by exact Hne.
      apply ltb_ge in Hm. rewrite Hm, Hc. reflexivity.
Qed.

Lemma credit_follows_tier_function_witness :
  exists credit,
    Draft.credit_before_clamp starter_stats 21 = Ok credit /\
    credit == tier_spec 42.1000000 * minutes_multiplier 21 /\
    Draft.calculate_player_credit starter_stats 21
      = Ok (Z.max 1 (Z.min 70 (Num.round credit))).
Proof.
  apply (proj2 (credit_follows_tier_function starter_stats 21)).
  - intros H. apply (f_equal (fun m : Stats => m !! "points")) in H.
    vm_compute in H. discriminate H.
  - unfold Qle. simpl. lia.
  - vm_compute. reflexivity.
Defined.

(* ===================================================================== *)
(** * simulation.py: team aggregation *)

Section TeamFacts.

Import Simulation.

Lemma total_nil {A : Type} (f : A -> Q) : total f [] = 0.
Proof. reflexivity. Qed.

Lemma total_cons {A : Type} (f : A -> Q) (x : A) (l : list A) :
  total f (x :: l) = f x + total f l.
Proof. reflexivity. Qed.

Lemma total_app {A : Type} (f : A -> Q) (l1 l2 : list A) :
  total f (l1 ++ l2) == total f l1 + total f l2.
Proof.
  induction l1 as [|x l1 IH].
  - rewrite app_nil_l, total_nil. lra.
  - rewrite <- app_comm_cons, !total_cons, IH. lra.
Qed.

Lemma total_nonneg {A : Type} (f : A -> Q) (l : list A) :
  (forall x, x ∈ l -> 0 <= f x) -> 0 <= total f l.
Proof.
  induction l as [|x l IH]; intros H.
  - rewrite total_nil. lra.
  - rewrite total_cons.
    assert (0 <= f x) by (apply H; left).
    assert (0 <= total f l) by (apply IH; intros y Hy; apply H; right; exact Hy).
    lra.
Qed.

Lemma upd_same {V : Type} (m : Category -> V) (c : Category) (v : V) :
  upd m c v c = v.
Proof. unfold upd. rewrite decide_True; reflexivity. Qed.

Lemma upd_other {V : Type} (m : Category -> V) (c c' : Category) (v : V) :
  c' <> c -> upd m c v c' = m c'.
Proof. intros H. unfold upd. rewrite decide_False; [reflexivity | exact H]. Qed.

(** The counting loop adds the player's value to each listed stat and leaves
    the other keys alone. *)
Lemma add_counting (f : Category -> Q) (l : list Category) (tp : Category -> Q)
    (c : Category) :
  NoDup l ->
  fold_left (fun tp stat => upd tp stat (tp stat + f stat)) l tp c
  = if decide (c ∈ l) then tp c + f c else tp c.
Proof.
  revert tp. induction l as [|x l IH]; intros tp Hnd; cbn.
  - rewrite decide_False; [reflexivity | apply not_elem_of_nil].
  - apply NoDup_cons in Hnd as [Hx Hnd]. rewrite IH by exact Hnd.
    destruct (decide (c = x)) as [->|Hne].
    + rewrite (decide_False (P := x ∈ l)) by exact Hx.
      rewrite decide_True by left. apply upd_same.
    + rewrite upd_other by exact Hne.
      destruct (decide (c ∈ l)) as [Hin|Hin].
      * rewrite decide_True by (right; exact Hin). reflexivity.
      * rewrite decide_False; [reflexivity|].
        intros [?|?]%elem_of_cons; contradiction.
Qed.

Lemma NoDup_counting_stats : NoDup counting_stats.
Proof. apply NoDup_ListNoDup. repeat constructor; cbn; intuition discriminate. Qed.

Lemma shooters_nil rate attempts : shooters rate attempts [] = [].
Proof. reflexivity. Qed.

Lemma shooters_cons rate attempts pp l :
  shooters rate attempts (pp :: l)
  = if counts rate attempts pp then pp :: shooters rate attempts l
    else shooters rate attempts l.
Proof.
  unfold shooters. rewrite filter_cons.
  destruct (counts rate attempts pp);
    [rewrite decide_True by reflexivity | rewrite decide_False by discriminate];
    reflexivity.
Qed.

Lemma add_player_projection (acc : TeamAcc) (p : Player) (c : Category) :
  team_projections (add_player acc p) c
  = if decide (c ∈ counting_stats)
    then team_projections acc c + proj (_get_sample_player_projections p) c
    else team_projections acc c.
Proof.
  unfold add_player. cbn [team_projections].
  apply (add_counting (proj (_get_sample_player_projections p))).
  exact NoDup_counting_stats.
Qed.

Lemma add_player_fg (acc : TeamAcc) (p : Player) :
  let pp := _get_sample_player_projections p in
  fg_makes (add_player acc p)
  = (if counts fg_rate proj_fg_attempts pp
     then fg_makes acc + fg_rate pp * proj_fg_attempts pp else fg_makes acc) /\
  fg_attempts (add_player acc p)
  = (if counts fg_rate proj_fg_attempts pp
     then fg_attempts acc + proj_fg_attempts pp else fg_attempts acc).
Proof. split; reflexivity. Qed.

Lemma add_player_ft (acc : TeamAcc) (p : Player) :
  let pp := _get_sample_player_projections p in
  ft_makes (add_player acc p)
  = (if counts ft_rate proj_ft_attempts pp
     then ft_makes acc + ft_rate pp * proj_ft_attempts pp else ft_makes acc) /\
  ft_attempts (add_player acc p)
  = (if counts ft_rate proj_ft_attempts pp
     then ft_attempts acc + proj_ft_attempts pp else ft_attempts acc).
Proof. split; reflexivity. Qed.

(** State of the accumulators after [for player in roster]. *)
Lemma fold_add_player (roster : list Player) (acc : TeamAcc) :
  let acc' := fold_left add_player roster acc in
  let pps := map _get_sample_player_projections roster in
  (forall c, team_projections acc' c
     == if decide (c ∈ counting_stats)
        then team_projections acc c + total (fun pp => proj pp c) pps
        else team_projections acc c) /\
  fg_makes acc' == fg_makes acc
     + total (fun pp => fg_rate pp * proj_fg_attempts pp)
         (shooters fg_rate proj_fg_attempts pps) /\
  fg_attempts acc' == fg_attempts acc
     + total proj_fg_attempts (shooters fg_rate proj_fg_attempts pps) /\
  ft_makes acc' == ft_makes acc
     + total (fun pp => ft_rate pp * proj_ft_attempts pp)
         (shooters ft_rate proj_ft_attempts pps) /\
  ft_attempts acc' == ft_attempts acc
     + total proj_ft_attempts (shooters ft_rate proj_ft_attempts pps).
Proof.
  revert acc. induction roster as [|p roster IH]; intros acc.
  - cbn [fold_left map]. rewrite !shooters_nil, !total_nil.
    repeat split; try lra. intros c. rewrite total_nil. destruct (decide _); lra.
  - cbn [fold_left map]. cbv zeta in IH |- *.
    destruct (IH (add_player acc p)) as (Htp & Hfm & Hfa & Htm & Hta).
    destruct (add_player_fg acc p) as [Efm Efa].
    destruct (add_player_ft acc p) as [Etm Eta].
    rewrite !shooters_cons.
    repeat split.
    + intros c. rewrite Htp, add_player_projection, total_cons.
      destruct (decide (c ∈ counting_stats)); [lra | reflexivity].
    + rewrite Hfm, Efm.
      destruct (counts fg_rate proj_fg_attempts _); rewrite ?total_cons; lra.
    + rewrite Hfa, Efa.
      destruct (counts fg_rate proj_fg_attempts _); rewrite ?total_cons; lra.
    + rewrite Htm, Etm.
      destruct (counts ft_rate proj_ft_attempts _); rewrite ?total_cons; lra.
    + rewrite Hta, Eta.
      destruct (counts ft_rate proj_ft_attempts _); rewrite ?total_cons; lra.
Qed.

Lemma shooters_attempts_nonneg rate attempts l :
  0 <= total attempts (shooters rate attempts l).
Proof.
  apply total_nonneg. intros pp Hpp.
  apply list_elem_of_filter in Hpp as [Hc _].
  unfold counts in Hc. apply andb_true_iff in Hc as [_ Hc].
  apply ltb_lt in Hc. lra.
Qed.

(** The guarded division at the end of [_get_team_projections] against the
    reference ratio. *)
Lemma guarded_ratio (makes attempts_sum makes' attempts' : Q) :
  makes == makes' -> attempts_sum == attempts' -> 0 <= attempts' ->
  (if 0 <? attempts_sum then makes / attempts_sum else 0)
  == (if attempts' =? 0 then 0 else makes' / attempts').
Proof.
  intros Hm Ha Hnn.
  destruct (0 <? attempts_sum) eqn:E1; destruct (attempts' =? 0) eqn:E2.
  - apply ltb_lt in E1. apply eqb_eq in E2. lra.
  - apply Qdiv_comp; assumption.
  - reflexivity.
  - apply ltb_ge in E1. apply eqb_neq in E2. exfalso. apply E2. lra.
Qed.

Lemma fg_not_counting : fg_percentage ∉ counting_stats.
Proof.
  intros H. unfold counting_stats in H.
  repeat (apply elem_of_cons in H as [H|H]; [discriminate H|]).
  exact (not_elem_of_nil _ H).
Qed.

Lemma ft_not_counting : ft_percentage ∉ counting_stats.
Proof.
  intros H. unfold counting_stats in H.
  repeat (apply elem_of_cons in H as [H|H]; [discriminate H|]).
  exact (not_elem_of_nil _ H).
Qed.

(** Team FG% and FT% are weighted makes over weighted attempts. *)
Lemma team_ratio (roster : list Player) :
  _get_team_projections roster fg_percentage
    == ratio_spec fg_rate proj_fg_attempts roster /\
  _get_team_projections roster ft_percentage
    == ratio_spec ft_rate proj_ft_attempts roster.
Proof.
  destruct (fold_add_player roster team_acc0) as (Htp & Hfm & Hfa & Htm & Hta).
  cbv zeta in Htp, Hfm, Hfa, Htm, Hta.
  unfold _get_team_projections, ratio_spec. cbv zeta.
  set (acc := fold_left add_player roster team_acc0) in *.
  set (pps := map _get_sample_player_projections roster) in *.
  change (fg_makes team_acc0) with 0 in Hfm.
  change (fg_attempts team_acc0) with 0 in Hfa.
  change (ft_makes team_acc0) with 0 in Htm.
  change (ft_attempts team_acc0) with 0 in Hta.
  pose proof (Htp fg_percentage) as Hfg.
  pose proof (Htp ft_percentage) as Hft.
  rewrite decide_False in Hfg by exact fg_not_counting.
  rewrite decide_False in Hft by exact ft_not_counting.
  change (team_projections team_acc0 fg_percentage) with 0 in Hfg.
  change (team_projections team_acc0 ft_percentage) with 0 in Hft.
  pose proof (shooters_attempts_nonneg fg_rate proj_fg_attempts pps) as Nfg.
  pose proof (shooters_attempts_nonneg ft_rate proj_ft_attempts pps) as Nft.
  pose proof (guarded_ratio (fg_makes acc) (fg_attempts acc) _ _
                ltac:(rewrite Hfm; apply Qplus_0_l)
                ltac:(rewrite Hfa; apply Qplus_0_l) Nfg) as Gfg.
  pose proof (guarded_ratio (ft_makes acc) (ft_attempts acc) _ _
                ltac:(rewrite Htm; apply Qplus_0_l)
                ltac:(rewrite Hta; apply Qplus_0_l) Nft) as Gft.
  split.
  - rewrite <- Gfg.
    destruct (0 <? fg_attempts acc); destruct (0 <? ft_attempts acc);
      rewrite ?(upd_other _ ft_percentage fg_percentage) by discriminate;
      rewrite ?upd_same; try reflexivity; exact Hfg.
  - rewrite <- Gft.
    destruct (0 <? fg_attempts acc); destruct (0 <? ft_attempts acc);
      rewrite ?upd_same;
      rewrite ?(upd_other _ fg_percentage ft_percentage) by discriminate;
      try reflexivity; exact Hft.
Qed.

(** Team counting stats are the sums of the players' projected values. *)
Lemma team_counting (roster : list Player) (c : Category) :
  c ∈ counting_stats ->
  _get_team_projections roster c
  == total (fun pp => proj pp c) (map _get_sample_player_projections roster).
Proof.
  intros Hc.
  destruct (fold_add_player roster team_acc0) as (Htp & _).
  cbv zeta in Htp. specialize (Htp c). rewrite decide_True in Htp by exact Hc.
  change (team_projections team_acc0 c) with 0 in Htp.
  unfold _get_team_projections. cbv zeta.
  set (acc := fold_left add_player roster team_acc0) in *.
  assert (c <> fg_percentage) by (intros ->; exact (fg_not_counting Hc)).
  assert (c <> ft_percentage) by (intros ->; exact (ft_not_counting Hc)).
  destruct (0 <? fg_attempts acc); destruct (0 <? ft_attempts acc);
    rewrite ?(upd_other _ ft_percentage c) by assumption;
    rewrite ?(upd_other _ fg_percentage c) by assumption;
    rewrite Htp; lra.
Qed.

(** A player's projection is the stored number or the documented placeholder,
    and the fixed default line when the stats mapping is empty. *)
Lemma projection_stat_line (p : Player) (c : Category) :
  proj (_get_sample_player_projections p) c == stat_line p c.
Proof.
  unfold _get_sample_player_projections, stat_line.
  destruct (stats_empty (stats p)); [destruct c; reflexivity|].
  cbn [proj]. unfold safe_get, py_get.
  destruct c; cbn [key]; destruct (stats p !! _) as [[v|]|]; reflexivity.
Qed.

(** The attempts of a player's projection are the stored attempts or the
    documented placeholders. *)
Lemma projection_attempts_line (p : Player) :
  proj_fg_attempts (_get_sample_player_projections p) == fg_attempts_line p /\
  proj_ft_attempts (_get_sample_player_projections p) == ft_attempts_line p.
Proof.
  unfold _get_sample_player_projections, fg_attempts_line, ft_attempts_line,
    attempts_line.
  destruct (stats_empty (stats p)); [split; reflexivity|].
  cbn [proj_fg_attempts proj_ft_attempts]. unfold safe_get, py_get.
  split; destruct (stats p !! _) as [[v|]|]; reflexivity.
Qed.

(** A sum over the projections that count is the sum over the players that
    count. *)
Lemma shooters_total (rate attempts g : PlayerProjection -> Q)
    (rate' attempts' g' : Player -> Q) (roster : list Player) :
  (forall p, rate (_get_sample_player_projections p) == rate' p) ->
  (forall p, attempts (_get_sample_player_projections p) == attempts' p) ->
  (forall p, g (_get_sample_player_projections p) == g' p) ->
  total g (shooters rate attempts (map _get_sample_player_projections roster))
  == total g'
       (filter (fun p => (0 <? rate' p) && (0 <? attempts' p) = true) roster).
Proof.
  intros Hr Ha Hg. induction roster as [|p roster IH]; [reflexivity|].
  cbn [map]. rewrite shooters_cons, filter_cons. unfold counts.
  rewrite (ltb_compat 0 0 _ _ (Qeq_refl 0) (Hr p)),
    (ltb_compat 0 0 _ _ (Qeq_refl 0) (Ha p)).
  destruct (decide ((0 <? rate' p) && (0 <? attempts' p) = true)) as [E|E].
  - rewrite E, !total_cons, IH, Hg. reflexivity.
  - apply not_true_is_false in E. rewrite E. exact IH.
Qed.

(** The weighted ratio of the projections is the weighted ratio of the
    players' lines. *)
Lemma ratio_spec_line (rate attempts : PlayerProjection -> Q)
    (rate' attempts' : Player -> Q) (roster : list Player) :
  (forall p, rate (_get_sample_player_projections p) == rate' p) ->
  (forall p, attempts (_get_sample_player_projections p) == attempts' p) ->
  ratio_spec rate attempts roster == line_ratio rate' attempts' roster.
Proof.
  intros Hr Ha. unfold ratio_spec, line_ratio. cbv zeta.
  pose proof (shooters_total rate attempts attempts rate' attempts' attempts'
                roster Hr Ha Ha) as Hatt.
  pose proof (shooters_total rate attempts (fun pp => rate pp * attempts pp)
                rate' attempts' (fun p => rate' p * attempts' p) roster Hr Ha
                ltac:(intros p; apply Qmult_comp; [apply Hr | apply Ha])) as Hmk.
  destruct (total attempts' _ =? 0) eqn:E.
  - apply eqb_eq in E. rewrite <- Hatt in E. apply eqb_eq in E. rewrite E.
    reflexivity.
  - apply eqb_neq in E. rewrite <- Hatt in E. apply eqb_neq in E. rewrite E.
    apply Qdiv_comp; assumption.
Qed.

Lemma total_stat_line (roster : list Player) (c : Category) :
  total (fun pp => proj pp c) (map _get_sample_player_projections roster)
  == total (fun p => stat_line p c) roster.
Proof.
  induction roster as [|p roster IH]; [reflexivity|].
  cbn [map]. rewrite !total_cons, IH, projection_stat_line. reflexivity.
Qed.

End TeamFacts.

(** ** The claims about team aggregation *)

(** C3. For every roster the team FG% and FT% are the sum of rate times
    attempts over the sum of attempts, taken over the players whose projected
    rate and attempts are both positive, and 0 when those attempts sum to 0.
    This is not the arithmetic mean of the percentages: a 100% shooter on one
    attempt with a 45% shooter on twenty gives 10/21, while the mean of the
    two percentages is 0.725. *)
Theorem team_percentages_are_weighted :
  (forall roster : list Player,
     Simulation._get_team_projections roster Simulation.fg_percentage
       == ratio_spec fg_rate Simulation.proj_fg_attempts roster /\
     Simulation._get_team_projections roster Simulation.ft_percentage
       == ratio_spec ft_rate Simulation.proj_ft_attempts roster) /\
  Simulation._get_team_projections [hot_hand; volume_shooter]
    Simulation.fg_percentage == 10 # 21 /\
  arithmetic_mean
    (map (fun p => fg_rate (Simulation._get_sample_player_projections p))
         [hot_hand; volume_shooter]) == 0.725 /\
  ~ 10 # 21 == 0.725.
Proof.
  split; [exact team_ratio|].
  split; [vm_compute; reflexivity|].
  split; [vm_compute; reflexivity|].
  vm_compute. discriminate.
Qed.

(** C9, the claim as stated fails: a rostered player whose stats mapping is
    empty is given the invented line of 10 points (and so on), which enters
    the team projection that is then simulated. *)
Lemma empty_stats_player_is_fabricated :
  stats unknown_player = ∅ /\
  Simulation._get_team_projections [unknown_player] Simulation.points == 10 /\
  Simulation._get_team_projections [] Simulation.points == 0 /\
  ~ Simulation._get_team_projections [unknown_player] Simulation.points
    == Simulation._get_team_projections [] Simulation.points.
Proof.
  split; [reflexivity|].
  split; [vm_compute; reflexivity|].
  split; [vm_compute; reflexivity|].
  vm_compute. discriminate.
Qed.

(** C9 as amended. A player with a non-empty stats mapping contributes the
    numbers stored in it, with 0 for a missing counting stat and the
    placeholders 0.45 and 0.75 for a missing FG% and FT%, on the stored
    attempts (10 and 3 when missing); a player with an empty mapping
    contributes the fixed default line: 10 points, 4 rebounds, 3 assists,
    0.8 steals, 0.5 blocks, 1 three-pointer, 1.5 turnovers, 45% shooting on 8
    attempts and 75% on 3. Team counting stats are the sums of these
    contributions, team FG% and FT% their attempt-weighted ratios, and an
    empty roster is not refused: it projects to 0 in every category. *)
Theorem team_projection_sources :
  (forall (p : Player) (c : Simulation.Category),
     Simulation.proj (Simulation._get_sample_player_projections p) c
       == stat_line p c) /\
  (forall p : Player,
     Simulation.proj_fg_attempts (Simulation._get_sample_player_projections p)
       == fg_attempts_line p /\
     Simulation.proj_ft_attempts (Simulation._get_sample_player_projections p)
       == ft_attempts_line p) /\
  (forall p : Player,
     stats p = ∅ ->
     let line := Simulation._get_sample_player_projections p in
     Simulation.proj line Simulation.points == 10 /\
     Simulation.proj line Simulation.rebounds == 4 /\
     Simulation.proj line Simulation.assists == 3 /\
     Simulation.proj line Simulation.steals == 0.8 /\
     Simulation.proj line Simulation.blocks == 0.5 /\
     Simulation.proj line Simulation.three_pointers_made == 1 /\
     Simulation.proj line Simulation.turnovers == 1.5 /\
     Simulation.proj line Simulation.fg_percentage == 0.45 /\
     Simulation.proj line Simulation.ft_percentage == 0.75 /\
     Simulation.proj_fg_attempts line == 8 /\
     Simulation.proj_ft_attempts line == 3) /\
  (forall (roster : list Player) (c : Simulation.Category),
     c ∈ Simulation.counting_stats ->
     Simulation._get_team_projections roster c
       == total (fun p => stat_line p c) roster) /\
  (forall roster : list Player,
     Simulation._get_team_projections roster Simulation.fg_percentage
       == line_ratio (fun p => stat_line p Simulation.fg_percentage)
            fg_attempts_line roster /\
     Simulation._get_team_projections roster Simulation.ft_percentage
       == line_ratio (fun p => stat_line p Simulation.ft_percentage)
            ft_attempts_line roster) /\
  (forall c : Simulation.Category, Simulation._get_team_projections [] c == 0).
Proof.
  split; [exact projection_stat_line|].
  split; [exact projection_attempts_line|].
  split.
  { intros p Hp. cbv zeta.
    unfold Simulation._get_sample_player_projections, stats_empty.
    rewrite bool_decide_eq_true_2 by exact Hp.
    repeat split; reflexivity. }
  split.
  { intros roster c Hc. rewrite team_counting by exact Hc.
    apply total_stat_line. }
  split.
  { intros roster. destruct (team_ratio roster) as [Hfg Hft]. split.
    - rewrite Hfg. apply ratio_spec_line.
      + intros p. apply projection_stat_line.
      + intros p. apply projection_attempts_line.
    - rewrite Hft. apply ratio_spec_line.
      + intros p. apply projection_stat_line.
      + intros p. apply projection_attempts_line. }
  intros c. destruct c; vm_compute; reflexivity.
Qed.

Lemma team_projection_sources_witness :
  Simulation.proj (Simulation._get_sample_player_projections unknown_player)
    Simulation.points == 10 /\
  Simulation._get_team_projections [hot_hand; unknown_player] Simulation.points
    == total (fun p => stat_line p Simulation.points) [hot_hand; unknown_player] /\
  Simulation._get_team_projections [hot_hand; unknown_player]
    Simulation.fg_percentage
    == line_ratio (fun p => stat_line p Simulation.fg_percentage)
         fg_attempts_line [hot_hand; unknown_player].
Proof.
  destruct team_projection_sources as (_ & _ & Hdefault & Hcount & Hratio & _).
  split; [|split].
  - apply (Hdefault unknown_player). reflexivity.
  - apply Hcount. unfold Simulation.counting_stats. left.
  - apply Hratio.
Defined.

(* ===================================================================== *)
(** * simulation.py: the trial loop *)

Section TrialFacts.

Import Simulation.

Lemma NoDup_stat_categories : NoDup stat_categories.
Proof. apply NoDup_ListNoDup. repeat constructor; cbn; intuition discriminate. Qed.

Lemma elem_of_stat_categories (c : Category) : c ∈ stat_categories.
Proof.
  apply list_elem_of_In. destruct c; cbn; tauto.
Qed.

(** The two teams cannot both take the same category. *)
Lemma beats_exclusive (c : Category) (a b : Q) :
  beats c a b = true -> beats c b a = false.
Proof.
  unfold beats. destruct (decide (c = turnovers));
    intros H; apply ltb_lt in H; apply ltb_ge; lra.
Qed.

(** Nobody takes a category on equal values, and only then. *)
Lemma beats_neither (c : Category) (a b : Q) :
  beats c a b = false /\ beats c b a = false <-> a == b.
Proof.
  unfold beats. destruct (decide (c = turnovers)); rewrite !ltb_ge; lra.
Qed.

(** Effect of one category comparison on the counters. *)
Lemma compare_category_effect (mine theirs : Category -> Q) (a : TrialAcc)
    (x : Category) :
  let w := beats x (mine x) (theirs x) in
  let l := beats x (theirs x) (mine x) in
  let a' := compare_category mine theirs a x in
  categories_won a' = (categories_won a + (if w then 1 else 0))%Z /\
  categories_lost a' = (categories_lost a + (if w then 0 else if l then 1 else 0))%Z /\
  wins a' = (if w then incr (wins a) x else wins a) /\
  losses a' = (if w then losses a else if l then incr (losses a) x else losses a) /\
  ties a' = (if w then ties a else if l then ties a else incr (ties a) x).
Proof.
  unfold compare_category, beats. cbv zeta.
  destruct (decide (x = turnovers));
    destruct (mine x <? theirs x); destruct (theirs x <? mine x);
    cbn; repeat split; try reflexivity; lia.
Qed.

Lemma incr_same (m : Category -> Z) (x : Category) : incr m x x = (m x + 1)%Z.
Proof. unfold incr. apply upd_same. Qed.

Lemma incr_other (m : Category -> Z) (x c : Category) :
  c <> x -> incr m x c = m c.
Proof. intros H. unfold incr. apply upd_other. exact H. Qed.

Lemma mem_cons_same (x : Category) (l : list Category) (u v : Z) :
  (if decide (x ∈ x :: l) then u else v) = u.
Proof. rewrite decide_True; [reflexivity | left]. Qed.

Lemma mem_cons_other (c x : Category) (l : list Category) (u v : Z) :
  c <> x ->
  (if decide (c ∈ x :: l) then u else v) = (if decide (c ∈ l) then u else v).
Proof.
  intros Hne. destruct (decide (c ∈ l)) as [Hin|Hin].
  - rewrite decide_True; [reflexivity | right; exact Hin].
  - rewrite decide_False; [reflexivity|].
    intros [?|?]%elem_of_cons; contradiction.
Qed.

(** Counters after the comparisons of the categories in [l]. *)
Lemma compare_fold (mine theirs : Category -> Q) (l : list Category) :
  NoDup l ->
  forall a : TrialAcc,
  let a' := fold_left (compare_category mine theirs) l a in
  categories_won a'
  = (categories_won a
     + Z.of_nat (length (filter (fun c => beats c (mine c) (theirs c) = true) l)))%Z /\
  categories_lost a'
  = (categories_lost a
     + Z.of_nat (length (filter (fun c => beats c (theirs c) (mine c) = true) l)))%Z /\
  (forall c, wins a' c
     = (wins a c + (if decide (c ∈ l)
                    then (if beats c (mine c) (theirs c) then 1 else 0) else 0))%Z) /\
  (forall c, losses a' c
     = (losses a c + (if decide (c ∈ l)
                      then (if beats c (theirs c) (mine c) then 1 else 0) else 0))%Z) /\
  (forall c, ties a' c
     = (ties a c + (if decide (c ∈ l)
                    then (if beats c (mine c) (theirs c) then 0
                          else if beats c (theirs c) (mine c) then 0 else 1)
                    else 0))%Z).
Proof.
  induction l as [|x l IH]; intros Hnd a.
  - cbn [fold_left]. rewrite !filter_nil. cbn [length].
    repeat split; try lia; intros c; rewrite decide_False by apply not_elem_of_nil;
      lia.
  - apply NoDup_cons in Hnd as [Hx Hnd]. cbn [fold_left]. cbv zeta.
    destruct (IH Hnd (compare_category mine theirs a x)) as (Hw & Hl & Hwc & Hlc & Htc).
    destruct (compare_category_effect mine theirs a x) as (Ew & El & Ewc & Elc & Etc).
    cbv zeta in Ew, El, Ewc, Elc, Etc.
    rewrite !filter_cons.
    pose proof (beats_exclusive x (mine x) (theirs x)) as Hex.
    repeat split.
    + rewrite Hw, Ew. destruct (beats x (mine x) (theirs x));
        [rewrite decide_True by reflexivity | rewrite decide_False by discriminate];
        cbn [length]; lia.
    + rewrite Hl, El. destruct (beats x (mine x) (theirs x));
        [rewrite (Hex eq_refl)|]; destruct (beats x (theirs x) (mine x));
        try (rewrite decide_True by reflexivity);
        try (rewrite decide_False by discriminate); cbn [length]; lia.
    + intros c. rewrite Hwc, Ewc. destruct (decide (c = x)) as [->|Hne].
      * rewrite mem_cons_same, (decide_False (P := x ∈ l)) by exact Hx.
        destruct (beats x (mine x) (theirs x)); rewrite ?incr_same;
          try reflexivity; lia.
      * rewrite (mem_cons_other c x) by exact Hne.
        destruct (beats x (mine x) (theirs x)); rewrite ?incr_other by exact Hne;
          lia.
    + intros c. rewrite Hlc, Elc. destruct (decide (c = x)) as [->|Hne].
      * rewrite mem_cons_same, (decide_False (P := x ∈ l)) by exact Hx.
        destruct (beats x (mine x) (theirs x)); [rewrite (Hex eq_refl)|];
          destruct (beats x (theirs x) (mine x)); rewrite ?incr_same;
          try reflexivity; lia.
      * rewrite (mem_cons_other c x) by exact Hne.
        destruct (beats x (mine x) (theirs x));
          destruct (beats x (theirs x) (mine x)); rewrite ?incr_other by exact Hne;
          lia.
    + intros c. rewrite Htc, Etc. destruct (decide (c = x)) as [->|Hne].
      * rewrite mem_cons_same, (decide_False (P := x ∈ l)) by exact Hx.
        destruct (beats x (mine x) (theirs x));
          destruct (beats x (theirs x) (mine x)); rewrite ?incr_same;
          try reflexivity; lia.
      * rewrite (mem_cons_other c x) by exact Hne.
        destruct (beats x (mine x) (theirs x));
          destruct (beats x (theirs x) (mine x)); rewrite ?incr_other by exact Hne;
          lia.
Qed.

(** Effect of one trial on the tally. *)
Lemma tally_trial_effect (sim : nat) (mine theirs : Category -> Q) (t : Tally) :
  let t' := tally_trial sim mine theirs t in
  my_wins t' == my_wins t + trial_credit (mine, theirs) /\
  (forall c, category_wins t' c
     = (category_wins t c + (if beats c (mine c) (theirs c) then 1 else 0))%Z) /\
  (forall c, category_losses t' c
     = (category_losses t c + (if beats c (theirs c) (mine c) then 1 else 0))%Z) /\
  (forall c, category_ties t' c
     = (category_ties t c
        + (if beats c (mine c) (theirs c) then 0
           else if beats c (theirs c) (mine c) then 0 else 1))%Z) /\
  map winner (simulation_details t')
  = map winner (simulation_details t)
    ++ (if (sim <? 100)%nat then [trial_winner (mine, theirs)] else []).
Proof.
  unfold tally_trial, trial_credit, trial_winner. cbv zeta.
  destruct (compare_fold mine theirs stat_categories NoDup_stat_categories
              (mkTrialAcc 0 0 (category_wins t) (category_losses t)
                          (category_ties t) []))
    as (Hw & Hl & Hwc & Hlc & Htc).
  cbv zeta in Hw, Hl, Hwc, Hlc, Htc.
  cbn [categories_won categories_lost wins losses ties] in Hw, Hl, Hwc, Hlc, Htc.
  rewrite Z.add_0_l in Hw, Hl.
  change (Z.of_nat (length (filter (fun c => beats c (mine c) (theirs c) = true)
                              stat_categories)))
    with (categories_taken mine theirs) in Hw.
  change (Z.of_nat (length (filter (fun c => beats c (theirs c) (mine c) = true)
                              stat_categories)))
    with (categories_taken theirs mine) in Hl.
  set (a' := fold_left (compare_category mine theirs) stat_categories _) in *.
  rewrite Hw, Hl. cbn [fst snd].
  assert (forall c (u v : Z), (if decide (c ∈ stat_categories) then u else v) = u)
    as Hin.
  { intros c u v. rewrite decide_True; [reflexivity | apply elem_of_stat_categories]. }
  assert (map winner (simulation_details t)
          = map winner (simulation_details t) ++ []) as Hnil
    by (rewrite app_nil_r; reflexivity).
  destruct (categories_taken theirs mine <? categories_taken mine theirs)%Z;
    [|destruct (categories_taken mine theirs <? categories_taken theirs mine)%Z];
    cbn [my_wins category_wins category_losses category_ties simulation_details
         fst snd];
    (split; [lra|];
     split; [intros c; rewrite Hwc, Hin; reflexivity|];
     split; [intros c; rewrite Hlc, Hin; reflexivity|];
     split; [intros c; rewrite Htc, Hin; reflexivity|];
     destruct (sim <? 100)%nat; [rewrite map_app; reflexivity | exact Hnil]).
Qed.

(** Tally after a list of trials. *)
Lemma tally_all_effect (trials : list Sample) :
  forall (s : nat) (t : Tally),
  let t' := tally_all s trials t in
  my_wins t' == my_wins t + total trial_credit trials /\
  (forall c,
     (category_wins t' c + category_losses t' c + category_ties t' c
      = category_wins t c + category_losses t c + category_ties t c
        + Z.of_nat (length trials))%Z) /\
  map winner (simulation_details t')
  = map winner (simulation_details t) ++ map trial_winner (take (100 - s) trials).
Proof.
  induction trials as [|[mine theirs] rest IH]; intros s t.
  - cbn [tally_all length]. rewrite total_nil, take_nil. cbn [map].
    rewrite app_nil_r. split; [lra|]. split; [intros c; lia | reflexivity].
  - cbn [tally_all fst snd]. cbv zeta in IH |- *.
    destruct (IH (S s) (tally_trial s mine theirs t)) as (Hm & Hc & Hd).
    destruct (tally_trial_effect s mine theirs t) as (Em & Ew & El & Et & Ed).
    cbv zeta in Em, Ew, El, Et, Ed.
    split; [|split].
    + rewrite Hm, Em, total_cons. lra.
    + intros c. rewrite Hc, Ew, El, Et. cbn [length].
      pose proof (beats_exclusive c (mine c) (theirs c)) as Hex.
      destruct (beats c (mine c) (theirs c));
        [rewrite (Hex eq_refl)|]; destruct (beats c (theirs c) (mine c)); lia.
    + rewrite Hd, Ed, <- app_assoc. f_equal.
      destruct (Nat.ltb_spec s 100).
      * assert (100 - s = S (100 - S s))%nat as -> by lia. reflexivity.
      * assert (100 - s = 0)%nat as -> by lia.
        assert (100 - S s = 0)%nat as -> by lia. reflexivity.
Qed.

(** The trial loop draws the samples of [sample_trials] and tallies them. *)
Lemma trial_loop_samples (draws : nat -> Q) (my opp : Category -> Q) (n : nat) :
  forall (s : nat) (t : Tally) (k : nat) (t' : Tally) (k' : nat),
  for_each (trial draws my opp) (seq s n) (t, k) = Ok (t', k') ->
  exists trials,
    sample_trials draws my opp n k = Ok (trials, k') /\
    length trials = n /\
    t' = tally_all s trials t.
Proof.
  induction n as [|n IH]; intros s t k t' k' H.
  - cbn in H. injection H as <- <-. exists []. repeat split.
  - cbn [seq for_each] in H. cbn [sample_trials].
    unfold trial at 2 in H. cbn [mbind res_bind] in *.
    unfold mbind, res_bind in *.
    destruct (_simulate_team_performance draws my k) as [[mine k1]|e]; [|discriminate H].
    destruct (_simulate_team_performance draws opp k1) as [[theirs k2]|e];
      [|discriminate H].
    apply IH in H as (trials & -> & <- & ->).
    exists ((mine, theirs) :: trials). repeat split.
Qed.

Lemma divide_ok (a : Q) (n : nat) (q : Q) :
  divide a n = Ok q -> n <> 0%nat /\ q = a / inject_Z (Z.of_nat n).
Proof.
  destruct n; cbn; [discriminate|]. intros [= <-]. split; [discriminate | reflexivity].
Qed.

(** The loop that fills [category_breakdown] stores one report per key. *)
Lemma breakdown_loop {V : Type} (f : Category -> Res V) (l : list Category) :
  NoDup l ->
  forall b0 b : Category -> V,
  for_each (fun breakdown category => r ← f category; Ok (upd breakdown category r))
           l b0 = Ok b ->
  forall c, if decide (c ∈ l) then f c = Ok (b c) else b c = b0 c.
Proof.
  induction l as [|x l IH]; intros Hnd b0 b H c.
  - cbn in H. injection H as <-.
    rewrite decide_False by apply not_elem_of_nil. reflexivity.
  - apply NoDup_cons in Hnd as [Hx Hnd]. cbn [for_each] in H.
    unfold mbind, res_bind in H. destruct (f x) as [r|e] eqn:Ex; [|discriminate H].
    pose proof (IH Hnd _ _ H) as Hc.
    destruct (decide (c = x)) as [->|Hne].
    + rewrite decide_True by left. specialize (Hc x).
      rewrite decide_False in Hc by exact Hx. rewrite Hc, upd_same. exact Ex.
    + specialize (Hc c). destruct (decide (c ∈ l)) as [Hin|Hin].
      * rewrite decide_True by (right; exact Hin). exact Hc.
      * rewrite decide_False by (intros [?|?]%elem_of_cons; contradiction).
        rewrite Hc. apply upd_other. exact Hne.
Qed.

(** What a returned report was computed from. *)
Lemma run_report (N : nat) (draws : nat -> Q) (k0 : nat) (my opp : Category -> Q)
    (r : SimulationResults) (k : nat) :
  _run_simulations N draws k0 my opp = Ok (r, k) ->
  exists trials,
    sample_trials draws my opp N k0 = Ok (trials, k) /\
    length trials = N /\
    N <> 0%nat /\
    win_probability r
    = Num.round_n (my_wins (tally_all 0 trials tally0)
                   / inject_Z (Z.of_nat N) * 100) 1 /\
    (forall c, category_report N (tally_all 0 trials tally0) c
               = Ok (category_breakdown r c)) /\
    details r = simulation_details (tally_all 0 trials tally0) /\
    expected_categories_won r
    = count_categories (fun data => 50 <? win_pct data) (category_breakdown r) /\
    expected_categories_lost r
    = count_categories (fun data => win_pct data <? 50) (category_breakdown r) /\
    expected_categories_tied r
    = count_categories (fun data => win_pct data =? 50) (category_breakdown r).
Proof.
  unfold _run_simulations. unfold mbind at 1, res_bind at 1.
  destruct (for_each (trial draws my opp) (seq 0 N) (tally0, k0)) as [[t k1]|e] eqn:El;
    [|discriminate].
  apply trial_loop_samples in El as (trials & Hs & Hlen & ->).
  unfold mbind at 1, res_bind at 1.
  destruct (divide _ N) as [p|e] eqn:Ed; [|discriminate].
  apply divide_ok in Ed as [HN ->].
  unfold mbind at 1, res_bind at 1.
  destruct (for_each _ stat_categories _) as [b|e] eqn:Eb; [|discriminate].
  intros [= <- <-]. exists trials. cbn.
  repeat split; try assumption.
  intros c.
  pose proof (breakdown_loop _ _ NoDup_stat_categories _ _ Eb c) as Hc.
  rewrite decide_True in Hc by apply elem_of_stat_categories. exact Hc.
Qed.

(** A category report rounds the three shares of the trial count. *)
Lemma category_report_ok (N : nat) (t : Tally) (c : Category) (rep : CategoryReport) :
  category_report N t c = Ok rep ->
  let n := inject_Z (Z.of_nat N) in
  let share (count : Z) := inject_Z count / n * 100 in
  win_pct rep = Num.round_n (share (category_wins t c)) 1 /\
  loss_pct rep = Num.round_n (share (category_losses t c)) 1 /\
  tie_pct rep = Num.round_n (share (category_ties t c)) 1 /\
  strength rep
  = (if 60 <? share (category_wins t c) then "strong"%string
     else if share (category_wins t c) <? 40 then "weak"%string
     else "even"%string).
Proof.
  unfold category_report. destruct N; [discriminate|]. cbn.
  intros [= <-]. cbn. repeat split.
Qed.

Lemma beats_takes (c : Category) (a b : Q) : beats c a b = true <-> takes c a b.
Proof.
  unfold beats, takes. destruct (decide (c = turnovers)); apply ltb_lt.
Qed.

Lemma takes_cases (c : Category) (a b : Q) : takes c a b \/ takes c b a \/ a == b.
Proof.
  unfold takes. destruct (decide (c = turnovers));
    destruct (Q_dec a b) as [[?|?]|?]; auto.
Qed.

(** Three shares of a positive count that partition it sum to 100. *)
Lemma shares_sum (w l t : Z) (N : nat) :
  N <> 0%nat -> (w + l + t = Z.of_nat N)%Z ->
  let n := inject_Z (Z.of_nat N) in
  inject_Z w / n * 100 + inject_Z l / n * 100 + inject_Z t / n * 100 == 100.
Proof.
  intros HN Hsum n.
  assert (~ n == 0) as Hn.
  { unfold n. intros H. apply (inject_Z_injective (Z.of_nat N) 0) in H. lia. }
  assert (inject_Z w + inject_Z l + inject_Z t == n) as Hq.
  { unfold n. rewrite <- Hsum, !inject_Z_plus. reflexivity. }
  assert (inject_Z w / n * 100 + inject_Z l / n * 100 + inject_Z t / n * 100
          == (inject_Z w + inject_Z l + inject_Z t) / n * 100) as ->
    by (field; exact Hn).
  rewrite Hq. field. exact Hn.
Qed.

Lemma for_each_cons {A S : Type} (body : S -> A -> Res S) (x : A) (l : list A)
    (acc : S) :
  for_each body (x :: l) acc
  = match body acc x with
    | Ok acc' => for_each body l acc'
    | Raise e => Raise e
    end.
Proof. reflexivity. Qed.

Lemma trial_step (draws : nat -> Q) (my opp : Category -> Q) (t : Tally)
    (k sim : nat) :
  trial draws my opp (t, k) sim
  = match _simulate_team_performance draws my k with
    | Ok (mine, k1) =>
        match _simulate_team_performance draws opp k1 with
        | Ok (theirs, k2) => Ok (tally_trial sim mine theirs t, k2)
        | Raise e => Raise e
        end
    | Raise e => Raise e
    end.
Proof. reflexivity. Qed.

(** Conversely, once the samples can be drawn the loop runs to its end. *)
Lemma trial_loop_complete (draws : nat -> Q) (my opp : Category -> Q) (n : nat) :
  forall (s : nat) (t : Tally) (k : nat) (trials : list Sample) (k' : nat),
  sample_trials draws my opp n k = Ok (trials, k') ->
  for_each (trial draws my opp) (seq s n) (t, k) = Ok (tally_all s trials t, k').
Proof.
  induction n as [|n IH]; intros s t k trials k' H.
  - cbn in H. injection H as <- <-. reflexivity.
  - cbn [sample_trials] in H. cbn [seq]. rewrite for_each_cons, trial_step.
    unfold mbind, res_bind in H.
    destruct (_simulate_team_performance draws my k) as [[mine k1]|e]; [|discriminate H].
    destruct (_simulate_team_performance draws opp k1) as [[theirs k2]|e];
      [|discriminate H].
    destruct (sample_trials draws my opp n k2) as [[rest k3]|e] eqn:Er;
      [|discriminate H].
    injection H as <- <-. exact (IH (S s) _ _ _ _ Er).
Qed.

Lemma category_report_defined (N : nat) (t : Tally) (c : Category) :
  N <> 0%nat -> exists rep, category_report N t c = Ok rep.
Proof.
  intros HN. unfold category_report. destruct N; [contradiction|]. cbn. eauto.
Qed.

Lemma breakdown_defined {V : Type} (f : Category -> Res V) (l : list Category) :
  (forall c, exists v, f c = Ok v) ->
  forall b0, exists b,
    for_each (fun breakdown category => r ← f category; Ok (upd breakdown category r))
             l b0 = Ok b.
Proof.
  intros Hf. induction l as [|x l IH]; intros b0; cbn [for_each].
  - eauto.
  - destruct (Hf x) as [v ->]. cbn. apply IH.
Qed.

(** With at least one trial, a report is returned as soon as every sample can
    be drawn. *)
Lemma run_defined (N : nat) (draws : nat -> Q) (k0 : nat) (my opp : Category -> Q)
    (trials : list Sample) (k : nat) :
  N <> 0%nat ->
  sample_trials draws my opp N k0 = Ok (trials, k) ->
  exists r, _run_simulations N draws k0 my opp = Ok (r, k).
Proof.
  intros HN Hs. unfold _run_simulations.
  rewrite (trial_loop_complete _ _ _ _ 0%nat tally0 _ _ _ Hs). cbn [mbind res_bind].
  unfold mbind at 1, res_bind at 1.
  destruct N as [|n]; [contradiction|]. cbn [divide].
  destruct (breakdown_defined
              (category_report (S n) (tally_all 0 trials tally0)) stat_categories
              (fun c => category_report_defined (S n) _ c HN)
              (fun _ => mkCategoryReport 0 0 0 "")) as [b Hb].
  unfold mbind at 1, res_bind at 1. rewrite Hb. eauto.
Qed.

(** ** Totality on non-negative projections *)

Lemma volatility_positive (c : Category) : 0 < stat_volatility c.
Proof. destruct c; reflexivity. Qed.

Lemma simulate_stat_defined (draws : nat -> Q) (stat : Category) (projection : Q)
    (k : nat) :
  0 <= projection -> exists v k', simulate_stat draws stat projection k = Ok (v, k').
Proof.
  intros Hp. unfold simulate_stat, normal.
  destruct (projection =? 0); [eauto|].
  assert ((projection * stat_volatility stat <? 0) = false) as ->.
  { apply ltb_ge. pose proof (volatility_positive stat).
    apply Qmult_le_0_compat; lra. }
  destruct (bool_decide _); cbn; eauto.
Qed.

Lemma simulate_team_defined (draws : nat -> Q) (projections : Category -> Q)
    (k : nat) :
  (forall c, 0 <= projections c) ->
  exists s k', _simulate_team_performance draws projections k = Ok (s, k').
Proof.
  intros Hp. unfold _simulate_team_performance.
  generalize (fun _ : Category => 0) as s0. revert k.
  induction stat_categories as [|x l IH]; intros k s0; cbn [for_each].
  - eauto.
  - destruct (simulate_stat_defined draws x (projections x) k (Hp x)) as (v & k' & ->).
    cbn. apply IH.
Qed.

Lemma sample_trials_defined (draws : nat -> Q) (my opp : Category -> Q) (n : nat) :
  (forall c, 0 <= my c) -> (forall c, 0 <= opp c) ->
  forall k, exists trials k', sample_trials draws my opp n k = Ok (trials, k').
Proof.
  intros Hmy Hopp. induction n as [|n IH]; intros k; cbn [sample_trials].
  - eauto.
  - destruct (simulate_team_defined draws my k Hmy) as (m & k1 & ->).
    unfold mbind at 1, res_bind at 1. cbv beta iota.
    destruct (simulate_team_defined draws opp k1 Hopp) as (o & k2 & ->).
    unfold mbind at 1, res_bind at 1. cbv beta iota.
    destruct (IH k2) as (rest & k3 & ->). cbn. eauto.
Qed.

(** With at least one trial and non-negative projections a report is always
    returned. *)
Lemma run_returns (N : nat) (draws : nat -> Q) (k0 : nat) (my opp : Category -> Q) :
  N <> 0%nat -> (forall c, 0 <= my c) -> (forall c, 0 <= opp c) ->
  exists r k, _run_simulations N draws k0 my opp = Ok (r, k).
Proof.
  intros HN Hmy Hopp.
  destruct (sample_trials_defined draws my opp N Hmy Hopp k0) as (trials & k & Hs).
  destruct (run_defined N draws k0 my opp trials k HN Hs) as [r Hr]. eauto.
Qed.

(** ** Empty rosters *)

Lemma empty_roster_projection : _get_team_projections [] = zero_projection.
Proof. reflexivity. Qed.

Lemma zero_sample_drawn (draws : nat -> Q) (k : nat) :
  _simulate_team_performance draws zero_projection k = Ok (zero_sample, k).
Proof. reflexivity. Qed.

Lemma zero_sample_zero (c : Category) : zero_sample c = 0.
Proof. destruct c; reflexivity. Qed.

Lemma sample_zero_trials (draws : nat -> Q) (n k : nat) :
  sample_trials draws zero_projection zero_projection n k
  = Ok (repeat (zero_sample, zero_sample) n, k).
Proof.
  induction n as [|n IH]; [reflexivity|].
  cbn [sample_trials repeat]. unfold mbind, res_bind.
  rewrite zero_sample_drawn. cbv beta iota.
  rewrite zero_sample_drawn. cbv beta iota. rewrite IH. reflexivity.
Qed.

(** Trials in which both teams sample the same values are all ties. *)
Lemma even_trial_credit (a : Category -> Q) : trial_credit (a, a) = 1 # 2.
Proof.
  unfold trial_credit. cbn [fst snd]. rewrite Z.ltb_irrefl. reflexivity.
Qed.

Lemma even_trials_tally (a : Category -> Q) (n : nat) :
  forall (s : nat) (t : Tally),
  let t' := tally_all s (repeat (a, a) n) t in
  my_wins t' == my_wins t + inject_Z (Z.of_nat n) * (1 # 2) /\
  (forall c, category_wins t' c = category_wins t c) /\
  (forall c, category_losses t' c = category_losses t c) /\
  (forall c, category_ties t' c = (category_ties t c + Z.of_nat n)%Z).
Proof.
  induction n as [|n IH]; intros s t.
  - cbn [repeat tally_all]. change (inject_Z (Z.of_nat 0)) with 0.
    split; [lra|]. repeat split; intros c; lia.
  - cbn [repeat tally_all fst snd]. cbv zeta in IH |- *.
    destruct (IH (S s) (tally_trial s a a t)) as (Hm & Hw & Hl & Ht).
    destruct (tally_trial_effect s a a t) as (Em & Ew & El & Et & _).
    cbv zeta in Em, Ew, El, Et. rewrite even_trial_credit in Em.
    assert (forall c, beats c (a c) (a c) = false) as Hb.
    { intros c. apply (proj2 (beats_neither c (a c) (a c))). reflexivity. }
    split; [|split; [|split]].
    + rewrite Hm, Em, Nat2Z.inj_succ, <- Z.add_1_r, inject_Z_plus.
      change (inject_Z 1) with 1. lra.
    + intros c. rewrite Hw, Ew, Hb. lia.
    + intros c. rewrite Hl, El, Hb. lia.
    + intros c. rewrite Ht, Et, Hb. lia.
Qed.

Lemma count_categories_none (test : CategoryReport -> bool)
    (b : Category -> CategoryReport) :
  (forall c, test (b c) = false) -> count_categories test b = 0%nat.
Proof.
  intros H. unfold count_categories, stat_categories.
  repeat (rewrite filter_cons, decide_False by (rewrite H; discriminate)).
  reflexivity.
Qed.

Lemma count_categories_all (test : CategoryReport -> bool)
    (b : Category -> CategoryReport) :
  (forall c, test (b c) = true) -> count_categories test b = 9%nat.
Proof.
  intros H. unfold count_categories, stat_categories.
  repeat (rewrite filter_cons, decide_True by (rewrite H; reflexivity)).
  reflexivity.
Qed.

End TrialFacts.

(** ** The claims about the trial loop *)

(** C1. In every trial and for each of the nine categories exactly one of the
    three cases holds (I take the category, the opponent takes it, the values
    are equal), where a category is taken with the lower value for turnovers
    and the higher value otherwise; the matching counter of that category
    grows by one and the other two keep their value. Consequently, in every
    report the rounded win, loss and tie percentages of a category sum to 100
    up to the three roundings (0.05 each). *)
Theorem every_category_counted_once :
  (forall (sim : nat) (mine theirs : Simulation.Category -> Q)
          (t : Simulation.Tally) (c : Simulation.Category),
     let t' := Simulation.tally_trial sim mine theirs t in
     let same (counter : Simulation.Tally -> Simulation.Category -> Z) :=
       counter t' c = counter t c in
     let bumped (counter : Simulation.Tally -> Simulation.Category -> Z) :=
       counter t' c = (counter t c + 1)%Z in
     (takes c (mine c) (theirs c) \/ takes c (theirs c) (mine c)
      \/ mine c == theirs c) /\
     (takes c (mine c) (theirs c) ->
      bumped Simulation.category_wins /\ same Simulation.category_losses
      /\ same Simulation.category_ties) /\
     (takes c (theirs c) (mine c) ->
      same Simulation.category_wins /\ bumped Simulation.category_losses
      /\ same Simulation.category_ties) /\
     (mine c == theirs c ->
      same Simulation.category_wins /\ same Simulation.category_losses
      /\ bumped Simulation.category_ties)) /\
  (forall (N : nat) (draws : nat -> Q) (k0 : nat)
          (my opp : Simulation.Category -> Q)
          (r : Simulation.SimulationResults) (k : nat),
     Simulation._run_simulations N draws k0 my opp = Ok (r, k) ->
     forall c : Simulation.Category,
       let rep := Simulation.category_breakdown r c in
       100 - (3 # 20)
       <= Simulation.win_pct rep + Simulation.loss_pct rep + Simulation.tie_pct rep
       /\ Simulation.win_pct rep + Simulation.loss_pct rep + Simulation.tie_pct rep
          <= 100 + (3 # 20)).
Proof.
  split.
  - intros sim mine theirs t c. cbv zeta.
    destruct (tally_trial_effect sim mine theirs t) as (_ & Hw & Hl & Ht & _).
    cbv zeta in Hw, Hl, Ht. rewrite (Hw c), (Hl c), (Ht c).
    split; [apply takes_cases|].
    split; [|split].
    + intros H. apply beats_takes in H. rewrite H, (beats_exclusive _ _ _ H).
      repeat split; lia.
    + intros H. apply beats_takes in H. rewrite H, (beats_exclusive _ _ _ H).
      repeat split; lia.
    + intros H. apply (proj2 (beats_neither c _ _)) in H as [-> ->].
      repeat split; lia.
  - intros N draws k0 my opp r k Hrun c. cbv zeta.
    apply run_report in Hrun as (trials & _ & Hlen & HN & _ & Hrep & _).
    destruct (category_report_ok _ _ _ _ (Hrep c)) as (-> & -> & -> & _).
    destruct (tally_all_effect trials 0 Simulation.tally0) as (_ & Hsum & _).
    cbv zeta in Hsum. specialize (Hsum c).
    change (Simulation.category_wins Simulation.tally0 c) with 0%Z in Hsum.
    change (Simulation.category_losses Simulation.tally0 c) with 0%Z in Hsum.
    change (Simulation.category_ties Simulation.tally0 c) with 0%Z in Hsum.
    rewrite Hlen in Hsum.
    pose proof (shares_sum _ _ _ N HN Hsum) as H100. cbv zeta in H100.
    set (n := inject_Z (Z.of_nat N)) in *.
    pose proof (round_1_near
      (inject_Z (Simulation.category_wins (tally_all 0 trials Simulation.tally0) c)
       / n * 100)) as [? ?].
    pose proof (round_1_near
      (inject_Z (Simulation.category_losses (tally_all 0 trials Simulation.tally0) c)
       / n * 100)) as [? ?].
    pose proof (round_1_near
      (inject_Z (Simulation.category_ties (tally_all 0 trials Simulation.tally0) c)
       / n * 100)) as [? ?].
    split; lra.
Qed.

Lemma every_category_counted_once_witness :
  exists (r : Simulation.SimulationResults) (k : nat),
    Simulation._run_simulations 3 example_draws 0
      (Simulation._get_team_projections example_roster)
      (Simulation._get_team_projections example_opponents) = Ok (r, k) /\
    forall c : Simulation.Category,
      let rep := Simulation.category_breakdown r c in
      100 - (3 # 20)
      <= Simulation.win_pct rep + Simulation.loss_pct rep + Simulation.tie_pct rep
      /\ Simulation.win_pct rep + Simulation.loss_pct rep + Simulation.tie_pct rep
         <= 100 + (3 # 20).
Proof.
  destruct (Simulation._run_simulations 3 example_draws 0
              (Simulation._get_team_projections example_roster)
              (Simulation._get_team_projections example_opponents))
    as [[r k]|e] eqn:E.
  - exists r, k. split; [reflexivity|].
    exact (proj2 every_category_counted_once _ _ _ _ _ _ _ E).
  - vm_compute in E. discriminate E.
Defined.

(** C2. A trial is credited 1 when I take strictly more categories than the
    opponent, 0 when the opponent takes strictly more, and one half on an
    equal count; the stored winner labels follow the same rule; and the
    reported win probability is the sum of the credits of the N trials,
    divided by N, times 100, rounded to one decimal. *)
Theorem win_probability_formula
    (N : nat) (draws : nat -> Q) (k0 : nat) (my opp : Simulation.Category -> Q)
    (r : Simulation.SimulationResults) (k : nat) :
  Simulation._run_simulations N draws k0 my opp = Ok (r, k) ->
  exists trials : list Sample,
    sample_trials draws my opp N k0 = Ok (trials, k) /\
    length trials = N /\
    map Simulation.winner (Simulation.details r)
    = map trial_winner (take 100 trials) /\
    Simulation.win_probability r
    = Num.round_n (total trial_credit trials / inject_Z (Z.of_nat N) * 100) 1.
Proof.
  intros Hrun.
  apply run_report in Hrun as (trials & Hs & Hlen & HN & Hp & _ & Hd & _).
  exists trials.
  destruct (tally_all_effect trials 0 Simulation.tally0) as (Hm & _ & Hw).
  cbv zeta in Hm, Hw.
  split; [exact Hs|]. split; [exact Hlen|]. split.
  - rewrite Hd, Hw. reflexivity.
  - rewrite Hp. apply round_n_compat. rewrite Hm.
    change (Simulation.my_wins Simulation.tally0) with 0. field.
    intros H. apply (inject_Z_injective (Z.of_nat N) 0) in H. lia.
Qed.

Lemma win_probability_formula_witness :
  exists (r : Simulation.SimulationResults) (trials : list Sample),
    length trials = 3%nat /\
    Simulation.win_probability r
    = Num.round_n (total trial_credit trials / inject_Z (Z.of_nat 3) * 100) 1.
Proof.
  destruct (Simulation._run_simulations 3 example_draws 0
              (Simulation._get_team_projections example_roster)
              (Simulation._get_team_projections example_opponents))
    as [[r k]|e] eqn:E.
  - destruct (win_probability_formula _ _ _ _ _ _ _ E) as (trials & _ & Hlen & _ & Hp).
    exists r, trials. split; [exact Hlen | exact Hp].
  - vm_compute in E. discriminate E.
Defined.

(** C10, the claim as stated fails at the trial count 0: the report divides
    the tallies by the trial count, so no report is produced. *)
Lemma empty_rosters_zero_trials :
  Simulation.simulate_matchup 0 example_draws 0 [] [] = Raise ZeroDivisionError.
Proof. reflexivity. Qed.

(** C10 as amended. With both rosters empty and at least one trial, the
    report does not depend on the draws (none is read): win probability 50.0;
    in each of the nine categories win 0.0, loss 0.0, tie 100.0 and strength
    'weak'; expected categories won 0, lost 9, tied 0. *)
Theorem empty_rosters_report (N : nat) (draws : nat -> Q) (k0 : nat) :
  N <> 0%nat ->
  exists r : Simulation.MatchupReport,
    Simulation.simulate_matchup N draws k0 [] [] = Ok (r, k0) /\
    Simulation.win_probability (Simulation.results r) == 50 /\
    (forall c : Simulation.Category,
       let rep := Simulation.category_breakdown (Simulation.results r) c in
       Simulation.win_pct rep == 0 /\
       Simulation.loss_pct rep == 0 /\
       Simulation.tie_pct rep == 100 /\
       Simulation.strength rep = "weak"%string) /\
    Simulation.expected_categories_won (Simulation.results r) = 0%nat /\
    Simulation.expected_categories_lost (Simulation.results r) = 9%nat /\
    Simulation.expected_categories_tied (Simulation.results r) = 0%nat.
Proof.
  intros HN.
  destruct (run_defined N draws k0 zero_projection zero_projection _ k0 HN
              (sample_zero_trials draws N k0)) as [r Hr].
  exists (Simulation.mkMatchupReport r zero_projection zero_projection
            (Simulation._generate_matchup_recommendations r)).
  split.
  { unfold Simulation.simulate_matchup. rewrite empty_roster_projection. cbv zeta.
    rewrite Hr. reflexivity. }
  cbn [Simulation.results].
  apply run_report in Hr as (trials & Hs & _ & _ & Hp & Hrep & _ & Hw & Hl & Ht).
  rewrite sample_zero_trials in Hs. injection Hs as <-.
  destruct (even_trials_tally zero_sample N 0 Simulation.tally0)
    as (Hm & Hcw & Hcl & Hct).
  cbv zeta in Hm, Hcw, Hcl, Hct.
  set (T := tally_all 0 (repeat (zero_sample, zero_sample) N) Simulation.tally0) in *.
  set (n := inject_Z (Z.of_nat N)) in *.
  assert (~ n == 0) as Hn.
  { unfold n. intros H. apply (inject_Z_injective (Z.of_nat N) 0) in H. lia. }
  assert (forall c, inject_Z (Simulation.category_wins T c) / n * 100 == 0) as Sw.
  { intros c. rewrite Hcw. change (Simulation.category_wins Simulation.tally0 c) with 0%Z.
    change (inject_Z 0) with 0. field. exact Hn. }
  assert (forall c, inject_Z (Simulation.category_losses T c) / n * 100 == 0) as Sl.
  { intros c. rewrite Hcl.
    change (Simulation.category_losses Simulation.tally0 c) with 0%Z.
    change (inject_Z 0) with 0. field. exact Hn. }
  assert (forall c, inject_Z (Simulation.category_ties T c) / n * 100 == 100) as St.
  { intros c. rewrite Hct. change (Simulation.category_ties Simulation.tally0 c) with 0%Z.
    rewrite Z.add_0_l. fold n. field. exact Hn. }
  assert (forall c, Simulation.win_pct (Simulation.category_breakdown r c)
                    = Num.round_n 0 1) as Hwin.
  { intros c. destruct (category_report_ok _ _ _ _ (Hrep c)) as (-> & _).
    apply round_n_compat. apply Sw. }
  split; [|split; [|split; [|split]]].
  - rewrite Hp, (round_n_compat _ 50); [vm_compute; reflexivity|].
    rewrite Hm. change (Simulation.my_wins Simulation.tally0) with 0. fold n.
    field. exact Hn.
  - intros c. cbv zeta.
    destruct (category_report_ok _ _ _ _ (Hrep c)) as (-> & -> & -> & ->).
    fold n. rewrite (round_n_compat _ 0 1 (Sw c)), (round_n_compat _ 0 1 (Sl c)),
      (round_n_compat _ 100 1 (St c)).
    rewrite (ltb_compat 60 60 _ 0 (Qeq_refl 60) (Sw c)).
    rewrite (ltb_compat _ 0 40 40 (Sw c) (Qeq_refl 40)).
    repeat split; vm_compute; reflexivity.
  - rewrite Hw. apply count_categories_none. intros c. rewrite Hwin. reflexivity.
  - rewrite Hl. apply count_categories_all. intros c. rewrite Hwin. reflexivity.
  - rewrite Ht. apply count_categories_none. intros c. rewrite Hwin. reflexivity.
Qed.

Lemma empty_rosters_report_witness :
  exists r : Simulation.MatchupReport,
    Simulation.simulate_matchup 100 example_draws 0 [] [] = Ok (r, 0%nat) /\
    Simulation.win_probability (Simulation.results r) == 50.
Proof.
  destruct (empty_rosters_report 100 example_draws 0) as (r & Hr & Hp & _).
  - discriminate.
  - exists r. split; [exact Hr | exact Hp].
Defined.

(* ===================================================================== *)
(** * recommendation.py: merging, sorting and truncating *)

Section MergeFacts.

Import Recommendation.

(** ** The stable sort *)

Lemma insert_by_perm {A : Type} (reverse : bool) (x : Q * A) (l : list (Q * A)) :
  insert_by reverse x l ≡ₚ x :: l.
Proof.
  induction l as [|y l IH]; cbn [insert_by]; [reflexivity|].
  destruct (if reverse then _ else _); [|reflexivity].
  rewrite IH. apply Permutation_swap.
Qed.

Lemma sort_by_perm {A : Type} (reverse : bool) (l : list (Q * A)) :
  sort_by reverse l ≡ₚ l.
Proof.
  unfold sort_by. induction l as [|x l IH]; cbn [foldr]; [reflexivity|].
  rewrite insert_by_perm, IH. reflexivity.
Qed.

Lemma insert_by_sorted {A : Type} (reverse : bool) (x : Q * A) (l : list (Q * A)) :
  Sorted (key_ordered reverse) l -> Sorted (key_ordered reverse) (insert_by reverse x l).
Proof.
  induction 1 as [|y l Hs IH Hhd]; cbn [insert_by].
  - repeat constructor.
  - destruct (if reverse then x.1 <? y.1 else y.1 <? x.1) eqn:E.
    + constructor; [exact IH|].
      assert (key_ordered reverse y x) as Hyx.
      { unfold key_ordered. destruct reverse; apply ltb_lt in E; lra. }
      destruct Hhd as [|z l' Hz]; cbn [insert_by]; [constructor; exact Hyx|].
      destruct (if reverse then x.1 <? z.1 else z.1 <? x.1); constructor; assumption.
    + constructor; [constructor; assumption|]. constructor.
      unfold key_ordered. destruct reverse; apply ltb_ge in E; exact E.
Qed.

Lemma sort_by_sorted {A : Type} (reverse : bool) (l : list (Q * A)) :
  Sorted (key_ordered reverse) (sort_by reverse l).
Proof.
  unfold sort_by. induction l as [|x l IH]; cbn [foldr]; [constructor|].
  apply insert_by_sorted. exact IH.
Qed.

Lemma sort_by_impact_perm (l : list RosterMove) : sort_by_impact l ≡ₚ l.
Proof.
  unfold sort_by_impact. rewrite sort_by_perm, map_map. cbn [snd].
  rewrite map_id. reflexivity.
Qed.

Lemma sorted_by_own_key (l : list (Q * RosterMove)) :
  Forall (fun p => p.1 = impact_score p.2) l ->
  Sorted (key_ordered true) l -> Sorted impact_ge (map snd l).
Proof.
  intros Hk Hs. induction Hs as [|p l Hs IH Hhd]; cbn [map]; [constructor|].
  apply Forall_cons in Hk as [Hp Hk].
  constructor; [exact (IH Hk)|].
  destruct Hhd as [|q l' Hq]; cbn [map]; constructor.
  apply Forall_cons in Hk as [Hq' _].
  unfold impact_ge. unfold key_ordered in Hq. rewrite <- Hp, <- Hq'. exact Hq.
Qed.

Lemma sort_by_impact_descending (l : list RosterMove) :
  impact_descending (sort_by_impact l).
Proof.
  unfold impact_descending. apply Sorted_StronglySorted; [apply _|].
  unfold sort_by_impact. apply sorted_by_own_key; [|apply sort_by_sorted].
  rewrite sort_by_perm. apply Forall_forall. intros p Hp.
  apply list_elem_of_In, in_map_iff in Hp as (r & <- & _). reflexivity.
Qed.

Lemma take_descending (n : nat) (l : list RosterMove) :
  impact_descending l -> impact_descending (take n l).
Proof.
  unfold impact_descending. intros H.
  rewrite <- (take_drop n l) in H. apply StronglySorted_app_1_l in H. exact H.
Qed.

Lemma take_distinct (n : nat) (l : list RosterMove) :
  distinct_keys l -> distinct_keys (take n l).
Proof.
  unfold distinct_keys. intros H.
  rewrite <- (take_drop n l), map_app in H. apply NoDup_app in H as (H & _). exact H.
Qed.

(** ** Deduplication *)

Lemma merged_start : merged ([], ∅).
Proof. split; [constructor | intros k []]. Qed.

Lemma add_unseen_merged (recs : list RosterMove) :
  forall acc, merged acc -> merged (add_unseen acc recs).
Proof.
  unfold add_unseen. induction recs as [|r recs IH]; intros acc Hacc; cbn [fold_left].
  - exact Hacc.
  - apply IH. destruct acc as [l seen]. destruct Hacc as [Hnd Hseen]. cbn [fst snd] in *.
    destruct (decide (_get_recommendation_key r ∈ seen)) as [Hin|Hnew].
    + split; assumption.
    + split; cbn [fst snd].
      * unfold distinct_keys in *. rewrite map_app. cbn [map].
        apply NoDup_app. split; [exact Hnd|]. split; [|apply NoDup_singleton].
        intros k Hk Hk'. apply list_elem_of_singleton in Hk'. subst k.
        apply Hnew, Hseen, list_elem_of_In, Hk.
      * intros k Hk. rewrite map_app in Hk. apply in_app_iff in Hk as [Hk|Hk].
        -- apply elem_of_union_l, Hseen, Hk.
        -- cbn in Hk. destruct Hk as [<-|[]]. apply elem_of_union_r, elem_of_singleton.
           reflexivity.
Qed.

(** What the [try] block returns is deduplicated, sorted and truncated. *)
Lemma try_recommendations_ok (stored : list TeamData)
    (current_roster free_agents all_players : list Player) (max_recommendations : nat)
    (recs : list RosterMove) :
  try_recommendations stored current_roster free_agents all_players
    max_recommendations = Ok recs ->
  distinct_keys recs /\ impact_descending recs /\
  (length recs <= max_recommendations)%nat.
Proof.
  unfold try_recommendations. unfold mbind, res_bind.
  destruct (_analyze_single_swaps _ _) as [single|e]; [|discriminate].
  destruct (_analyze_multi_player_swaps _ _) as [multi|e]; [|discriminate].
  destruct (_find_budget_upgrades _ _) as [budget|e]; [|discriminate].
  pose proof (add_unseen_merged budget _
                (add_unseen_merged multi _
                   (add_unseen_merged single _ merged_start))) as H3.
  set (acc3 := add_unseen (add_unseen (add_unseen ([], ∅) single) multi) budget) in *.
  assert (forall acc, merged acc ->
            Ok (take max_recommendations (sort_by_impact acc.1)) = Ok recs ->
            distinct_keys recs /\ impact_descending recs /\
            (length recs <= max_recommendations)%nat) as Hfinish.
  { intros acc [Hnd _] [= <-]. split; [|split].
    - apply take_distinct. unfold distinct_keys in *.
      rewrite (Permutation_map _ (sort_by_impact_perm acc.1)). exact Hnd.
    - apply take_descending, sort_by_impact_descending.
    - rewrite length_take. lia. }
  destruct (bool_decide (stored = [])).
  - apply Hfinish. exact H3.
  - destruct (_analyze_trade_opportunities _ _) as [trades|e]; [|discriminate].
    apply Hfinish. apply add_unseen_merged. exact H3.
Qed.

End MergeFacts.

(* ===================================================================== *)
(** * recommendation.py: the multi-player swap loop *)

Section SwapFacts.

Import Recommendation.

(** A property of the loop state that every iteration keeps holds when the
    loop is left, normally or early. *)
Lemma loop_preserves {A S : Type} (P : S -> Prop) (body : S -> A -> Res (Flow S))
    (xs : list A) :
  (forall s x f, P s -> body s x = Ok f -> P (state_of f)) ->
  forall s r, P s -> loop body xs s = Ok r -> P (state_of r).
Proof.
  intros Hbody. induction xs as [|x xs IH]; intros s r Hs H; cbn [loop] in H.
  - injection H as <-. exact Hs.
  - unfold mbind, res_bind in H. destruct (body s x) as [f|e] eqn:E; [|discriminate H].
    pose proof (Hbody _ _ _ Hs E) as Hf. destruct f as [s'|s']; cbn [state_of] in Hf.
    + exact (IH _ _ Hf H).
    + injection H as <-. exact Hf.
Qed.

Lemma combined_changes_no_all_categories (imps decs : list string) :
  combined_changes imps decs !! "all_categories"%string = None.
Proof.
  unfold combined_changes.
  rewrite !lookup_insert_ne by discriminate. apply lookup_singleton_ne. discriminate.
Qed.

(** Every 2-for-2 or 3-for-3 swap is emitted with an empty category list. *)
Lemma multi_swaps_carry_no_categories (current_roster free_agents : list Player)
    (recs : list RosterMove) :
  _analyze_multi_player_swaps current_roster free_agents = Ok recs ->
  Forall (fun m => move_all_categories m = Some []) recs.
Proof.
  unfold _analyze_multi_player_swaps. cbv zeta. unfold mbind at 1, res_bind at 1.
  destruct (loop _ _ _) as [r|e] eqn:E; [|discriminate]. intros [= <-].
  revert E. apply loop_preserves; [|constructor].
  intros recs1 swap_size f1 H1. apply loop_preserves; [|exact H1].
  intros recs2 drop_combo f2 H2. unfold mbind at 1, res_bind at 1.
  destruct (values_total drop_combo) as [drop_total|e]; [|discriminate].
  apply loop_preserves; [|exact H2].
  intros recs3 add_combo f3 H3. unfold mbind at 1, res_bind at 1.
  destruct (values_total add_combo) as [add_total|e]; [|discriminate].
  destruct (_ <? _); [|intros [= <-]; exact H3].
  unfold mbind at 1, res_bind at 1.
  destruct (for_each _ _ _) as [[imps decs]|e]; [|discriminate].
  assert (Forall (fun m => move_all_categories m = Some [])
            (recs3 ++ [mkRosterMove "multi_swap"
               (Some (pretty swap_size +:+ "-for-" +:+ pretty swap_size)) None
               (map (fun p => entry p None "My Team") drop_combo)
               (map (fun p => entry p None "Free Agent") add_combo)
               (Num.round_n (add_total - drop_total) 1)
               (Some (default [] (combined_changes imps decs !! "all_categories")))
               (default [] (combined_changes imps decs !! "improvements"))
               (default [] (combined_changes imps decs !! "declines"))
               (_generate_swap_reasoning drop_combo add_combo (add_total - drop_total)
                  (default [] (combined_changes imps decs !! "improvements"))
                  (default [] (combined_changes imps decs !! "declines")))
               (if match swap_size with 2%nat => 0.5 | 3%nat => 1.0 | _ => 0.5 end * 2
                   <? add_total - drop_total then "high" else "medium")])) as Hnew.
  { apply Forall_app. split; [exact H3|]. constructor; [|constructor].
    cbn [move_all_categories]. rewrite combined_changes_no_all_categories. reflexivity. }
  destruct (_ <=? _)%nat; intros [= <-]; exact Hnew.
Qed.

(** ** The single-pair delta report *)

Lemma category_line_adds_one (stat_key stat_name : string) (is_percentage : bool)
    (drop_val add_val : Q) (c : CategoryChanges) :
  length (all_categories (category_line stat_key stat_name is_percentage
                            drop_val add_val c))
  = S (length (all_categories c)).
Proof.
  unfold category_line, improved, declined, unchanged.
  repeat match goal with
  | |- context [if ?b then _ else _] => destruct b
  end; cbn [all_categories]; rewrite length_app; cbn [length]; lia.
Qed.

Lemma for_each_counts {A : Type} (body : CategoryChanges -> A -> Res CategoryChanges)
    (xs : list A) :
  (forall c x c', body c x = Ok c' ->
     length (all_categories c') = S (length (all_categories c))) ->
  forall c0 c, for_each body xs c0 = Ok c ->
  length (all_categories c) = (length (all_categories c0) + length xs)%nat.
Proof.
  intros Hbody. induction xs as [|x xs IH]; intros c0 c H; cbn [for_each] in H.
  - injection H as <-. cbn [length]. lia.
  - unfold mbind, res_bind in H. destruct (body c0 x) as [c1|e] eqn:E; [|discriminate H].
    rewrite (IH _ _ H), (Hbody _ _ _ E). cbn [length]. lia.
Qed.

(** A 1-for-1 comparison that returns lists one entry per category, nine in
    all. *)
Lemma pair_report_covers_nine (drop_player add_player : Player) (cc : CategoryChanges) :
  _analyze_category_improvements drop_player add_player = Ok cc ->
  length (all_categories cc) = 9%nat.
Proof.
  unfold _analyze_category_improvements. intros H.
  apply for_each_counts in H; [exact H|].
  intros c [[stat_key stat_name] is_percentage] c'. unfold mbind, res_bind.
  destruct (as_num _) as [d|e]; [|discriminate].
  destruct (as_num _) as [a|e]; [|discriminate].
  intros [= <-]. apply category_line_adds_one.
Qed.

End SwapFacts.

(** ** The claims about the recommendation search *)

(** C6 (defect in the code). The claim asks every emitted multi-player swap
    to pass the value threshold and the position-balance check. The loop
    computes [position_balanced] and then tests the value change alone: for
    two rostered centers and two better free-agent point guards it emits the
    2-for-2 swap although the guard count differs by 2 and the center count
    by 2, and the entry point returns it. *)
Theorem unbalanced_swap_is_recommended :
  exists move : Recommendation.RosterMove,
    Recommendation._analyze_multi_player_swaps two_centers two_guards = Ok [move] /\
    (Recommendation.get_recommendations_for_roster [] two_centers two_guards []
       100 None).1 = [move] /\
    Recommendation.swap_type move = Some "2-for-2"%string /\
    map Recommendation.mp_position (Recommendation.drop_players move)
    = ["C"; "C"]%string /\
    map Recommendation.mp_position (Recommendation.add_players move)
    = ["PG"; "PG"]%string /\
    Recommendation.impact_score move == 33.1 /\
    Recommendation.count_position_types ["C"; "C"]%string = (0, 0, 2)%Z /\
    Recommendation.count_position_types ["PG"; "PG"]%string = (2, 0, 0)%Z /\
    Recommendation._check_multi_position_balance
      (map Recommendation.mp_position (Recommendation.drop_players move))
      (map Recommendation.mp_position (Recommendation.add_players move)) = false.
Proof.
  eexists. split; [vm_compute; reflexivity|].
  repeat split; vm_compute; reflexivity.
Qed.

(** C7 (defect in the code). The claim asks every move to carry a delta list
    over all nine categories, also for an N-player block. For two rostered
    forwards and two better free-agent forwards the search returns five moves:
    the four 1-for-1 swaps carry nine entries each, while the 2-for-2 swap
    carries an empty list, because [combined_changes] has no
    ['all_categories'] key and the read falls back to the empty list. *)
Theorem multi_swap_has_no_category_list :
  exists (block : Recommendation.RosterMove) (singles : list Recommendation.RosterMove),
    (Recommendation.get_recommendations_for_roster [] two_forwards better_forwards []
       100 None).1 = block :: singles /\
    Recommendation.swap_type block = Some "2-for-2"%string /\
    map Recommendation.mp_name (Recommendation.drop_players block)
    = ["Forward A"; "Forward B"]%string /\
    map Recommendation.mp_name (Recommendation.add_players block)
    = ["Forward C"; "Forward D"]%string /\
    Recommendation.move_all_categories block = Some [] /\
    map Recommendation.swap_type singles
    = [Some "1-for-1"; Some "1-for-1"; Some "1-for-1"; Some "1-for-1"]%string /\
    map (fun m => length <$> Recommendation.move_all_categories m) singles
    = [Some 9; Some 9; Some 9; Some 9]%nat.
Proof.
  do 2 eexists. split; [vm_compute; reflexivity|].
  repeat split; vm_compute; reflexivity.
Qed.

(** C8, the claim as stated fails: with a rostered player of value 0 and a
    better free agent, the value-upgrade strategy divides by that value, the
    exception is caught, and the one-entry fallback list is returned even
    though at most 0 recommendations were requested. *)
Lemma fallback_list_exceeds_maximum :
  Recommendation._find_budget_upgrades [unknown_player] [hot_hand]
  = Raise ZeroDivisionError /\
  (Recommendation.get_recommendations_for_roster [] [unknown_player] [hot_hand] []
     0 None).1 = Recommendation._get_sample_recommendations /\
  length (Recommendation.get_recommendations_for_roster [] [unknown_player]
            [hot_hand] [] 0 None).1 = 1%nat /\
  ~ (length (Recommendation.get_recommendations_for_roster [] [unknown_player]
               [hot_hand] [] 0 None).1 <= 0)%nat.
Proof.
  split; [vm_compute; reflexivity|].
  split; [vm_compute; reflexivity|].
  split; [vm_compute; reflexivity|].
  vm_compute. intros H. inversion H.
Qed.

(** C8 as amended. For every stored state, roster, free-agent pool,
    all-players list, requested maximum and other-team rosters, the returned
    list has no two entries with the same identity key and is sorted by impact
    score in descending order; its length is at most the requested maximum
    unless it is the one-entry fallback list that the entry point returns when
    an exception was caught. *)
Theorem recommendations_distinct_sorted_bounded
    (self_other_teams_rosters : list Recommendation.TeamData)
    (current_roster free_agents all_players : list Player)
    (max_recommendations : nat)
    (other_teams_rosters : option (list Recommendation.TeamData)) :
  let out :=
    (Recommendation.get_recommendations_for_roster self_other_teams_rosters
       current_roster free_agents all_players max_recommendations
       other_teams_rosters).1 in
  distinct_keys out /\
  impact_descending out /\
  ((length out <= max_recommendations)%nat
   \/ out = Recommendation._get_sample_recommendations).
Proof.
  cbv zeta. unfold Recommendation.get_recommendations_for_roster.
  destruct (Recommendation.try_recommendations _ _ _ _ _) as [recs|e] eqn:E;
    cbn [fst].
  - apply try_recommendations_ok in E as (Hd & Hs & Hl). auto.
  - split; [|split].
    + unfold distinct_keys. apply NoDup_singleton.
    + unfold impact_descending. repeat constructor.
    + right. reflexivity.
Qed.

(* ===================================================================== *)
(** * Further properties of the code *)

(** ** Rounding *)

Section RoundFacts.

Lemma round_mono (x y : Q) : x <= y -> (Num.round x <= Num.round y)%Z.
Proof.
  intros Hxy. unfold Num.round.
  pose proof (Qfloor_resp_le x y Hxy) as Hf.
  pose proof (Qfloor_le x) as Hx1. pose proof (Qlt_floor x) as Hx2.
  pose proof (Qfloor_le y) as Hy1. pose proof (Qlt_floor y) as Hy2.
  rewrite inject_Z_plus in Hx2, Hy2. change (inject_Z 1) with 1 in Hx2, Hy2.
  destruct (Z.eq_dec (Qfloor x) (Qfloor y)) as [E|NE].
  - rewrite E in *.
    destruct (x - inject_Z (Qfloor y) <? 1 # 2) eqn:X1;
      destruct ((1 # 2) <? x - inject_Z (Qfloor y)) eqn:X2;
      destruct (y - inject_Z (Qfloor y) <? 1 # 2) eqn:Y1;
      destruct ((1 # 2) <? y - inject_Z (Qfloor y)) eqn:Y2;
      qcompare; try lia; try (exfalso; lra);
      destruct (Z.even (Qfloor y)); lia.
  - assert (Qfloor x + 1 <= Qfloor y)%Z as Hlt by lia.
    destruct (x - inject_Z (Qfloor x) <? 1 # 2);
      destruct ((1 # 2) <? x - inject_Z (Qfloor x));
      destruct (y - inject_Z (Qfloor y) <? 1 # 2);
      destruct ((1 # 2) <? y - inject_Z (Qfloor y));
      destruct (Z.even (Qfloor x)); destruct (Z.even (Qfloor y)); lia.
Qed.

Lemma round_inject_Z (z : Z) : Num.round (inject_Z z) = z.
Proof.
  unfold Num.round. rewrite Qfloor_Z.
  assert ((inject_Z z - inject_Z z <? 1 # 2) = true) as ->; [|reflexivity].
  apply ltb_lt. lra.
Qed.

Lemma pow10_pos (n : nat) : 0 < Num.pow10 n.
Proof.
  unfold Num.pow10. change 0 with (inject_Z 0). rewrite <- Zlt_Qlt.
  apply Z.pow_pos_nonneg; lia.
Qed.

Lemma round_n_mono (x y : Q) (n : nat) :
  x <= y -> Num.round_n x n <= Num.round_n y n.
Proof.
  intros Hxy. unfold Num.round_n. pose proof (pow10_pos n) as Hp.
  apply Qmult_le_compat_r.
  - rewrite <- Zle_Qle. apply round_mono. apply Qmult_le_compat_r; lra.
  - apply Qlt_le_weak, Qinv_lt_0_compat, Hp.
Qed.

(** Rounding to one decimal keeps a percentage inside [0, 100]. *)
Lemma round_1_percentage (x : Q) :
  0 <= x -> x <= 100 -> 0 <= Num.round_n x 1 /\ Num.round_n x 1 <= 100.
Proof.
  intros H0 H100. split.
  - assert (Num.round_n 0 1 == 0) as <- by (vm_compute; reflexivity).
    apply round_n_mono, H0.
  - assert (Num.round_n 100 1 == 100) as <- by (vm_compute; reflexivity).
    apply round_n_mono, H100.
Qed.

End RoundFacts.

(** ** Shares and credits of a report *)

Section ReportFacts.

Import Simulation.

(** A win percentage is above, below or equal to 50, and only one of them. *)
Lemma count_partition (b : Category -> CategoryReport) (l : list Category) :
  Nat.add
    (Nat.add (length (filter (fun c => (50 <? win_pct (b c)) = true) l))
             (length (filter (fun c => (win_pct (b c) <? 50) = true) l)))
    (length (filter (fun c => (win_pct (b c) =? 50) = true) l))
  = length l.
Proof.
  induction l as [|x l IH]; [reflexivity|].
  rewrite !filter_cons. cbn [length].
  destruct (50 <? win_pct (b x)) eqn:E1; destruct (win_pct (b x) <? 50) eqn:E2;
    destruct (win_pct (b x) =? 50) eqn:E3; qcompare; try (exfalso; lra);
    repeat (destruct (decide _); try discriminate; try congruence);
    cbn [length]; lia.
Qed.

Lemma trial_credit_range (s : Sample) : 0 <= trial_credit s /\ trial_credit s <= 1.
Proof.
  unfold trial_credit. cbv zeta.
  destruct (_ <? _)%Z; [|destruct (_ <? _)%Z]; split; lra.
Qed.

Lemma total_credit_range (trials : list Sample) :
  0 <= total trial_credit trials
  /\ total trial_credit trials <= inject_Z (Z.of_nat (length trials)).
Proof.
  induction trials as [|s trials [IH0 IH1]].
  - rewrite total_nil. split; [lra | unfold Qle; cbn; lia].
  - rewrite total_cons. destruct (trial_credit_range s) as [H0 H1].
    cbn [length]. rewrite Nat2Z.inj_succ, <- Z.add_1_r, inject_Z_plus.
    change (inject_Z 1) with 1. split; lra.
Qed.

(** No counter ever goes down. *)
Lemma tally_all_counts_nonneg (trials : list Sample) :
  forall (s : nat) (t : Tally),
  (forall c, (0 <= category_wins t c)%Z /\ (0 <= category_losses t c)%Z
             /\ (0 <= category_ties t c)%Z) ->
  forall c,
    (0 <= category_wins (tally_all s trials t) c)%Z
    /\ (0 <= category_losses (tally_all s trials t) c)%Z
    /\ (0 <= category_ties (tally_all s trials t) c)%Z.
Proof.
  induction trials as [|[mine theirs] rest IH]; intros s t H c; [apply H|].
  cbn [tally_all fst snd]. apply IH. intros c'.
  destruct (tally_trial_effect s mine theirs t) as (_ & Ew & El & Et & _).
  cbv zeta in Ew, El, Et. rewrite Ew, El, Et.
  destruct (H c') as (? & ? & ?).
  destruct (beats c' (mine c') (theirs c')); destruct (beats c' (theirs c') (mine c'));
    lia.
Qed.

(** A share of the trial count is a percentage. *)
Lemma share_range (count : Z) (N : nat) :
  N <> 0%nat -> (0 <= count)%Z -> (count <= Z.of_nat N)%Z ->
  0 <= inject_Z count / inject_Z (Z.of_nat N) * 100
  /\ inject_Z count / inject_Z (Z.of_nat N) * 100 <= 100.
Proof.
  intros HN H0 H1.
  assert (0 < inject_Z (Z.of_nat N)) as Hn.
  { change 0 with (inject_Z 0). rewrite <- Zlt_Qlt. lia. }
  assert (0 <= inject_Z count) as Hc0.
  { change 0 with (inject_Z 0). rewrite <- Zle_Qle. exact H0. }
  assert (inject_Z count <= inject_Z (Z.of_nat N)) as Hc1.
  { rewrite <- Zle_Qle. exact H1. }
  assert (0 <= inject_Z count / inject_Z (Z.of_nat N)) as Hd0.
  { apply Qle_shift_div_l; lra. }
  assert (inject_Z count / inject_Z (Z.of_nat N) <= 1) as Hd1.
  { apply Qle_shift_div_r; lra. }
  split; lra.
Qed.

End ReportFacts.

(** ** Properties of every returned report *)

(** X1. In every report returned by [_run_simulations], the three expected
    category counts (rounded win percentage above 50, below 50, equal to 50)
    add up to the nine categories. *)
Theorem expected_categories_sum_to_nine
    (N : nat) (draws : nat -> Q) (k0 : nat) (my opp : Simulation.Category -> Q)
    (r : Simulation.SimulationResults) (k : nat) :
  Simulation._run_simulations N draws k0 my opp = Ok (r, k) ->
  (Simulation.expected_categories_won r + Simulation.expected_categories_lost r
   + Simulation.expected_categories_tied r = 9)%nat.
Proof.
  intros Hrun.
  apply run_report in Hrun as (_ & _ & _ & _ & _ & _ & _ & -> & -> & ->).
  unfold Simulation.count_categories.
  exact (count_partition (Simulation.category_breakdown r) Simulation.stat_categories).
Qed.

Lemma expected_categories_sum_to_nine_witness :
  exists (r : Simulation.SimulationResults) (k : nat),
    Simulation._run_simulations 3 example_draws 0
      (Simulation._get_team_projections example_roster)
      (Simulation._get_team_projections example_opponents) = Ok (r, k) /\
    (Simulation.expected_categories_won r + Simulation.expected_categories_lost r
     + Simulation.expected_categories_tied r = 9)%nat.
Proof.
  destruct (Simulation._run_simulations 3 example_draws 0
              (Simulation._get_team_projections example_roster)
              (Simulation._get_team_projections example_opponents))
    as [[r k]|e] eqn:E.
  - exists r, k. split; [reflexivity|].
    exact (expected_categories_sum_to_nine _ _ _ _ _ _ _ E).
  - vm_compute in E. discriminate E.
Defined.

(** X2. In every report returned by [_run_simulations], the win probability
    and the win, loss and tie percentages of every category lie between 0 and
    100. *)
Theorem report_percentages_in_range
    (N : nat) (draws : nat -> Q) (k0 : nat) (my opp : Simulation.Category -> Q)
    (r : Simulation.SimulationResults) (k : nat) :
  Simulation._run_simulations N draws k0 my opp = Ok (r, k) ->
  (0 <= Simulation.win_probability r /\ Simulation.win_probability r <= 100) /\
  forall c : Simulation.Category,
    let rep := Simulation.category_breakdown r c in
    (0 <= Simulation.win_pct rep /\ Simulation.win_pct rep <= 100) /\
    (0 <= Simulation.loss_pct rep /\ Simulation.loss_pct rep <= 100) /\
    (0 <= Simulation.tie_pct rep /\ Simulation.tie_pct rep <= 100).
Proof.
  intros Hrun.
  apply run_report in Hrun as (trials & _ & Hlen & HN & Hp & Hrep & _).
  destruct (tally_all_effect trials 0 Simulation.tally0) as (Hm & Hsum & _).
  cbv zeta in Hm, Hsum.
  assert (0 < inject_Z (Z.of_nat N)) as Hn.
  { change 0 with (inject_Z 0). rewrite <- Zlt_Qlt. lia. }
  split.
  - rewrite Hp. apply round_1_percentage.
    + destruct (total_credit_range trials) as [H0 _].
      change (Simulation.my_wins Simulation.tally0) with 0 in Hm.
      assert (0 <= Simulation.my_wins (tally_all 0 trials Simulation.tally0)
                   / inject_Z (Z.of_nat N)) by (apply Qle_shift_div_l; lra).
      lra.
    + destruct (total_credit_range trials) as [_ H1]. rewrite Hlen in H1.
      change (Simulation.my_wins Simulation.tally0) with 0 in Hm.
      assert (Simulation.my_wins (tally_all 0 trials Simulation.tally0)
              / inject_Z (Z.of_nat N) <= 1) by (apply Qle_shift_div_r; lra).
      lra.
  - intros c. cbv zeta.
    destruct (category_report_ok _ _ _ _ (Hrep c)) as (-> & -> & -> & _).
    specialize (Hsum c). rewrite Hlen in Hsum.
    change (Simulation.category_wins Simulation.tally0 c) with 0%Z in Hsum.
    change (Simulation.category_losses Simulation.tally0 c) with 0%Z in Hsum.
    change (Simulation.category_ties Simulation.tally0 c) with 0%Z in Hsum.
    destruct (tally_all_counts_nonneg trials 0 Simulation.tally0
                (fun _ => conj (Z.le_refl 0) (conj (Z.le_refl 0) (Z.le_refl 0))) c)
      as (Hw & Hl & Ht).
    repeat split; apply round_1_percentage; apply share_range; try exact HN; lia.
Qed.

Lemma report_percentages_in_range_witness :
  exists (r : Simulation.SimulationResults) (k : nat),
    Simulation._run_simulations 3 example_draws 0
      (Simulation._get_team_projections example_roster)
      (Simulation._get_team_projections example_opponents) = Ok (r, k) /\
    0 <= Simulation.win_probability r /\ Simulation.win_probability r <= 100.
Proof.
  destruct (Simulation._run_simulations 3 example_draws 0
              (Simulation._get_team_projections example_roster)
              (Simulation._get_team_projections example_opponents))
    as [[r k]|e] eqn:E.
  - exists r, k. split; [reflexivity|].
    exact (proj1 (report_percentages_in_range _ _ _ _ _ _ _ E)).
  - vm_compute in E. discriminate E.
Defined.

(** ** Stored trial details *)

Section DetailFacts.

Import Simulation.

Lemma compare_category_detail (mine theirs : Category -> Q) (a : TrialAcc)
    (x : Category) :
  length (sim_detail (compare_category mine theirs a x))
  = S (S (length (sim_detail a))).
Proof.
  unfold compare_category. cbv zeta. cbn [sim_detail].
  rewrite length_app. cbn [length].
  destruct (decide (x = turnovers)); destruct (mine x <? theirs x);
    destruct (theirs x <? mine x);
    unfold record_win, record_loss, record_tie; cbn [sim_detail]; lia.
Qed.

Lemma compare_fold_detail (mine theirs : Category -> Q) (l : list Category) :
  forall a : TrialAcc,
  length (sim_detail (fold_left (compare_category mine theirs) l a))
  = (length (sim_detail a) + 2 * length l)%nat.
Proof.
  induction l as [|x l IH]; intros a; cbn [fold_left length].
  - lia.
  - rewrite IH, compare_category_detail. lia.
Qed.

(** The categories the two teams take in a trial are distinct ones. *)
Lemma categories_taken_range (mine theirs : Category -> Q) :
  (0 <= categories_taken mine theirs)%Z /\ (0 <= categories_taken theirs mine)%Z
  /\ (categories_taken mine theirs + categories_taken theirs mine <= 9)%Z.
Proof.
  unfold categories_taken.
  assert (forall l : list Category,
            (length (filter (fun c => beats c (mine c) (theirs c) = true) l)
             + length (filter (fun c => beats c (theirs c) (mine c) = true) l)
             <= length l)%nat) as H.
  { induction l as [|x l IH]; [cbn; lia|].
    rewrite !filter_cons. pose proof (beats_exclusive x (mine x) (theirs x)) as Hex.
    destruct (beats x (mine x) (theirs x)); [rewrite (Hex eq_refl)|];
      destruct (beats x (theirs x) (mine x));
      repeat (destruct (decide _); try discriminate; try congruence);
      cbn [length]; lia. }
  specialize (H stat_categories). change (length stat_categories) with 9%nat in H.
  lia.
Qed.

Lemma tally_trial_detail (sim : nat) (mine theirs : Category -> Q) (t : Tally) :
  exists d : SimDetail,
    simulation d = (Z.of_nat sim + 1)%Z /\ detail_well_formed d /\
    simulation_details (tally_trial sim mine theirs t)
    = simulation_details t ++ (if (sim <? 100)%nat then [d] else []).
Proof.
  unfold tally_trial. cbv zeta.
  destruct (compare_fold mine theirs stat_categories NoDup_stat_categories
              (mkTrialAcc 0 0 (category_wins t) (category_losses t)
                          (category_ties t) []))
    as (Hw & Hl & _).
  cbv zeta in Hw, Hl. cbn [categories_won categories_lost] in Hw, Hl.
  rewrite Z.add_0_l in Hw, Hl.
  pose proof (compare_fold_detail mine theirs stat_categories
                (mkTrialAcc 0 0 (category_wins t) (category_losses t)
                            (category_ties t) [])) as Hd.
  cbn [sim_detail length] in Hd. change (length stat_categories) with 9%nat in Hd.
  destruct (categories_taken_range mine theirs) as (H0 & H1 & H9).
  unfold categories_taken in H0, H1, H9.
  rewrite <- Hw in H0, H9. rewrite <- Hl in H1, H9.
  set (a' := fold_left (compare_category mine theirs) stat_categories _) in *.
  eexists (mkSimDetail (Z.of_nat sim + 1) (sim_detail a') (categories_won a')
             (categories_lost a') _).
  split; [reflexivity|]. split.
  - unfold detail_well_formed. cbn [detail_categories_won detail_categories_lost sampled].
    repeat split; assumption.
  - cbn [simulation_details].
    destruct (sim <? 100)%nat; [reflexivity | rewrite app_nil_r; reflexivity].
Qed.

Lemma tally_all_details (trials : list Sample) :
  forall (s : nat) (t : Tally),
  Forall detail_well_formed (simulation_details t) ->
  Forall detail_well_formed (simulation_details (tally_all s trials t)) /\
  map simulation (simulation_details (tally_all s trials t))
  = map simulation (simulation_details t)
    ++ map (fun i => (Z.of_nat i + 1)%Z) (seq s (min (length trials) (100 - s))).
Proof.
  induction trials as [|[mine theirs] rest IH]; intros s t Hwf.
  - cbn [tally_all length]. rewrite Nat.min_0_l. cbn [seq map].
    rewrite app_nil_r. split; [exact Hwf | reflexivity].
  - cbn [tally_all fst snd length].
    destruct (tally_trial_detail s mine theirs t) as (d & Hn & Hd & Hdet).
    destruct (IH (S s) (tally_trial s mine theirs t)) as [IH1 IH2].
    { rewrite Hdet. apply Forall_app. split; [exact Hwf|].
      destruct (s <? 100)%nat; [apply Forall_singleton; exact Hd | apply Forall_nil_2]. }
    split; [exact IH1|]. rewrite IH2, Hdet, map_app, <- app_assoc. f_equal.
    destruct (Nat.ltb_spec s 100).
    + assert (100 - s = S (100 - S s))%nat as -> by lia.
      rewrite <- Nat.succ_min_distr. cbn [seq map app]. rewrite Hn. reflexivity.
    + assert (100 - s = 0)%nat as -> by lia.
      assert (100 - S s = 0)%nat as -> by lia.
      rewrite !Nat.min_0_r. reflexivity.
Qed.

End DetailFacts.

(** ** Sampling *)

Section SamplingFacts.

Import Simulation.

(** The value the sampling loop stores under a key is the one sampled for
    that key. *)
Lemma sampling_loop (draws : nat -> Q) (projections : Category -> Q)
    (l : list Category) :
  NoDup l ->
  forall (s0 : Category -> Q) (k : nat) (s : Category -> Q) (k' : nat),
  for_each
    (fun '(simulated_stats, k) stat =>
       '(v, k') ← simulate_stat draws stat (projections stat) k;
       Ok (upd simulated_stats stat v, k'))
    l (s0, k) = Ok (s, k') ->
  forall c,
    if decide (c ∈ l)
    then exists kc kc', simulate_stat draws c (projections c) kc = Ok (s c, kc')
    else s c = s0 c.
Proof.
  induction l as [|x l IH]; intros Hnd s0 k s k' H c.
  - cbn in H. injection H as <- <-.
    rewrite decide_False by apply not_elem_of_nil. reflexivity.
  - apply NoDup_cons in Hnd as [Hx Hnd]. rewrite for_each_cons in H.
    unfold mbind, res_bind in H.
    destruct (simulate_stat draws x (projections x) k) as [[v k1]|e] eqn:Ex;
      [|discriminate H].
    pose proof (IH Hnd _ _ _ _ H) as Hc.
    destruct (decide (c = x)) as [->|Hne].
    + rewrite decide_True by left. specialize (Hc x).
      rewrite decide_False in Hc by exact Hx. rewrite Hc, upd_same. eauto.
    + specialize (Hc c). destruct (decide (c ∈ l)) as [Hin|Hin].
      * rewrite decide_True by (right; exact Hin). exact Hc.
      * rewrite decide_False by (intros [?|?]%elem_of_cons; contradiction).
        rewrite Hc. apply upd_other. exact Hne.
Qed.

Lemma simulate_stat_range (draws : nat -> Q) (c : Category) (x : Q) (k : nat)
    (v : Q) (k' : nat) :
  simulate_stat draws c x k = Ok (v, k') ->
  0 <= v /\ (x == 0 -> v = 0) /\
  (c = fg_percentage \/ c = ft_percentage ->
   v <= 1 /\ (~ x == 0 -> 0.2 <= v)).
Proof.
  unfold simulate_stat, normal. destruct (x =? 0) eqn:E0.
  - intros [= <- <-]. split; [lra|]. split; [reflexivity|]. intros _.
    split; [lra|]. intros Hn. apply eqb_eq in E0. contradiction.
  - qcompare. destruct (x * stat_volatility c <? 0); [destruct (bool_decide _); discriminate|].
    destruct (bool_decide (c = fg_percentage \/ c = ft_percentage)) eqn:Eb.
    + cbn. intros [= <- <-]. unfold Num.max, Num.min.
      repeat (match goal with |- context [?a <? ?b] => destruct (a <? b) eqn:? end);
        qcompare; repeat split; intros; try lra; contradiction.
    + apply bool_decide_eq_false in Eb. cbn. intros [= <- <-]. unfold Num.max.
      destruct (0 <? _) eqn:E; qcompare; repeat split; intros; try lra; contradiction.
Qed.

Lemma simulate_stat_error (draws : nat -> Q) (c : Category) (x : Q) (k : nat)
    (e : PyError) :
  simulate_stat draws c x k = Raise e -> e = ValueError.
Proof.
  unfold simulate_stat, normal. destruct (x =? 0); [discriminate|].
  destruct (x * stat_volatility c <? 0); destruct (bool_decide _); cbn; congruence.
Qed.

Lemma simulate_stat_negative (draws : nat -> Q) (c : Category) (x : Q) (k : nat) :
  x < 0 -> simulate_stat draws c x k = Raise ValueError.
Proof.
  intros Hx. unfold simulate_stat, normal.
  assert ((x =? 0) = false) as -> by (apply eqb_neq; lra).
  assert ((x * stat_volatility c <? 0) = true) as ->.
  { apply ltb_lt. pose proof (volatility_positive c). nra. }
  destruct (bool_decide _); reflexivity.
Qed.

(** Sampling a projection with a negative entry is refused. *)
Lemma simulate_team_negative (draws : nat -> Q) (projections : Category -> Q)
    (c : Category) (k : nat) :
  projections c < 0 ->
  _simulate_team_performance draws projections k = Raise ValueError.
Proof.
  intros Hc. unfold _simulate_team_performance.
  pose proof (elem_of_stat_categories c) as Hin.
  generalize (fun _ : Category => 0) as s0. revert k.
  induction stat_categories as [|x l IH]; intros k s0.
  - exfalso. exact (not_elem_of_nil _ Hin).
  - rewrite for_each_cons. unfold mbind, res_bind.
    destruct (simulate_stat draws x (projections x) k) as [[v k1]|e] eqn:Ex.
    + apply elem_of_cons in Hin as [->|Hin].
      * rewrite simulate_stat_negative in Ex by exact Hc. discriminate Ex.
      * apply IH. exact Hin.
    + apply simulate_stat_error in Ex as ->. reflexivity.
Qed.

End SamplingFacts.

(** ** Projections of non-negative stats *)

Section ProjectionFacts.

Import Simulation.

Lemma stat_line_nonneg (p : Player) (c : Category) :
  c ∈ counting_stats -> counting_nonnegative p -> 0 <= stat_line p c.
Proof.
  intros Hc Hp. unfold stat_line.
  destruct (stats_empty (stats p)).
  - destruct c; cbn; lra.
  - destruct (stats p !! key c) as [[v|]|] eqn:E.
    + exact (Hp c v Hc E).
    + destruct c; lra.
    + destruct c; lra.
Qed.

Lemma ratio_spec_nonneg rate attempts (roster : list Player) :
  0 <= ratio_spec rate attempts roster.
Proof.
  unfold ratio_spec. cbv zeta.
  set (counted := shooters rate attempts (map _get_sample_player_projections roster)).
  destruct (total attempts counted =? 0) eqn:E; [lra|]. qcompare.
  pose proof (shooters_attempts_nonneg rate attempts
                (map _get_sample_player_projections roster)) as Ha.
  fold counted in Ha.
  apply Qle_shift_div_l; [lra|]. rewrite Qmult_0_l.
  apply total_nonneg. intros pp Hpp.
  apply list_elem_of_filter in Hpp as [Hcount _].
  unfold counts in Hcount. apply andb_true_iff in Hcount as [H1 H2]. qcompare.
  apply Qmult_le_0_compat; lra.
Qed.

Lemma team_projection_nonneg (roster : list Player) (c : Category) :
  Forall counting_nonnegative roster -> 0 <= _get_team_projections roster c.
Proof.
  intros Hr.
  destruct (decide (c ∈ counting_stats)) as [Hc|Hc].
  - rewrite team_counting, total_stat_line by exact Hc.
    apply total_nonneg. intros p Hp.
    apply stat_line_nonneg; [exact Hc|].
    rewrite Forall_forall in Hr. exact (Hr p Hp).
  - destruct (team_ratio roster) as [Hfg Hft].
    destruct c; try (exfalso; apply Hc; unfold counting_stats;
                     repeat (first [left; reflexivity | right]); fail).
    + rewrite Hfg. apply ratio_spec_nonneg.
    + rewrite Hft. apply ratio_spec_nonneg.
Qed.

Lemma simulate_team_error (draws : nat -> Q) (projections : Category -> Q)
    (k : nat) (e : PyError) :
  _simulate_team_performance draws projections k = Raise e -> e = ValueError.
Proof.
  unfold _simulate_team_performance.
  generalize (fun _ : Category => 0) as s0. revert k.
  induction stat_categories as [|x l IH]; intros k s0; [discriminate|].
  rewrite for_each_cons. unfold mbind, res_bind.
  destruct (simulate_stat draws x (projections x) k) as [[v k1]|e'] eqn:Ex.
  - apply IH.
  - apply simulate_stat_error in Ex as ->. congruence.
Qed.

(** With at least one trial, a negative entry in either projection stops the
    first trial. *)
Lemma run_negative (N : nat) (draws : nat -> Q) (k0 : nat) (my opp : Category -> Q)
    (c : Category) :
  N <> 0%nat -> my c < 0 \/ opp c < 0 ->
  _run_simulations N draws k0 my opp = Raise ValueError.
Proof.
  intros HN Hneg. unfold _run_simulations.
  destruct N as [|n]; [contradiction|]. cbn [seq]. rewrite for_each_cons, trial_step.
  destruct (_simulate_team_performance draws my k0) as [[mine k1]|e] eqn:Em.
  - destruct Hneg as [Hneg|Hneg].
    + rewrite (simulate_team_negative draws my c k0 Hneg) in Em. discriminate Em.
    + rewrite (simulate_team_negative draws opp c k1 Hneg). reflexivity.
  - apply simulate_team_error in Em as ->. reflexivity.
Qed.

End ProjectionFacts.

(** X3. The report keeps the details of the first [min(N, 100)] trials, in
    order and numbered from 1; each stored detail has category counts that are
    not negative and sum to at most nine, and holds the eighteen sampled
    values (mine and the opponent's for each category). *)
Theorem details_keep_first_hundred
    (N : nat) (draws : nat -> Q) (k0 : nat) (my opp : Simulation.Category -> Q)
    (r : Simulation.SimulationResults) (k : nat) :
  Simulation._run_simulations N draws k0 my opp = Ok (r, k) ->
  map Simulation.simulation (Simulation.details r)
  = map (fun i => (Z.of_nat i + 1)%Z) (seq 0 (min N 100)) /\
  Forall detail_well_formed (Simulation.details r).
Proof.
  intros Hrun.
  apply run_report in Hrun as (trials & _ & Hlen & _ & _ & _ & -> & _).
  destruct (tally_all_details trials 0 Simulation.tally0 (Forall_nil_2 _))
    as [Hwf Hmap].
  split; [|exact Hwf]. rewrite Hmap, Hlen. reflexivity.
Qed.

Lemma details_keep_first_hundred_witness :
  exists (r : Simulation.SimulationResults) (k : nat),
    Simulation._run_simulations 3 example_draws 0
      (Simulation._get_team_projections example_roster)
      (Simulation._get_team_projections example_opponents) = Ok (r, k) /\
    map Simulation.simulation (Simulation.details r) = [1; 2; 3]%Z.
Proof.
  destruct (Simulation._run_simulations 3 example_draws 0
              (Simulation._get_team_projections example_roster)
              (Simulation._get_team_projections example_opponents))
    as [[r k]|e] eqn:E.
  - exists r, k. split; [reflexivity|].
    exact (proj1 (details_keep_first_hundred _ _ _ _ _ _ _ E)).
  - vm_compute in E. discriminate E.
Defined.

(** X4. Whatever the draws, a sampled team line is never negative; a
    category whose projection is 0 is sampled as exactly 0; a sampled FG% or
    FT% never exceeds 1 and, when its projection is not 0, is at least 0.2. *)
Theorem simulated_stats_in_range
    (draws : nat -> Q) (projections : Simulation.Category -> Q) (k : nat)
    (s : Simulation.Category -> Q) (k' : nat) :
  Simulation._simulate_team_performance draws projections k = Ok (s, k') ->
  forall c : Simulation.Category,
    0 <= s c /\ (projections c == 0 -> s c = 0) /\
    (c = Simulation.fg_percentage \/ c = Simulation.ft_percentage ->
     s c <= 1 /\ (~ projections c == 0 -> 0.2 <= s c)).
Proof.
  intros H c. unfold Simulation._simulate_team_performance in H.
  pose proof (sampling_loop draws projections Simulation.stat_categories
                NoDup_stat_categories _ _ _ _ H c) as Hc.
  rewrite decide_True in Hc by apply elem_of_stat_categories.
  destruct Hc as (kc & kc' & Hc). exact (simulate_stat_range _ _ _ _ _ _ Hc).
Qed.

Lemma simulated_stats_in_range_witness :
  exists (s : Simulation.Category -> Q) (k' : nat),
    Simulation._simulate_team_performance example_draws
      (Simulation._get_team_projections example_roster) 0 = Ok (s, k') /\
    0 <= s Simulation.points /\ s Simulation.fg_percentage <= 1.
Proof.
  destruct (Simulation._simulate_team_performance example_draws
              (Simulation._get_team_projections example_roster) 0)
    as [[s k']|e] eqn:E.
  - exists s, k'. split; [reflexivity|].
    pose proof (simulated_stats_in_range _ _ _ _ _ E) as H.
    split; [exact (proj1 (H Simulation.points))|].
    exact (proj1 (proj2 (proj2 (H Simulation.fg_percentage)) (or_introl eq_refl))).
  - vm_compute in E. discriminate E.
Defined.

(** X5. In the report of [simulate_matchup], every category listed in the
    'improve_weakness' advice carries the strength label 'weak', and every
    category listed in the 'leverage_strength' advice carries the label
    'strong'; there is no other kind of advice. *)
Theorem matchup_advice_matches_strength
    (N : nat) (draws : nat -> Q) (k0 : nat) (my_roster opponent_roster : list Player)
    (rep : Simulation.MatchupReport) (k : nat) :
  Simulation.simulate_matchup N draws k0 my_roster opponent_roster = Ok (rep, k) ->
  forall (kind : string) (cats : list Simulation.Category) (c : Simulation.Category),
    (kind, cats) ∈ Simulation.recommendations rep -> c ∈ cats ->
    let label :=
      Simulation.strength (Simulation.category_breakdown (Simulation.results rep) c) in
    (kind = "improve_weakness" /\ label = "weak")
    \/ (kind = "leverage_strength" /\ label = "strong").
Proof.
  unfold Simulation.simulate_matchup. cbv zeta. unfold mbind, res_bind.
  destruct (Simulation._run_simulations N draws k0 _ _) as [[sr k1]|e] eqn:Hrun;
    [|discriminate].
  intros [= <- <-] kind cats c Hin Hc. cbn [Simulation.recommendations Simulation.results].
  cbn [Simulation.recommendations] in Hin.
  apply run_report in Hrun as (trials & _ & _ & _ & _ & Hrep & _).
  destruct (category_report_ok _ _ _ _ (Hrep c)) as (Hw & _ & _ & Hs).
  cbv zeta in Hw, Hs. rewrite Hs.
  set (share := inject_Z _ / _ * 100) in *.
  unfold Simulation._generate_matchup_recommendations in Hin. cbv zeta in Hin.
  apply elem_of_app in Hin as [Hin|Hin].
  - left. destruct (bool_decide _) in Hin; [exfalso; exact (not_elem_of_nil _ Hin)|].
    apply list_elem_of_singleton in Hin. injection Hin as -> ->.
    split; [reflexivity|].
    apply list_elem_of_filter in Hc as [Hc _]. rewrite Hw in Hc. qcompare.
    assert (share < 40) as Hlt.
    { destruct (Qlt_le_dec share 40) as [?|Hge]; [assumption|].
      apply (round_n_mono _ _ 1) in Hge.
      assert (Num.round_n 40 1 == 40) as E40 by (vm_compute; reflexivity). lra. }
    assert ((60 <? share) = false) as -> by (apply ltb_ge; lra).
    assert ((share <? 40) = true) as -> by (apply ltb_lt; exact Hlt).
    reflexivity.
  - right. destruct (bool_decide _) in Hin; [exfalso; exact (not_elem_of_nil _ Hin)|].
    apply list_elem_of_singleton in Hin. injection Hin as -> ->.
    split; [reflexivity|].
    apply list_elem_of_filter in Hc as [Hc _]. rewrite Hw in Hc. qcompare.
    assert (60 < share) as Hlt.
    { destruct (Qlt_le_dec 60 share) as [?|Hge]; [assumption|].
      apply (round_n_mono _ _ 1) in Hge.
      assert (Num.round_n 60 1 == 60) as E60 by (vm_compute; reflexivity). lra. }
    assert ((60 <? share) = true) as -> by (apply ltb_lt; exact Hlt).
    reflexivity.
Qed.

Lemma matchup_advice_matches_strength_witness :
  exists (rep : Simulation.MatchupReport) (k : nat),
    Simulation.simulate_matchup 3 example_draws 0 example_roster example_opponents
      = Ok (rep, k) /\
    Simulation.strength
      (Simulation.category_breakdown (Simulation.results rep) Simulation.steals)
    = "weak".
Proof.
  destruct (Simulation.simulate_matchup 3 example_draws 0 example_roster
              example_opponents) as [[rep k]|e] eqn:E;
    [|vm_compute in E; discriminate E].
  exists rep, k. split; [reflexivity|].
  assert (("improve_weakness"%string,
           [Simulation.steals; Simulation.blocks; Simulation.three_pointers_made;
            Simulation.fg_percentage; Simulation.ft_percentage])
          ∈ Simulation.recommendations rep) as Hin.
  { revert E. vm_compute. intros [= <- <-]. vm_compute. left. }
  destruct (matchup_advice_matches_strength _ _ _ _ _ _ _ E _ _ Simulation.steals Hin
              ltac:(left)) as [[_ H]|[H _]].
  - exact H.
  - discriminate H.
Defined.

(** X6. With at least one trial, [simulate_matchup] returns a report for
    every pair of rosters in which no stored counting stat is negative
    (missing keys, [None] values and empty rosters included); and whenever a
    team total is negative the call raises [ValueError], the refusal of a
    negative standard deviation by the normal sampler. *)
Theorem matchup_returns_on_nonnegative_stats
    (N : nat) (draws : nat -> Q) (k0 : nat) (my_roster opponent_roster : list Player) :
  N <> 0%nat ->
  (Forall counting_nonnegative my_roster ->
   Forall counting_nonnegative opponent_roster ->
   exists (rep : Simulation.MatchupReport) (k : nat),
     Simulation.simulate_matchup N draws k0 my_roster opponent_roster = Ok (rep, k)) /\
  (forall c : Simulation.Category,
     Simulation._get_team_projections my_roster c < 0
     \/ Simulation._get_team_projections opponent_roster c < 0 ->
     Simulation.simulate_matchup N draws k0 my_roster opponent_roster
     = Raise ValueError).
Proof.
  intros HN. split.
  - intros Hmy Hopp.
    destruct (run_returns N draws k0
                (Simulation._get_team_projections my_roster)
                (Simulation._get_team_projections opponent_roster) HN
                (fun c => team_projection_nonneg my_roster c Hmy)
                (fun c => team_projection_nonneg opponent_roster c Hopp))
      as (r & k & Hr).
    unfold Simulation.simulate_matchup. cbv zeta. rewrite Hr. cbn. eauto.
  - intros c Hneg. unfold Simulation.simulate_matchup. cbv zeta.
    rewrite (run_negative N draws k0 _ _ c HN Hneg). reflexivity.
Qed.

Lemma matchup_returns_on_nonnegative_stats_witness :
  exists (rep : Simulation.MatchupReport) (k : nat),
    Simulation.simulate_matchup 3 example_draws 0 example_roster example_opponents
    = Ok (rep, k).
Proof.
  apply (proj1 (matchup_returns_on_nonnegative_stats 3 example_draws 0
                  example_roster example_opponents ltac:(discriminate))).
  - repeat constructor; intros c v _ H; destruct c; vm_compute in H;
      try discriminate H; injection H as <-; vm_compute; discriminate.
  - repeat constructor; intros c v _ H; destruct c; vm_compute in H;
      try discriminate H; injection H as <-; vm_compute; discriminate.
Defined.

(** ** Roster order *)

Section OrderFacts.

Import Simulation.

(** The text before the first dash of a text without dash is the text. *)
Lemma primary_position_whole (pre : string) :
  (forall a b : string, pre <> a +:+ "-" +:+ b) -> App.primary_position pre = pre.
Proof.
  induction pre as [|c pre IH]; intros Hfree; [reflexivity|].
  cbn [App.primary_position]. destruct (bool_decide _) eqn:E.
  - apply bool_decide_eq_true in E. injection E as ->.
    destruct (Hfree "" pre). reflexivity.
  - f_equal. apply IH. intros a b ->. destruct (Hfree (String c a) b). reflexivity.
Qed.

Lemma primary_position_prefix (pre rest : string) :
  (forall a b : string, pre <> a +:+ "-" +:+ b) ->
  App.primary_position (pre +:+ "-" +:+ rest) = pre.
Proof.
  induction pre as [|c pre IH]; intros Hfree; [reflexivity|].
  change (String c pre +:+ "-" +:+ rest) with (String c (pre +:+ "-" +:+ rest)).
  cbn [App.primary_position]. destruct (bool_decide _) eqn:E.
  - apply bool_decide_eq_true in E. injection E as ->.
    destruct (Hfree "" pre). reflexivity.
  - f_equal. apply IH. intros a b ->. destruct (Hfree (String c a) b). reflexivity.
Qed.

(** [split('-')[0]] returns the primary position and nothing else. *)
Lemma primary_of_unique (text pre : string) :
  primary_of text pre -> App.primary_position text = pre.
Proof.
  intros [Hfree [->|[rest ->]]].
  - exact (primary_position_whole pre Hfree).
  - exact (primary_position_prefix pre rest Hfree).
Qed.

Lemma primary_of_primary_position (text : string) :
  primary_of text (App.primary_position text).
Proof.
  induction text as [|c text [Hfree Hshape]].
  - split; [|left; reflexivity]. intros [|c a] b; discriminate.
  - cbn [App.primary_position]. destruct (bool_decide _) eqn:E.
    + apply bool_decide_eq_true in E. injection E as ->. split.
      * intros [|c a] b; discriminate.
      * right. exists text. reflexivity.
    + apply bool_decide_eq_false in E. split.
      * intros [|c' a] b H; cbn [String.append] in H.
        -- injection H as -> _. apply E. reflexivity.
        -- injection H as _ H. exact (Hfree a b H).
      * destruct Hshape as [Hw|[rest Hr]].
        -- left. f_equal. exact Hw.
        -- right. exists rest.
           change (String c text
                   = String c (App.primary_position text +:+ "-" +:+ rest)).
           f_equal. exact Hr.
Qed.

(** The table [position_order] is the place in the lineup. *)
Lemma position_order_rank (pos : string) :
  App.position_order pos = lineup_rank pos.
Proof.
  unfold App.position_order, lineup_rank, lineup. cbn [list_find].
  repeat (destruct (decide (_ = pos)) as [<-|?];
          [repeat match goal with
                  | |- context [bool_decide (?a = ?b)] =>
                      first [rewrite (bool_decide_eq_true_2 (a = b)) by reflexivity
                            |rewrite (bool_decide_eq_false_2 (a = b)) by discriminate]
                  end; reflexivity|]).
  rewrite !bool_decide_eq_false_2 by congruence. reflexivity.
Qed.

Lemma key_has_rank (p : Player) : has_rank p (App.get_position_sort_key p).
Proof.
  exists (App.primary_position (default "C" (position p))). split.
  - apply primary_of_primary_position.
  - apply position_order_rank.
Qed.

Lemma has_rank_key (p : Player) (r : Z) :
  has_rank p r -> r = App.get_position_sort_key p.
Proof.
  intros (pre & Hpre & ->). unfold App.get_position_sort_key.
  rewrite (primary_of_unique _ _ Hpre), position_order_rank. reflexivity.
Qed.

Lemma sort_roster_perm (roster : list Player) :
  App.sort_roster_by_position roster ≡ₚ roster.
Proof.
  unfold App.sort_roster_by_position.
  rewrite sort_by_perm, map_map. cbn [snd]. rewrite map_id. reflexivity.
Qed.

Lemma sorted_by_position_key (l : list (Q * Player)) :
  Forall (fun x => x.1 = inject_Z (App.get_position_sort_key x.2)) l ->
  Sorted (key_ordered false) l -> Sorted position_ordered (map snd l).
Proof.
  intros Hk Hs. induction Hs as [|x l Hs IH Hhd]; cbn [map]; [constructor|].
  apply Forall_cons in Hk as [Hx Hk].
  constructor; [exact (IH Hk)|].
  destruct Hhd as [|y l' Hy]; cbn [map]; constructor.
  apply Forall_cons in Hk as [Hy' _].
  intros rp rq Hp Hq. apply has_rank_key in Hp, Hq. subst rp rq.
  unfold key_ordered in Hy. rewrite Hx, Hy' in Hy.
  rewrite Zle_Qle. exact Hy.
Qed.

Lemma sort_roster_sorted (roster : list Player) :
  StronglySorted position_ordered (App.sort_roster_by_position roster).
Proof.
  apply Sorted_StronglySorted.
  { intros p q r Hpq Hqr rp rr Hp Hr.
    pose proof (Hpq _ _ Hp (key_has_rank q)). pose proof (Hqr _ _ (key_has_rank q) Hr).
    lia. }
  unfold App.sort_roster_by_position.
  apply sorted_by_position_key; [|apply sort_by_sorted].
  rewrite sort_by_perm. apply Forall_forall. intros x Hx.
  apply list_elem_of_In, in_map_iff in Hx as (p & <- & _). reflexivity.
Qed.

(** The sort is stable: inserting a player passes over players of a lower
    rank only. *)
Lemma insert_keyed_filter (r : Z) (x : Q * Player) (l : list (Q * Player)) :
  x.1 = inject_Z (App.get_position_sort_key x.2) ->
  Forall (fun y => y.1 = inject_Z (App.get_position_sort_key y.2)) l ->
  filter (fun y => App.get_position_sort_key y.2 = r)
    (Recommendation.insert_by false x l)
  = filter (fun y => App.get_position_sort_key y.2 = r) (x :: l).
Proof.
  intros Hx Hl. induction Hl as [|y l Hy Hl IH]; [reflexivity|].
  cbn [Recommendation.insert_by]. destruct (y.1 <? x.1) eqn:E; [|reflexivity].
  apply ltb_lt in E. rewrite Hx, Hy, <- Zlt_Qlt in E.
  rewrite (filter_cons _ y), IH, (filter_cons _ x (y :: l)), !(filter_cons _ x l),
    (filter_cons _ y l).
  destruct (decide (App.get_position_sort_key y.2 = r)) as [Ey|Ey];
    destruct (decide (App.get_position_sort_key x.2 = r)) as [Ex|Ex];
    try reflexivity.
  exfalso. lia.
Qed.

Lemma sort_keyed_filter (r : Z) (l : list (Q * Player)) :
  Forall (fun y => y.1 = inject_Z (App.get_position_sort_key y.2)) l ->
  filter (fun y => App.get_position_sort_key y.2 = r) (Recommendation.sort_by false l)
  = filter (fun y => App.get_position_sort_key y.2 = r) l.
Proof.
  unfold Recommendation.sort_by. induction 1 as [|x l Hx Hl IH]; [reflexivity|].
  cbn [foldr]. rewrite insert_keyed_filter.
  - rewrite !filter_cons, IH. reflexivity.
  - exact Hx.
  - fold (Recommendation.sort_by false l). rewrite sort_by_perm. exact Hl.
Qed.

Lemma filter_snd {A : Type} (P : Player -> Prop) `{!forall p, Decision (P p)}
    (l : list (A * Player)) :
  filter P (map snd l) = map snd (filter (fun y => P y.2) l).
Proof.
  induction l as [|y l IH]; [reflexivity|].
  cbn [map]. rewrite !filter_cons. destruct (decide (P y.2)); cbn [map]; rewrite IH;
    reflexivity.
Qed.

Lemma sort_roster_stable (roster : list Player) (r : Z) :
  filter (fun p => App.get_position_sort_key p = r) (App.sort_roster_by_position roster)
  = filter (fun p => App.get_position_sort_key p = r) roster.
Proof.
  unfold App.sort_roster_by_position. rewrite filter_snd, sort_keyed_filter.
  - induction roster as [|p roster IH]; [reflexivity|].
    cbn [map]. rewrite !filter_cons. cbn [snd].
    destruct (decide (App.get_position_sort_key p = r)); cbn [map snd]; rewrite IH;
      reflexivity.
  - apply Forall_forall. intros x Hx.
    apply list_elem_of_In, in_map_iff in Hx as (p & <- & _). reflexivity.
Qed.

(** Weighted makes over weighted attempts stay between the lowest and the
    highest rate of the players that count. *)
Lemma ratio_spec_between rate attempts (roster : list Player) (lo hi : Q) :
  let counted :=
    shooters rate attempts (map _get_sample_player_projections roster) in
  counted <> [] ->
  (forall pp, pp ∈ counted -> lo <= rate pp /\ rate pp <= hi) ->
  lo <= ratio_spec rate attempts roster /\ ratio_spec rate attempts roster <= hi.
Proof.
  cbv zeta. intros Hne Hb. unfold ratio_spec. cbv zeta.
  set (counted := shooters rate attempts (map _get_sample_player_projections roster))
    in *.
  assert (forall l, (forall pp, pp ∈ l -> pp ∈ counted) ->
            lo * total attempts l <= total (fun pp => rate pp * attempts pp) l
            /\ total (fun pp => rate pp * attempts pp) l <= hi * total attempts l
            /\ (l <> [] -> 0 < total attempts l)) as Hsum.
  { induction l as [|pp l IH]; intros Hl.
    - rewrite !total_nil. split; [lra|]. split; [lra|]. congruence.
    - rewrite !total_cons.
      destruct IH as (I1 & I2 & I3); [intros q Hq; apply Hl; right; exact Hq|].
      assert (pp ∈ counted) as Hpp by (apply Hl; left).
      destruct (Hb pp Hpp) as [B1 B2].
      apply list_elem_of_filter in Hpp as [Hcount _].
      unfold counts in Hcount. apply andb_true_iff in Hcount as [_ Hatt]. qcompare.
      assert (0 <= total attempts l) as Hnn.
      { destruct l; [rewrite total_nil; lra|].
        apply Qlt_le_weak, I3. discriminate. }
      split; [nra|]. split; [nra|]. intros _. lra. }
  destruct (Hsum counted (fun _ H => H)) as (H1 & H2 & H3).
  specialize (H3 Hne).
  assert ((total attempts counted =? 0) = false) as -> by (apply eqb_neq; lra).
  split; [apply Qle_shift_div_l | apply Qle_shift_div_r]; lra.
Qed.

(** With no rate above 1, weighted makes over weighted attempts are at most
    1. *)
Lemma ratio_spec_at_most_one rate attempts (roster : list Player) :
  (forall p, p ∈ roster -> rate (_get_sample_player_projections p) <= 1) ->
  ratio_spec rate attempts roster <= 1.
Proof.
  intros Hb.
  destruct (shooters rate attempts (map _get_sample_player_projections roster))
    as [|pp counted] eqn:E.
  - unfold ratio_spec. cbv zeta. rewrite E, total_nil.
    assert ((0 =? 0) = true) as -> by (apply eqb_eq; reflexivity). lra.
  - apply (ratio_spec_between rate attempts roster 0 1).
    + rewrite E. discriminate.
    + intros x Hx. apply list_elem_of_filter in Hx as [Hcount Hx].
      unfold counts in Hcount. apply andb_true_iff in Hcount as [Hrate _]. qcompare.
      apply list_elem_of_fmap in Hx as (p & -> & Hp).
      split; [lra|exact (Hb p Hp)].
Qed.

End OrderFacts.

(** ** Points leagues *)

Section PointsFacts.

Import Simulation.

Lemma fantasy_points_of_zero (stats : Category -> Q)
    (scoring_settings : list (string * Q)) :
  (forall c, stats c == 0) -> _calculate_fantasy_points stats scoring_settings == 0.
Proof.
  intros Hz. unfold _calculate_fantasy_points.
  assert (forall acc, acc == 0 ->
            fold_left
              (fun total_points '(stat, points_per) =>
                 match category_of_key stat with
                 | Some c => total_points + stats c * points_per
                 | None => total_points
                 end) scoring_settings acc == 0) as H.
  { induction scoring_settings as [|[stat points_per] rest IH]; intros acc Hacc.
    - exact Hacc.
    - cbn [fold_left]. apply IH.
      destruct (category_of_key stat) as [c|]; [|exact Hacc].
      rewrite (Hz c), Hacc. lra. }
  apply H. reflexivity.
Qed.

End PointsFacts.

(** ** Team projections and the roster order *)

(** X8. [sort_roster_by_position], which the matchup pages apply to both
    rosters, sorts by a key that is the rank of the player's primary position
    (the text before the first dash; 'C' for a player without position): 1
    for PG, 2 for SG, 3 for SF, 4 for PF, 5 for C and 6 for anything else. It
    returns the same players, no player ranking after a later one, and
    players of the same rank keep the order they had in the roster. *)
Theorem position_sort_is_stable_lineup_order (roster : list Player) :
  (forall p : Player, has_rank p (App.get_position_sort_key p)) /\
  App.sort_roster_by_position roster ≡ₚ roster /\
  StronglySorted position_ordered (App.sort_roster_by_position roster) /\
  (forall r : Z,
     filter (fun p => App.get_position_sort_key p = r)
       (App.sort_roster_by_position roster)
     = filter (fun p => App.get_position_sort_key p = r) roster).
Proof.
  split; [exact key_has_rank|].
  split; [apply sort_roster_perm|]. split; [apply sort_roster_sorted|].
  intros r. apply sort_roster_stable.
Qed.

(** X9. Team FG% and FT% are never negative, and they do not exceed 1 when
    no player of the roster enters with a rate above 1 (the stored
    percentage, or the placeholder for a missing one). *)
Theorem team_percentage_between_zero_and_one (roster : list Player) :
  (0 <= Simulation._get_team_projections roster Simulation.fg_percentage
   /\ 0 <= Simulation._get_team_projections roster Simulation.ft_percentage) /\
  ((forall p, p ∈ roster -> stat_line p Simulation.fg_percentage <= 1) ->
   Simulation._get_team_projections roster Simulation.fg_percentage <= 1) /\
  ((forall p, p ∈ roster -> stat_line p Simulation.ft_percentage <= 1) ->
   Simulation._get_team_projections roster Simulation.ft_percentage <= 1).
Proof.
  destruct (team_ratio roster) as [Hfg Hft].
  split; [|split].
  - rewrite Hfg, Hft. split; apply ratio_spec_nonneg.
  - intros Hb. rewrite Hfg.
    apply (ratio_spec_at_most_one fg_rate Simulation.proj_fg_attempts roster).
    intros p Hp. unfold fg_rate. rewrite projection_stat_line. exact (Hb p Hp).
  - intros Hb. rewrite Hft.
    apply (ratio_spec_at_most_one ft_rate Simulation.proj_ft_attempts roster).
    intros p Hp. unfold ft_rate. rewrite projection_stat_line. exact (Hb p Hp).
Qed.

Lemma team_percentage_between_zero_and_one_witness :
  Simulation._get_team_projections [hot_hand; volume_shooter]
    Simulation.fg_percentage <= 1.
Proof.
  apply (proj1 (proj2 (team_percentage_between_zero_and_one
                         [hot_hand; volume_shooter]))).
  intros p Hp.
  apply elem_of_cons in Hp as [->|Hp];
    [|apply list_elem_of_singleton in Hp as ->];
    vm_compute; discriminate.
Defined.

(** ** Points leagues *)

(** X10. [simulate_points_league] scores a trial for me only when my fantasy
    points are strictly higher: with at least one trial and two empty rosters
    it returns, whatever the draws and the scoring settings, a win
    probability of 0 (where [simulate_matchup] reports 50) and projected
    points of 0 for both teams, without reading a draw. *)
Theorem points_league_scores_ties_as_losses
    (N : nat) (draws : nat -> Q) (k0 : nat) (scoring_settings : list (string * Q)) :
  N <> 0%nat ->
  exists r : Simulation.PointsReport,
    Simulation.simulate_points_league N draws k0 [] [] scoring_settings = Ok (r, k0) /\
    Simulation.points_win_probability r == 0 /\
    Simulation.projected_points r == 0 /\
    Simulation.opponent_projected_points r == 0.
Proof.
  intros HN. unfold Simulation.simulate_points_league.
  match goal with
  | |- context [for_each ?body (seq 0 N) _] =>
      assert (forall (n s : nat) (my_points opp_points : Z) (k : nat),
                for_each body (seq s n) (my_points, opp_points, k)
                = Ok (my_points, (opp_points + Z.of_nat n)%Z, k)) as Hloop
  end.
  { induction n as [|n IH]; intros s my_points opp_points k.
    - cbn [seq for_each]. rewrite Z.add_0_r. reflexivity.
    - cbn [seq]. rewrite for_each_cons, empty_roster_projection.
      unfold mbind at 1 2, res_bind at 1 2.
      rewrite zero_sample_drawn. cbv beta iota zeta.
      rewrite zero_sample_drawn. cbv beta iota zeta.
      assert ((Simulation._calculate_fantasy_points zero_sample scoring_settings
               <? Simulation._calculate_fantasy_points zero_sample scoring_settings)
              = false) as -> by (apply ltb_ge; lra).
      rewrite <- empty_roster_projection, IH. f_equal. f_equal. f_equal. lia. }
  rewrite Hloop. unfold mbind at 1, res_bind at 1. cbv beta iota.
  destruct N as [|n]; [contradiction|]. cbn [Simulation.divide mbind res_bind].
  eexists. split; [reflexivity|].
  cbn [Simulation.points_win_probability Simulation.projected_points
       Simulation.opponent_projected_points].
  split; [|split].
  - assert (inject_Z 0 / inject_Z (Z.of_nat (S n)) * 100 == 0) as E.
    { unfold Qdiv. change (inject_Z 0) with 0. lra. }
    rewrite (round_n_compat _ _ 1 E). vm_compute. reflexivity.
  - apply fantasy_points_of_zero. intros c. destruct c; reflexivity.
  - apply fantasy_points_of_zero. intros c. destruct c; reflexivity.
Qed.

Lemma points_league_scores_ties_as_losses_witness :
  exists r : Simulation.PointsReport,
    Simulation.simulate_points_league 100 example_draws 0 [] []
      [("points"%string, 1); ("rebounds"%string, 1.2)] = Ok (r, 0%nat) /\
    Simulation.points_win_probability r == 0 /\
    Simulation.projected_points r == 0 /\
    Simulation.opponent_projected_points r == 0.
Proof.
  apply (points_league_scores_ties_as_losses 100 example_draws 0). discriminate.
Defined.

(** ** Order of the credit *)

Section CreditOrderFacts.

Lemma tier_credit_mono (s1 s2 : Q) :
  s1 <= s2 -> Draft.tier_credit s1 <= Draft.tier_credit s2.
Proof.
  intros H. unfold Draft.tier_credit, Num.min, Num.max.
  repeat match goal with
  | |- context [?a <=? ?b] => destruct (a <=? b) eqn:?
  | |- context [?a <? ?b] => destruct (a <? b) eqn:?
  end; qcompare; lra.
Qed.

Lemma tier_credit_at_least_one (s : Q) : 1 <= Draft.tier_credit s.
Proof.
  unfold Draft.tier_credit, Num.min, Num.max.
  repeat match goal with
  | |- context [?a <=? ?b] => destruct (a <=? b) eqn:?
  | |- context [?a <? ?b] => destruct (a <? b) eqn:?
  end; qcompare; lra.
Qed.

Lemma tier_credit_low (s : Q) : s <= 0 -> Draft.tier_credit s == 1.
Proof.
  intros H. unfold Draft.tier_credit, Num.max.
  repeat match goal with
  | |- context [?a <=? ?b] => destruct (a <=? b) eqn:?
  | |- context [?a <? ?b] => destruct (a <? b) eqn:?
  end; qcompare; lra.
Qed.

Lemma minutes_adjust_mono (m1 m2 c1 c2 : Q) :
  0 <= m1 -> m1 <= m2 -> 0 <= c1 -> c1 <= c2 ->
  Draft.minutes_adjust m1 c1 <= Draft.minutes_adjust m2 c2.
Proof.
  intros H0 Hm Hc0 Hc. unfold Draft.minutes_adjust.
  assert (m1 / 28 == m1 * (1 # 28)) as E1 by (unfold Qdiv; reflexivity).
  assert (m2 / 28 == m2 * (1 # 28)) as E2 by (unfold Qdiv; reflexivity).
  destruct (m1 <? 28) eqn:A1; destruct (m2 <? 28) eqn:A2; qcompare;
    rewrite ?E1, ?E2; nra.
Qed.

Lemma minutes_adjust_at_most (m c : Q) :
  0 <= m -> 0 <= c -> Draft.minutes_adjust m c <= c.
Proof.
  intros H0 Hc. unfold Draft.minutes_adjust.
  assert (m / 28 == m * (1 # 28)) as E by (unfold Qdiv; reflexivity).
  destruct (m <? 28) eqn:A; qcompare; rewrite ?E; nra.
Qed.

Lemma clamp_mono (x y : Q) :
  x <= y ->
  (Z.max 1 (Z.min 70 (Num.round x)) <= Z.max 1 (Z.min 70 (Num.round y)))%Z.
Proof. intros H. apply round_mono in H. lia. Qed.

(** What a returned credit was computed from. *)
Lemma credit_cases (stats : Stats) (minutes : Q) (c : Z) :
  Draft.calculate_player_credit stats minutes = Ok c ->
  (c = 1%Z /\ (stats = ∅ \/ minutes < 10))
  \/ (stats <> ∅ /\ 10 <= minutes /\
      exists score,
        Draft.composite_score stats = Ok score /\
        c = Z.max 1 (Z.min 70 (Num.round
              (Draft.minutes_adjust minutes (Draft.tier_credit score))))).
Proof.
  unfold Draft.calculate_player_credit, Draft.credit_before_clamp, stats_empty.
  destruct (bool_decide (stats = ∅)) eqn:Es.
  { apply bool_decide_eq_true in Es. intros [= <-]. left. auto. }
  apply bool_decide_eq_false in Es.
  destruct (minutes <? 10) eqn:Em; qcompare.
  { intros [= <-]. left. auto. }
  destruct (Draft.composite_score stats) as [score|e]; cbn; [|discriminate].
  intros [= <-]. right. eauto 6.
Qed.

End CreditOrderFacts.

Section CompositeFacts.

Lemma py_get_insert_same (stats : Stats) (key : string) (x d : option Q) :
  py_get (<[key := x]> stats) key d = x.
Proof. unfold py_get. rewrite lookup_insert_eq. reflexivity. Qed.

Lemma py_get_insert_other (stats : Stats) (i key : string) (x d : option Q) :
  i <> key -> py_get (<[i := x]> stats) key d = py_get stats key d.
Proof. intros H. unfold py_get. rewrite lookup_insert_ne by exact H. reflexivity. Qed.

Lemma numeric_insert (stats : Stats) (key : string) (v : Q) :
  numeric stats -> numeric (<[key := Some v]> stats).
Proof.
  intros Hn k. destruct (decide (key = k)) as [->|Hne].
  - rewrite lookup_insert_eq. discriminate.
  - rewrite lookup_insert_ne by exact Hne. apply Hn.
Qed.

(** The composite score grows with the stored points and falls with the
    stored turnovers. *)
Lemma composite_score_order (stats : Stats) (a b s1 s2 t1 t2 : Q) :
  numeric stats -> a <= b ->
  Draft.composite_score (<["points" := Some a]> stats) = Ok s1 ->
  Draft.composite_score (<["points" := Some b]> stats) = Ok s2 ->
  Draft.composite_score (<["turnovers" := Some a]> stats) = Ok t1 ->
  Draft.composite_score (<["turnovers" := Some b]> stats) = Ok t2 ->
  s1 <= s2 /\ t2 <= t1.
Proof.
  intros Hn Hab H1 H2 H3 H4. unfold Draft.composite_score in H1, H2, H3, H4.
  rewrite py_get_insert_same in H1, H2, H3, H4.
  rewrite !py_get_insert_other in H1, H2, H3, H4 by discriminate.
  repeat match goal with
  | H : context [as_num (py_get stats ?k (Some ?d))] |- _ =>
      let q := fresh "q" in let E := fresh "E" in
      destruct (numeric_get stats k d Hn) as [q E]; rewrite E in *
  end.
  cbn in H1, H2, H3, H4.
  injection H1 as <-. injection H2 as <-. injection H3 as <-. injection H4 as <-.
  repeat match goal with
  | |- context [if ?c then _ else _] => destruct c
  end; split; lra.
Qed.

(** At equal minutes the credit follows the order of the composite scores. *)
Lemma credit_order_by_score
    (stats1 stats2 : Stats) (minutes score1 score2 : Q) (c1 c2 : Z) :
  Draft.composite_score stats1 = Ok score1 ->
  Draft.composite_score stats2 = Ok score2 ->
  score1 <= score2 ->
  Draft.calculate_player_credit stats1 minutes = Ok c1 ->
  Draft.calculate_player_credit stats2 minutes = Ok c2 ->
  (c1 <= c2)%Z.
Proof.
  intros Hs1 Hs2 Hs H1 H2.
  pose proof (credit_in_range _ _ _ H2) as R2.
  apply credit_cases in H1 as [[-> _]|(Hne & Hm1 & s1 & Hs1' & ->)]; [lia|].
  rewrite Hs1 in Hs1'. injection Hs1' as <-.
  apply credit_cases in H2 as [[-> [He|Hlt]]|(_ & _ & s2 & Hs2' & ->)].
  - subst stats2. vm_compute in Hs2. injection Hs2 as <-.
    assert (score1 <= 0) as Hlow by (revert Hs; unfold Qle; cbn; lia).
    pose proof (tier_credit_low score1 Hlow) as Ht.
    assert (Draft.minutes_adjust minutes (Draft.tier_credit score1) <= 1) as Hle.
    { pose proof (minutes_adjust_at_most minutes (Draft.tier_credit score1)). lra. }
    apply round_mono in Hle. change (Num.round 1) with 1%Z in Hle. lia.
  - exfalso. lra.
  - rewrite Hs2 in Hs2'. injection Hs2' as <-.
    pose proof (tier_credit_at_least_one score1).
    pose proof (tier_credit_mono score1 score2 Hs).
    apply clamp_mono, minutes_adjust_mono; lra.
Qed.

End CompositeFacts.

(** ** Order properties of the credit *)

(** X11. More playing time never lowers the credit: for the same stats, the
    credit returned for more minutes per game is at least the credit returned
    for fewer. *)
Theorem credit_grows_with_minutes (stats : Stats) (m1 m2 : Q) (c1 c2 : Z) :
  m1 <= m2 ->
  Draft.calculate_player_credit stats m1 = Ok c1 ->
  Draft.calculate_player_credit stats m2 = Ok c2 ->
  (c1 <= c2)%Z.
Proof.
  intros Hm H1 H2.
  pose proof (credit_in_range _ _ _ H2) as R2.
  apply credit_cases in H1 as [[-> _]|(Hne & Hm1 & s1 & Hs1 & ->)]; [lia|].
  apply credit_cases in H2 as [[_ [He|Hlt]]|(_ & Hm2 & s2 & Hs2 & ->)].
  - contradiction.
  - exfalso. lra.
  - rewrite Hs1 in Hs2. injection Hs2 as <-.
    pose proof (tier_credit_at_least_one s1).
    apply clamp_mono, minutes_adjust_mono; lra.
Qed.

Lemma credit_grows_with_minutes_witness :
  exists c1 c2 : Z,
    Draft.calculate_player_credit starter_stats 21 = Ok c1 /\
    Draft.calculate_player_credit starter_stats 30 = Ok c2 /\
    (c1 <= c2)%Z.
Proof.
  destruct (Draft.calculate_player_credit starter_stats 21) as [c1|e] eqn:E1;
    [|vm_compute in E1; discriminate E1].
  destruct (Draft.calculate_player_credit starter_stats 30) as [c2|e] eqn:E2;
    [|vm_compute in E2; discriminate E2].
  exists c1, c2. split; [reflexivity|]. split; [reflexivity|].
  apply (credit_grows_with_minutes starter_stats 21 30 c1 c2);
    [vm_compute; discriminate | exact E1 | exact E2].
Defined.

(** X12. A higher composite score never gives a lower credit: at equal
    minutes, of two stats mappings the one whose weighted composite is higher
    gets a credit that is at least as high. *)
Theorem credit_grows_with_score
    (stats1 stats2 : Stats) (minutes score1 score2 : Q) (c1 c2 : Z) :
  Draft.composite_score stats1 = Ok score1 ->
  Draft.composite_score stats2 = Ok score2 ->
  score1 <= score2 ->
  Draft.calculate_player_credit stats1 minutes = Ok c1 ->
  Draft.calculate_player_credit stats2 minutes = Ok c2 ->
  (c1 <= c2)%Z.
Proof. apply credit_order_by_score. Qed.

Lemma credit_grows_with_score_witness :
  exists c1 c2 : Z,
    Draft.calculate_player_credit
      {[ "points" := Some 10; "rebounds" := Some 8 ]} 30 = Ok c1 /\
    Draft.calculate_player_credit starter_stats 30 = Ok c2 /\
    (c1 <= c2)%Z.
Proof.
  destruct (Draft.calculate_player_credit
              {[ "points" := Some 10; "rebounds" := Some 8 ]} 30)
    as [c1|e] eqn:E1; [|vm_compute in E1; discriminate E1].
  destruct (Draft.calculate_player_credit starter_stats 30) as [c2|e] eqn:E2;
    [|vm_compute in E2; discriminate E2].
  exists c1, c2. split; [reflexivity|]. split; [reflexivity|].
  destruct (Draft.composite_score {[ "points" := Some 10; "rebounds" := Some 8 ]})
    as [s1|e] eqn:S1; [|vm_compute in S1; discriminate S1].
  destruct (Draft.composite_score starter_stats) as [s2|e] eqn:S2;
    [|vm_compute in S2; discriminate S2].
  apply (credit_grows_with_score _ _ 30 s1 s2 c1 c2 S1 S2); [|exact E1 | exact E2].
  vm_compute in S1. vm_compute in S2. injection S1 as <-. injection S2 as <-.
  vm_compute. discriminate.
Defined.

(** X13. On stats that hold only numbers, storing more points never lowers
    the credit and storing more turnovers never raises it, everything else
    and the minutes being equal; in both cases a credit is returned. *)
Theorem credit_rewards_points_and_penalises_turnovers
    (stats : Stats) (minutes a b : Q) :
  numeric stats -> a <= b ->
  (exists c1 c2 : Z,
     Draft.calculate_player_credit (<["points" := Some a]> stats) minutes = Ok c1 /\
     Draft.calculate_player_credit (<["points" := Some b]> stats) minutes = Ok c2 /\
     (c1 <= c2)%Z) /\
  (exists c1 c2 : Z,
     Draft.calculate_player_credit (<["turnovers" := Some a]> stats) minutes = Ok c1 /\
     Draft.calculate_player_credit (<["turnovers" := Some b]> stats) minutes = Ok c2 /\
     (c2 <= c1)%Z).
Proof.
  intros Hn Hab.
  destruct (composite_score_defined _ (numeric_insert stats "points" a Hn)) as [s1 H1].
  destruct (composite_score_defined _ (numeric_insert stats "points" b Hn)) as [s2 H2].
  destruct (composite_score_defined _ (numeric_insert stats "turnovers" a Hn))
    as [t1 H3].
  destruct (composite_score_defined _ (numeric_insert stats "turnovers" b Hn))
    as [t2 H4].
  destruct (composite_score_order stats a b s1 s2 t1 t2 Hn Hab H1 H2 H3 H4) as [Hs Ht].
  destruct (credit_bounds_on_numbers _ minutes (numeric_insert stats "points" a Hn))
    as (c1 & C1 & _).
  destruct (credit_bounds_on_numbers _ minutes (numeric_insert stats "points" b Hn))
    as (c2 & C2 & _).
  destruct (credit_bounds_on_numbers _ minutes (numeric_insert stats "turnovers" a Hn))
    as (d1 & D1 & _).
  destruct (credit_bounds_on_numbers _ minutes (numeric_insert stats "turnovers" b Hn))
    as (d2 & D2 & _).
  split.
  - exists c1, c2. split; [exact C1|]. split; [exact C2|].
    exact (credit_order_by_score _ _ minutes s1 s2 c1 c2 H1 H2 Hs C1 C2).
  - exists d1, d2. split; [exact D1|]. split; [exact D2|].
    exact (credit_order_by_score _ _ minutes t2 t1 d2 d1 H4 H3 Ht D2 D1).
Qed.

Lemma credit_rewards_points_and_penalises_turnovers_witness :
  exists c1 c2 : Z,
    Draft.calculate_player_credit (<["points" := Some 12]> starter_stats) 30 = Ok c1 /\
    Draft.calculate_player_credit (<["points" := Some 31]> starter_stats) 30 = Ok c2 /\
    (c1 <= c2)%Z.
Proof.
  apply (proj1 (credit_rewards_points_and_penalises_turnovers starter_stats 30 12 31
                  ltac:(intros key Hk; apply elem_of_map_to_list in Hk;
                        vm_compute in Hk;
                        repeat (apply elem_of_cons in Hk as [Hk|Hk];
                                [discriminate Hk|]);
                        exact (not_elem_of_nil _ Hk))
                  ltac:(vm_compute; discriminate))).
Defined.

(** ** Fantasy value *)

Section ValueFacts.

Import Draft.

Lemma lookup_item_elem {V : Type} (key : string) (items : list (string * V)) (v : V) :
  lookup_item key items = Some v -> (key, v) ∈ items.
Proof.
  induction items as [|[k x] rest IH]; cbn [lookup_item]; [discriminate|].
  destruct (bool_decide (k = key)) eqn:E.
  - apply bool_decide_eq_true in E as ->. intros [= ->]. left.
  - intros H. right. exact (IH H).
Qed.

Lemma lookup_item_None {V : Type} (key : string) (items : list (string * V)) :
  key ∉ map fst items -> lookup_item key items = None.
Proof.
  induction items as [|[k x] rest IH]; cbn [lookup_item map fst]; [reflexivity|].
  intros H. apply not_elem_of_cons in H as [Hne H].
  rewrite bool_decide_eq_false_2 by congruence. exact (IH H).
Qed.

Lemma lookup_item_Some {V : Type} (key : string) (items : list (string * V)) (v : V) :
  NoDup (map fst items) -> (key, v) ∈ items -> lookup_item key items = Some v.
Proof.
  induction items as [|[k x] rest IH]; cbn [lookup_item map fst]; intros Hnd Hin.
  - exfalso. exact (not_elem_of_nil _ Hin).
  - apply NoDup_cons in Hnd as [Hk Hnd].
    apply elem_of_cons in Hin as [[= <- <-]|Hin].
    + rewrite bool_decide_eq_true_2 by reflexivity. reflexivity.
    + rewrite bool_decide_eq_false_2; [exact (IH Hnd Hin)|].
      intros ->. apply Hk. apply list_elem_of_In, in_map_iff.
      exists (key, v). split; [reflexivity | apply list_elem_of_In, Hin].
Qed.

(** On items whose scored values are numbers the loop adds the
    scored_contributions. *)
Lemma add_scored_total (items : list (string * option Q)) :
  (forall key weight, lookup_item key scoring_weights = Some weight ->
                      (key, None) ∉ items) ->
  forall acc : Q,
  exists v,
    for_each
      (fun fantasy_value '(category, value) =>
         match lookup_item category scoring_weights with
         | Some weight => v ← as_num value; Ok (fantasy_value + v * weight)
         | None => Ok fantasy_value
         end)
      items acc = Ok v
    /\ v == acc + total scored_contribution items.
Proof.
  induction items as [|[k x] rest IH]; intros Hnum acc.
  - exists acc. split; [reflexivity|]. rewrite total_nil. lra.
  - rewrite for_each_cons, total_cons. unfold scored_contribution at 1. cbn [fst snd].
    assert (forall key weight, lookup_item key scoring_weights = Some weight ->
                               (key, None) ∉ rest) as Hrest.
    { intros key weight Hk Hin. apply (Hnum key weight Hk). right. exact Hin. }
    destruct (lookup_item k scoring_weights) as [weight|] eqn:Ek.
    + destruct x as [q|]; [|exfalso; apply (Hnum k weight Ek); left].
      destruct (IH Hrest (acc + q * weight)) as (v & Hfor & Hv).
      exists v. split; [exact Hfor|]. rewrite Hv. cbn [default id]. lra.
    + destruct (IH Hrest acc) as (v & Hfor & Hv).
      exists v. split; [exact Hfor|]. rewrite Hv. lra.
Qed.

(** A scored category that holds [None] stops the loop. *)
Lemma add_scored_error (items : list (string * option Q)) (key : string)
    (weight : Q) :
  lookup_item key scoring_weights = Some weight -> (key, None) ∈ items ->
  forall acc : Q,
    for_each
      (fun fantasy_value '(category, value) =>
         match lookup_item category scoring_weights with
         | Some weight => v ← as_num value; Ok (fantasy_value + v * weight)
         | None => Ok fantasy_value
         end)
      items acc = Raise TypeError.
Proof.
  intros Hk. induction items as [|[k x] rest IH]; intros Hin acc.
  - exfalso. exact (not_elem_of_nil _ Hin).
  - rewrite for_each_cons.
    apply elem_of_cons in Hin as [[= <- <-]|Hin].
    + rewrite Hk. reflexivity.
    + destruct (lookup_item k scoring_weights) as [w|];
        [destruct x as [q|]; cbn; [apply IH, Hin | reflexivity] | apply IH, Hin].
Qed.

Lemma stat_or_zero_insert (stats : Stats) (i key : string) (x : option Q) :
  stat_or_zero (<[i := x]> stats) key
  = if bool_decide (i = key) then default 0 x else stat_or_zero stats key.
Proof.
  unfold stat_or_zero. destruct (bool_decide (i = key)) eqn:E.
  - apply bool_decide_eq_true in E as ->. rewrite lookup_insert_eq.
    destruct x; reflexivity.
  - apply bool_decide_eq_false in E. rewrite lookup_insert_ne by exact E.
    reflexivity.
Qed.

Lemma weighted_sum_insert (weights : list (string * Q)) (stats : Stats)
    (i : string) (x : option Q) :
  NoDup (map fst weights) -> stats !! i = None ->
  weighted_sum weights (<[i := x]> stats)
  == weighted_sum weights stats
     + match lookup_item i weights with
       | Some weight => default 0 x * weight
       | None => 0
       end.
Proof.
  intros Hnd Hi. unfold weighted_sum.
  induction weights as [|[k w] rest IH].
  - rewrite !total_nil. cbn. lra.
  - cbn [map fst] in Hnd. apply NoDup_cons in Hnd as [Hk Hnd].
    rewrite !total_cons, stat_or_zero_insert. cbn [lookup_item].
    rewrite (bool_decide_ext (i = k) (k = i)) by (split; congruence).
    destruct (bool_decide (k = i)) eqn:E.
    + apply bool_decide_eq_true in E as ->.
      rewrite IH by exact Hnd. rewrite (lookup_item_None i rest Hk).
      unfold stat_or_zero at 2. rewrite Hi. lra.
    + rewrite IH by exact Hnd. lra.
Qed.

Lemma weighted_sum_empty (weights : list (string * Q)) : weighted_sum weights ∅ == 0.
Proof.
  unfold weighted_sum. induction weights as [|[k w] rest IH].
  - reflexivity.
  - rewrite total_cons, IH. unfold stat_or_zero. rewrite lookup_empty. lra.
Qed.

Lemma NoDup_scoring_weights : NoDup (map fst scoring_weights).
Proof. apply NoDup_ListNoDup. cbn. repeat constructor; cbn; intuition discriminate. Qed.

(** The scored_contributions of the items of a dict add up to the weighted sum. *)
Lemma items_total (stats : Stats) :
  total scored_contribution (map_to_list stats) == weighted_sum scoring_weights stats.
Proof.
  induction stats as [|i x stats Hi Hfirst IH] using map_first_key_ind.
  - rewrite map_to_list_empty, total_nil, weighted_sum_empty. reflexivity.
  - rewrite map_to_list_insert_first_key by assumption.
    rewrite total_cons, IH, weighted_sum_insert
      by first [exact NoDup_scoring_weights | exact Hi].
    unfold scored_contribution. cbn [fst snd]. lra.
Qed.

End ValueFacts.

(** ** The fantasy value *)

(** X14. [_calculate_fantasy_value] returns 0 for an empty mapping;
    otherwise, when no scored category holds [None], it returns the sum of
    weight times stored number over the nine scored categories (points 1,
    rebounds 1.2, assists 1.5, steals 3, blocks 3, fg3m 3, fg_percentage 10,
    ft_percentage 8, turnovers -1), rounded to two decimals, a missing
    category counting as 0 and every other key being ignored; and it raises
    [TypeError] as soon as a scored category holds [None]. *)
Theorem fantasy_value_is_weighted_sum (stats : Stats) :
  (stats = ∅ -> Draft._calculate_fantasy_value stats = Ok 0) /\
  (stats <> ∅ ->
   (forall key weight,
      (key, weight) ∈ Draft.scoring_weights -> stats !! key <> Some None) ->
   Draft._calculate_fantasy_value stats
   = Ok (Num.round_n (weighted_sum Draft.scoring_weights stats) 2)) /\
  (forall key weight,
     (key, weight) ∈ Draft.scoring_weights -> stats !! key = Some None ->
     Draft._calculate_fantasy_value stats = Raise TypeError).
Proof.
  unfold Draft._calculate_fantasy_value, Draft.add_scored, stats_empty.
  split; [|split].
  - intros ->. rewrite bool_decide_eq_true_2 by reflexivity. reflexivity.
  - intros Hne Hnum. rewrite bool_decide_eq_false_2 by exact Hne.
    destruct (add_scored_total (map_to_list stats)) with (acc := 0)
      as (v & -> & Hv).
    { intros key weight Hk Hin. apply elem_of_map_to_list in Hin.
      exact (Hnum key weight (lookup_item_elem _ _ _ Hk) Hin). }
    cbn [mbind res_bind]. f_equal. apply round_n_compat.
    rewrite Hv, items_total. lra.
  - intros key weight Hk Hnone.
    rewrite bool_decide_eq_false_2.
    2:{ intros ->. rewrite lookup_empty in Hnone. discriminate Hnone. }
    rewrite (add_scored_error (map_to_list stats) key weight).
    + reflexivity.
    + apply lookup_item_Some; [exact NoDup_scoring_weights | exact Hk].
    + apply elem_of_map_to_list. exact Hnone.
Qed.

Lemma fantasy_value_is_weighted_sum_witness :
  Draft._calculate_fantasy_value starter_stats
  = Ok (Num.round_n (weighted_sum Draft.scoring_weights starter_stats) 2).
Proof.
  apply (proj1 (proj2 (fantasy_value_is_weighted_sum starter_stats))).
  - intros H. apply (f_equal (fun m : Stats => m !! "points")) in H.
    vm_compute in H. discriminate H.
  - intros key weight Hk. unfold Draft.scoring_weights in Hk.
    repeat (apply elem_of_cons in Hk as [[= -> ->]|Hk];
            [vm_compute; discriminate|]).
    exfalso. exact (not_elem_of_nil _ Hk).
Defined.

(** ** Weighted averages *)

Section AverageFacts.

Import Draft.

(** One season added to the running sums: every listed category that the
    season stores grows by value times weight, nothing else changes. *)
Lemma add_season_loop (stats : Stats) (weight : Q) (l : list string) :
  numeric stats -> NoDup l ->
  forall weighted_stats : gmap string Q,
  exists updated : gmap string Q,
    for_each
      (fun weighted_stats category =>
         match stats !! category with
         | Some value =>
             v ← as_num value;
             Ok (<[category := default 0 (weighted_stats !! category) + v * weight]>
                   weighted_stats)
         | None => Ok weighted_stats
         end)
      l weighted_stats = Ok updated
    /\ forall category,
         updated !! category
         = if bool_decide (category ∈ l)
           then match stats !! category with
                | Some (Some v) =>
                    Some (default 0 (weighted_stats !! category) + v * weight)
                | _ => weighted_stats !! category
                end
           else weighted_stats !! category.
Proof.
  intros Hnum. induction l as [|x l IH]; intros Hnd W.
  - exists W. split; [reflexivity|]. intros c.
    rewrite bool_decide_eq_false_2 by apply not_elem_of_nil. reflexivity.
  - apply NoDup_cons in Hnd as [Hx Hnd]. rewrite for_each_cons.
    destruct (stats !! x) as [[v|]|] eqn:Ex; [| exfalso; exact (Hnum x Ex) |].
    + cbn [as_num mbind res_bind].
      destruct (IH Hnd (<[x := default 0 (W !! x) + v * weight]> W)) as (U & HU & Hl).
      exists U. split; [exact HU|]. intros c. rewrite Hl.
      destruct (decide (c = x)) as [->|Hne].
      * rewrite (bool_decide_eq_false_2 (x ∈ l)) by exact Hx.
        rewrite bool_decide_eq_true_2 by left.
        rewrite Ex, lookup_insert_eq. reflexivity.
      * rewrite (bool_decide_ext (c ∈ x :: l) (c ∈ l))
          by (rewrite elem_of_cons; tauto).
        rewrite lookup_insert_ne by congruence. reflexivity.
    + destruct (IH Hnd W) as (U & HU & Hl).
      exists U. split; [exact HU|]. intros c. rewrite Hl.
      destruct (decide (c = x)) as [->|Hne].
      * rewrite (bool_decide_eq_false_2 (x ∈ l)) by exact Hx.
        rewrite bool_decide_eq_true_2 by left. rewrite Ex. reflexivity.
      * rewrite (bool_decide_ext (c ∈ x :: l) (c ∈ l))
          by (rewrite elem_of_cons; tauto).
        reflexivity.
Qed.

Lemma NoDup_tracked : NoDup (categories ++ ["minutes"]).
Proof. apply NoDup_ListNoDup. cbn. repeat constructor; cbn; intuition discriminate. Qed.

Lemma add_season_lookup (stats : Stats) (weight : Q) (W : gmap string Q) :
  numeric stats ->
  exists updated : gmap string Q,
    add_season stats weight W = Ok updated
    /\ forall category,
         updated !! category
         = if bool_decide (category ∈ categories ++ ["minutes"])
           then match stats !! category with
                | Some (Some v) => Some (default 0 (W !! category) + v * weight)
                | _ => W !! category
                end
           else W !! category.
Proof.
  intros Hnum. exact (add_season_loop stats weight _ Hnum NoDup_tracked W).
Qed.

End AverageFacts.

Section SeasonFacts.

Import Draft.

Variable historical : gmap string Stats.
Hypothesis Hnumeric : numeric_history historical.

Lemma stored_in_cons (season : string) (weight : Q) (l : list (string * Q))
    (category : string) :
  stored_in ((season, weight) :: l) historical category
  <-> (exists stats, historical !! season = Some stats /\ is_Some (stats !! category))
      \/ stored_in l historical category.
Proof.
  unfold stored_in. split.
  - intros (s & w & stats & Hin & Hs & Hc).
    apply elem_of_cons in Hin as [[= -> ->]|Hin]; [left | right]; eauto 6.
  - intros [(stats & Hs & Hc)|(s & w & stats & Hin & Hs & Hc)].
    + exists season, weight, stats. split; [left | auto].
    + exists s, w, stats. split; [right; exact Hin | auto].
Qed.

(** The loop over the weighted seasons, for any loop body that behaves as
    the one of [_calculate_weighted_averages]. *)
Lemma season_loop
    (body : gmap string Q * Q -> string * Q -> Res (gmap string Q * Q))
    (l : list (string * Q)) :
  (forall W tw season weight,
     body (W, tw) (season, weight)
     = match historical !! season with
       | Some stats =>
           match add_season stats weight W with
           | Ok W1 => Ok (W1, tw + weight)
           | Raise e => Raise e
           end
       | None => Ok (W, tw)
       end) ->
  forall (W : gmap string Q) (tw : Q),
  exists (W' : gmap string Q) (tw' : Q),
    for_each body l (W, tw) = Ok (W', tw')
    /\ tw' == tw + present_weight l historical
    /\ forall category,
         (category ∉ categories ++ ["minutes"] -> W' !! category = W !! category) /\
         (category ∈ categories ++ ["minutes"] ->
          match W' !! category with
          | Some v =>
              v == default 0 (W !! category) + weighted_total l historical category
              /\ (is_Some (W !! category) \/ stored_in l historical category)
          | None => W !! category = None /\ ~ stored_in l historical category
          end).
Proof.
  intros Hbody. induction l as [|[season weight] l IH]; intros W tw.
  - exists W, tw. split; [reflexivity|]. unfold present_weight, weighted_total.
    rewrite !total_nil. split; [lra|]. intros c. split; [reflexivity|]. intros _.
    destruct (W !! c) as [v|] eqn:E.
    + split; [rewrite total_nil; cbn; lra | left; eauto].
    + split; [reflexivity|]. intros (s & w & stats & Hin & _).
      exact (not_elem_of_nil _ Hin).
  - rewrite for_each_cons, Hbody.
    assert (present_weight ((season, weight) :: l) historical
            == match historical !! season with
               | Some _ => weight
               | None => 0
               end + present_weight l historical) as Hpw
      by (unfold present_weight; rewrite total_cons; reflexivity).
    assert (forall c,
              weighted_total ((season, weight) :: l) historical c
              == match historical !! season with
                 | Some stats => stat_or_zero stats c * weight
                 | None => 0
                 end + weighted_total l historical c) as Hwt
      by (intros c; unfold weighted_total; rewrite total_cons; reflexivity).
    destruct (historical !! season) as [stats|] eqn:Es.
    + destruct (add_season_lookup stats weight W (Hnumeric _ _ Es)) as (W1 & -> & H1).
      destruct (IH W1 (tw + weight)) as (W' & tw' & -> & Htw & HW).
      exists W', tw'. split; [reflexivity|]. split; [rewrite Hpw; lra|].
      intros c. destruct (HW c) as [Hout Hin]. split.
      * intros Hc. rewrite (Hout Hc), H1.
        rewrite bool_decide_eq_false_2 by exact Hc. reflexivity.
      * intros Hc. specialize (Hin Hc). rewrite H1 in Hin.
        rewrite bool_decide_eq_true_2 in Hin by exact Hc.
        pose proof (Hnumeric _ _ Es c) as Hn. specialize (Hwt c).
        unfold stat_or_zero in Hwt.
        destruct (stats !! c) as [[v|]|] eqn:Ec; [| congruence |].
        -- destruct (W' !! c) as [v'|]; rewrite stored_in_cons.
           ++ destruct Hin as [Hv _]. cbn [default id] in Hv.
              split; [rewrite Hv, Hwt; lra|]. right. left. exists stats.
              rewrite Ec. eauto.
           ++ destruct Hin as [Hv _]. discriminate Hv.
        -- destruct (W' !! c) as [v'|]; rewrite stored_in_cons.
           ++ destruct Hin as [Hv Hs]. split; [rewrite Hv, Hwt; lra|]. tauto.
           ++ destruct Hin as [Hv Hs]. split; [exact Hv|].
              intros [(stats' & Hs' & Hc')|Hl]; [|exact (Hs Hl)].
              rewrite Es in Hs'. injection Hs' as <-. rewrite Ec in Hc'.
              destruct Hc' as [? Hc']. discriminate Hc'.
    + destruct (IH W tw) as (W' & tw' & -> & Htw & HW).
      exists W', tw'. split; [reflexivity|]. split; [rewrite Hpw; lra|].
      intros c. destruct (HW c) as [Hout Hin]. split; [exact Hout|].
      intros Hc. specialize (Hin Hc). specialize (Hwt c).
      assert (~ exists stats : Stats, historical !! season = Some stats
                                      /\ is_Some (stats !! c)) as Hno
        by (rewrite Es; intros (? & ? & _); discriminate).
      destruct (W' !! c) as [v'|]; rewrite stored_in_cons.
      * destruct Hin as [Hv Hs]. split; [rewrite Hv, Hwt; lra | tauto].
      * destruct Hin as [Hv Hs]. split; [exact Hv | tauto].
Qed.

Lemma present_weight_nonneg (l : list (string * Q)) :
  Forall (fun x => 0 < x.2) l -> 0 <= present_weight l historical.
Proof.
  intros Hl. unfold present_weight. apply total_nonneg. intros [s w] Hin.
  rewrite Forall_forall in Hl. specialize (Hl _ Hin). cbn in Hl.
  destruct (historical !! s); lra.
Qed.

Lemma present_weight_pos (l : list (string * Q)) (season : string) (weight : Q) :
  Forall (fun x => 0 < x.2) l ->
  (season, weight) ∈ l -> is_Some (historical !! season) ->
  0 < present_weight l historical.
Proof.
  induction l as [|[s w] l IH]; intros Hl Hin Hs.
  - exfalso. exact (not_elem_of_nil _ Hin).
  - apply Forall_cons in Hl as [Hw Hl]. cbn in Hw.
    unfold present_weight. rewrite total_cons. fold (present_weight l historical).
    pose proof (present_weight_nonneg l Hl) as Hnn.
    apply elem_of_cons in Hin as [[= <- <-]|Hin].
    + destruct Hs as [stats ->]. lra.
    + specialize (IH Hl Hin Hs). destruct (historical !! s); lra.
Qed.

Lemma season_weights_positive : Forall (fun x => 0 < x.2) season_weights.
Proof. repeat constructor. Qed.

(** The weighted averages, key by key. *)
Lemma weighted_average_lookup :
  exists weighted : gmap string Q,
    _calculate_weighted_averages historical = Ok weighted /\
    forall category,
      (category ∈ categories ++ ["minutes"] ->
       stored_in season_weights historical category ->
       exists v,
         weighted !! category = Some v /\
         v == weighted_total season_weights historical category
              / present_weight season_weights historical) /\
      (category ∉ categories ++ ["minutes"]
       \/ ~ stored_in season_weights historical category ->
       weighted !! category = None).
Proof.
  unfold _calculate_weighted_averages.
  match goal with
  | |- context [for_each ?body season_weights _] =>
      destruct (season_loop body season_weights) with (W := (∅ : gmap string Q))
        (tw := 0) as (W' & tw' & -> & Htw & HW)
  end.
  { intros W tw season weight. cbn. destruct (historical !! season); reflexivity. }
  cbn [mbind res_bind]. eexists. split; [reflexivity|].
  intros c. destruct (HW c) as [Hout Hin]. split.
  - intros Hc Hstored. specialize (Hin Hc).
    destruct (W' !! c) as [v|] eqn:Ev; [|destruct Hin as [_ Hn]; contradiction].
    destruct Hin as [Hv _]. rewrite lookup_empty in Hv. cbn [default] in Hv.
    destruct Hstored as (s & w & stats & Hsw & Hs & _).
    pose proof (present_weight_pos season_weights s w season_weights_positive Hsw
                  (ex_intro _ stats Hs)) as Hpos.
    assert ((0 <? tw') = true) as -> by (apply ltb_lt; lra).
    rewrite lookup_fmap, Ev. exists (v / tw'). split; [reflexivity|].
    apply Qdiv_comp; lra.
  - intros Hno.
    assert (W' !! c = None) as Ev.
    { destruct (decide (c ∈ categories ++ ["minutes"])) as [Hc|Hc].
      - specialize (Hin Hc). destruct (W' !! c) as [v|]; [|reflexivity].
        destruct Hin as [_ [[? Hs]|Hs]]; [rewrite lookup_empty in Hs; discriminate Hs|].
        destruct Hno; contradiction.
      - rewrite (Hout Hc). apply lookup_empty. }
    destruct (0 <? tw'); [rewrite lookup_fmap, Ev; reflexivity | exact Ev].
Qed.

End SeasonFacts.

Section AverageRangeFacts.

Import Draft.

(** A concrete history holds only numbers when its listing does. *)
Lemma numeric_history_of_list (historical : gmap string Stats) :
  Forall (fun item => Forall (fun entry => entry.2 <> None) (map_to_list item.2))
         (map_to_list historical) ->
  numeric_history historical.
Proof.
  intros H season stats Hs key Hk.
  rewrite Forall_forall in H. apply elem_of_map_to_list in Hs.
  specialize (H _ Hs). cbn in H. rewrite Forall_forall in H.
  apply elem_of_map_to_list in Hk. exact (H _ Hk eq_refl).
Qed.

End AverageRangeFacts.

(** ** Multi-season averages *)

(** X15. On a history that holds only numbers, [_calculate_weighted_averages]
    returns, for each of the nine categories and 'minutes' that some weighted
    season (2024-25: 0.6, 2023-24: 0.3, 2022-23: 0.1) stores, the sum of
    weight times value over the covered seasons divided by the total weight
    of the covered seasons, a covered season that lacks the key counting as
    0; every other key is absent from the result. *)
Theorem weighted_average_formula (historical : gmap string Stats) :
  numeric_history historical ->
  exists weighted : gmap string Q,
    Draft._calculate_weighted_averages historical = Ok weighted /\
    forall category,
      (category ∈ Draft.categories ++ ["minutes"] ->
       stored_in Draft.season_weights historical category ->
       exists v,
         weighted !! category = Some v /\
         v == weighted_total Draft.season_weights historical category
              / present_weight Draft.season_weights historical) /\
      (category ∉ Draft.categories ++ ["minutes"]
       \/ ~ stored_in Draft.season_weights historical category ->
       weighted !! category = None).
Proof. exact (weighted_average_lookup historical). Qed.

Lemma weighted_average_formula_witness :
  exists weighted : gmap string Q,
    Draft._calculate_weighted_averages two_season_history = Ok weighted /\
    weighted !! "games" = None.
Proof.
  destruct (weighted_average_formula two_season_history) as (weighted & Hw & Hl).
  - apply numeric_history_of_list. vm_compute.
    repeat constructor; discriminate.
  - exists weighted. split; [exact Hw|].
    apply (proj2 (Hl "games")). left. vm_compute.
    intros H. repeat (apply elem_of_cons in H as [H|H]; [discriminate H|]).
    exact (not_elem_of_nil _ H).
Defined.

(** ** Trends *)

Section TrendFacts.

Import Draft.

Lemma sorted_head_least (l : list string) (x y : string) :
  StronglySorted String.le l -> head l = Some x -> y ∈ l -> String.le x y.
Proof.
  intros Hs Hh Hy. destruct l as [|z l]; [discriminate Hh|].
  injection Hh as ->. apply StronglySorted_inv in Hs as [_ Hall].
  apply elem_of_cons in Hy as [->|Hy]; [reflexivity|].
  rewrite Forall_forall in Hall. exact (Hall y Hy).
Qed.

Lemma sorted_last_greatest (l : list string) (x y : string) :
  StronglySorted String.le l -> last l = Some x -> y ∈ l -> String.le y x.
Proof.
  induction l as [|z l IH]; intros Hs Hl Hy; [discriminate Hl|].
  apply StronglySorted_inv in Hs as [Hs Hall]. rewrite Forall_forall in Hall.
  destruct l as [|z' l'].
  - injection Hl as ->. apply list_elem_of_singleton in Hy as ->. reflexivity.
  - change (last (z :: z' :: l')) with (last (z' :: l')) in Hl.
    apply elem_of_cons in Hy as [->|Hy].
    + apply Hall. exact (last_Some_elem_of _ _ Hl).
    + exact (IH Hs Hl Hy).
Qed.

(** The sorted season keys of a history. *)
Lemma seasons_sorted (historical : gmap string Stats) :
  let seasons := merge_sort String.le (map fst (map_to_list historical)) in
  StronglySorted String.le seasons /\ NoDup seasons /\
  forall season, season ∈ seasons <-> is_Some (historical !! season).
Proof.
  cbv zeta. split; [apply StronglySorted_merge_sort; apply _|].
  split.
  - rewrite merge_sort_Permutation. apply NoDup_fst_map_to_list.
  - intros season. rewrite merge_sort_Permutation. split.
    + intros Hin. apply list_elem_of_In, in_map_iff in Hin as ([s stats] & <- & Hin).
      apply list_elem_of_In, elem_of_map_to_list in Hin. cbn. eauto.
    + intros [stats Hs]. apply list_elem_of_In, in_map_iff.
      exists (season, stats). split; [reflexivity|].
      apply list_elem_of_In, elem_of_map_to_list. exact Hs.
Qed.

End TrendFacts.

(** ** Trends *)

(** X17. [_calculate_trends] answers 'insufficient_data' when the history
    has fewer than two seasons; otherwise its answer is the comparison of the
    stats of the earliest season with those of the latest season (in the
    order of the season keys), whatever the seasons in between hold. *)
Theorem trends_compare_earliest_with_latest (historical : gmap string Stats) :
  ((forall season season',
      is_Some (historical !! season) -> is_Some (historical !! season') ->
      season = season') ->
   Draft._calculate_trends historical
   = Ok (Draft.mkTrends (Some "insufficient_data") [] None)) /\
  (forall (oldest latest : string) (first_stats last_stats : Stats),
     historical !! oldest = Some first_stats ->
     historical !! latest = Some last_stats ->
     oldest <> latest ->
     (forall season, is_Some (historical !! season) ->
                     String.le oldest season /\ String.le season latest) ->
     Draft._calculate_trends historical
     = Draft.compare_seasons first_stats last_stats).
Proof.
  destruct (seasons_sorted historical) as (Hsorted & Hnd & Hin). cbv zeta in *.
  unfold Draft._calculate_trends. cbv zeta.
  set (seasons := merge_sort String.le (map fst (map_to_list historical))) in *.
  split.
  - intros Hone.
    assert (length seasons < 2)%nat as Hlen.
    { destruct seasons as [|a [|b l]]; cbn [length]; try lia. exfalso.
      apply NoDup_cons in Hnd as [Hab _]. apply Hab.
      rewrite (Hone a b); [left | apply Hin; left | apply Hin; right; left]. }
    apply Nat.ltb_lt in Hlen. rewrite Hlen. reflexivity.
  - intros oldest latest first_stats last_stats Ho Hn Hne Hrange.
    assert (oldest ∈ seasons) as Ho' by (apply Hin; eauto).
    assert (latest ∈ seasons) as Hn' by (apply Hin; eauto).
    assert (2 <= length seasons)%nat as Hlen.
    { destruct seasons as [|a [|b l]]; cbn [length]; try lia; exfalso.
      - exact (not_elem_of_nil _ Ho').
      - apply list_elem_of_singleton in Ho'. apply list_elem_of_singleton in Hn'.
        congruence. }
    apply Nat.ltb_ge in Hlen. rewrite Hlen.
    assert (head seasons = Some oldest) as ->.
    { destruct (head seasons) as [x|] eqn:Eh.
      - f_equal. apply (anti_symm String.le).
        + exact (sorted_head_least seasons x oldest Hsorted Eh Ho').
        + apply Hrange, Hin. destruct seasons; [discriminate Eh|].
          injection Eh as ->. left.
      - destruct seasons; [exfalso; exact (not_elem_of_nil _ Ho') | discriminate Eh]. }
    assert (last seasons = Some latest) as ->.
    { destruct (last seasons) as [x|] eqn:El.
      - f_equal. apply (anti_symm String.le).
        + apply Hrange, Hin. exact (last_Some_elem_of _ _ El).
        + exact (sorted_last_greatest seasons x latest Hsorted El Hn').
      - apply last_None in El. rewrite El in Ho'.
        exfalso. exact (not_elem_of_nil _ Ho'). }
    cbn [mbind option_bind]. rewrite Ho, Hn. reflexivity.
Qed.

Lemma trends_compare_earliest_with_latest_witness :
  Draft._calculate_trends two_season_history
  = Draft.compare_seasons
      {[ "points" := Some 15; "rebounds" := Some 6; "assists" := Some 5 ]}
      starter_stats.
Proof.
  apply (proj2 (trends_compare_earliest_with_latest two_season_history)
           "2022-23" "2024-25").
  - vm_compute. reflexivity.
  - vm_compute. reflexivity.
  - discriminate.
  - intros season [stats Hs]. apply elem_of_map_to_list in Hs. vm_compute in Hs.
    apply elem_of_cons in Hs as [[= -> _]|Hs];
      [|apply list_elem_of_singleton in Hs as [= -> _]];
      split; vm_compute; exact I.
Defined.

(** ** Positions *)

Section PositionFacts.

Import Recommendation.

Lemma compatibility_symmetric (pos1 pos2 : string) :
  _check_position_compatibility pos1 pos2 = _check_position_compatibility pos2 pos1.
Proof.
  unfold _check_position_compatibility. cbv zeta.
  rewrite (bool_decide_ext (pos2 = pos1) (pos1 = pos2)) by (split; congruence).
  repeat match goal with
  | |- context [bool_decide ?P] => generalize (bool_decide P); intro
  end.
  repeat match goal with
  | b : bool |- _ => destruct b
  end; reflexivity.
Qed.

Lemma compatibility_reflexive (pos : string) :
  _check_position_compatibility pos pos = true.
Proof.
  unfold _check_position_compatibility. cbv zeta.
  rewrite (bool_decide_eq_true_2 (pos = pos)) by reflexivity.
  destruct (bool_decide (pos = "")); reflexivity.
Qed.

Lemma count_positions_perm (group : list string) (l l' : list string) :
  l ≡ₚ l' ->
  length (filter (fun p => p ∈ group) l) = length (filter (fun p => p ∈ group) l').
Proof. intros H. rewrite H. reflexivity. Qed.

Lemma balance_symmetric (drop_positions add_positions : list string) :
  _check_multi_position_balance drop_positions add_positions
  = _check_multi_position_balance add_positions drop_positions.
Proof.
  unfold _check_multi_position_balance, count_position_types. cbv zeta.
  assert (forall x y : Z, Z.abs (x - y) = Z.abs (y - x)) as Habs by (intros; lia).
  rewrite !(Habs (Z.of_nat (length (filter _ drop_positions)))).
  reflexivity.
Qed.

Lemma balance_perm (d d' a a' : list string) :
  d ≡ₚ d' -> a ≡ₚ a' ->
  _check_multi_position_balance d a = _check_multi_position_balance d' a'.
Proof.
  intros Hd Ha. unfold _check_multi_position_balance, count_position_types. cbv zeta.
  rewrite !(count_positions_perm _ d d' Hd), !(count_positions_perm _ a a' Ha).
  reflexivity.
Qed.

Lemma balance_reflexive (positions : list string) :
  _check_multi_position_balance positions positions = true.
Proof.
  unfold _check_multi_position_balance, count_position_types. cbv zeta.
  rewrite !Z.sub_diag. reflexivity.
Qed.

End PositionFacts.

(** ** Position checks *)

(** X18. [_check_position_compatibility] is symmetric in its two positions
    and accepts equal positions and any pair with an unknown (empty)
    position; it is not transitive: PG goes with SG and SG with SF, but PG
    does not go with SF. *)
Theorem position_compatibility_is_symmetric :
  (forall pos1 pos2 : string,
     Recommendation._check_position_compatibility pos1 pos2
     = Recommendation._check_position_compatibility pos2 pos1) /\
  (forall pos : string,
     Recommendation._check_position_compatibility pos pos = true /\
     Recommendation._check_position_compatibility "" pos = true) /\
  Recommendation._check_position_compatibility "PG" "SG" = true /\
  Recommendation._check_position_compatibility "SG" "SF" = true /\
  Recommendation._check_position_compatibility "PG" "SF" = false.
Proof.
  split; [exact compatibility_symmetric|].
  split; [|repeat split; vm_compute; reflexivity].
  intros pos. split; [apply compatibility_reflexive | reflexivity].
Qed.

(** X19. [_check_multi_position_balance] depends on the two position lists
    only up to their order, gives the same answer when the dropped and the
    added side are exchanged, and accepts every exchange of a group for a
    group with the same positions. *)
Theorem position_balance_ignores_order (d d' a a' : list string) :
  d ≡ₚ d' -> a ≡ₚ a' ->
  Recommendation._check_multi_position_balance d a
  = Recommendation._check_multi_position_balance d' a'
  /\ Recommendation._check_multi_position_balance d a
     = Recommendation._check_multi_position_balance a d
  /\ Recommendation._check_multi_position_balance d d' = true.
Proof.
  intros Hd Ha. split; [exact (balance_perm d d' a a' Hd Ha)|].
  split; [apply balance_symmetric|].
  rewrite (balance_perm d d d' d (reflexivity d) (symmetry Hd)).
  apply balance_reflexive.
Qed.

Lemma position_balance_ignores_order_witness :
  Recommendation._check_multi_position_balance ["PG"; "C"] ["SF"; "C"]
  = Recommendation._check_multi_position_balance ["C"; "PG"] ["C"; "SF"]
  /\ Recommendation._check_multi_position_balance ["PG"; "C"] ["SF"; "C"]
     = Recommendation._check_multi_position_balance ["SF"; "C"] ["PG"; "C"]
  /\ Recommendation._check_multi_position_balance ["PG"; "C"] ["C"; "PG"] = true.
Proof.
  apply (position_balance_ignores_order ["PG"; "C"] ["C"; "PG"] ["SF"; "C"] ["C"; "SF"]);
    apply perm_swap.
Defined.

Section KeyFacts.

Lemma sorted_names_perm (l l' : list string) :
  l ≡ₚ l' -> Recommendation.sorted_names l = Recommendation.sorted_names l'.
Proof.
  intros H. unfold Recommendation.sorted_names.
  apply (StronglySorted_unique String.le).
  - apply StronglySorted_merge_sort; apply _.
  - apply StronglySorted_merge_sort; apply _.
  - rewrite !merge_sort_Permutation. exact H.
Qed.

(** ** Sums by key *)

(** One player's stats added to the running totals of the listed keys. *)
Lemma key_sum_loop (stats : Stats) (keys : list string) :
  NoDup keys -> (forall key, key ∈ keys -> stats !! key <> Some None) ->
  forall totals : gmap string Q,
  exists totals' : gmap string Q,
    for_each
      (fun totals key =>
         v ← as_num (py_get stats key (Some 0));
         Ok (<[key := default 0 (totals !! key) + v]> totals))
      keys totals = Ok totals'
    /\ forall key,
         totals' !! key
         = if bool_decide (key ∈ keys)
           then Some (default 0 (totals !! key) + stat_or_zero stats key)
           else totals !! key.
Proof.
  induction keys as [|x keys IH]; intros Hnd Hnum totals.
  - exists totals. split; [reflexivity|]. intros key.
    rewrite bool_decide_eq_false_2 by apply not_elem_of_nil. reflexivity.
  - apply NoDup_cons in Hnd as [Hx Hnd]. rewrite for_each_cons.
    assert (as_num (py_get stats x (Some 0)) = Ok (stat_or_zero stats x)) as ->.
    { unfold py_get, stat_or_zero. pose proof (Hnum x ltac:(left)) as Hn.
      destruct (stats !! x) as [[v|]|]; [reflexivity | congruence | reflexivity]. }
    cbn [mbind res_bind].
    destruct (IH Hnd (fun key Hk => Hnum key ltac:(right; exact Hk))
                (<[x := default 0 (totals !! x) + stat_or_zero stats x]> totals))
      as (T & HT & Hl).
    exists T. split; [exact HT|]. intros key. rewrite Hl.
    destruct (decide (key = x)) as [->|Hne].
    + rewrite (bool_decide_eq_false_2 (x ∈ keys)) by exact Hx.
      rewrite bool_decide_eq_true_2 by left. apply lookup_insert_eq.
    + rewrite (bool_decide_ext (key ∈ x :: keys) (key ∈ keys))
        by (rewrite elem_of_cons; tauto).
      rewrite lookup_insert_ne by congruence. reflexivity.
Qed.

Lemma key_sum_error (stats : Stats) (keys : list string) (bad : string) :
  bad ∈ keys -> stats !! bad = Some None ->
  forall totals : gmap string Q,
    for_each
      (fun totals key =>
         v ← as_num (py_get stats key (Some 0));
         Ok (<[key := default 0 (totals !! key) + v]> totals))
      keys totals = Raise TypeError.
Proof.
  intros Hin Hbad. induction keys as [|x keys IH]; intros totals.
  - exfalso. exact (not_elem_of_nil _ Hin).
  - rewrite for_each_cons.
    destruct (as_num (py_get stats x (Some 0))) as [v|e] eqn:E.
    + cbn [mbind res_bind]. apply IH.
      apply elem_of_cons in Hin as [->|Hin]; [|exact Hin].
      unfold py_get in E. rewrite Hbad in E. discriminate E.
    + destruct (py_get stats x (Some 0)); [discriminate E|].
      injection E as <-. reflexivity.
Qed.

(** The totals over a list of players, for any loop body that behaves as the
    one of [_sum_player_stats] and [_calculate_roster_stats]. *)
Lemma player_sum_loop (keys : list string)
    (body : gmap string Q -> Player -> Res (gmap string Q)) (players : list Player) :
  NoDup keys ->
  (forall totals p,
     body totals p
     = for_each
         (fun totals key =>
            v ← as_num (py_get (stats p) key (Some 0));
            Ok (<[key := default 0 (totals !! key) + v]> totals))
         keys totals) ->
  (forall p key, p ∈ players -> key ∈ keys -> stats p !! key <> Some None) ->
  forall totals : gmap string Q,
  (forall key, key ∈ keys -> is_Some (totals !! key)) ->
  exists totals' : gmap string Q,
    for_each body players totals = Ok totals'
    /\ forall key,
         (key ∈ keys ->
          exists v, totals' !! key = Some v
                    /\ v == default 0 (totals !! key)
                            + total (fun p => stat_or_zero (stats p) key) players)
         /\ (key ∉ keys -> totals' !! key = totals !! key).
Proof.
  intros Hnd Hbody. induction players as [|p players IH]; intros Hnum totals Hall.
  - exists totals. split; [reflexivity|]. intros key. split; [|reflexivity].
    intros Hk. destruct (Hall key Hk) as [v Hv]. exists v. split; [exact Hv|].
    rewrite Hv, total_nil. cbn. lra.
  - rewrite for_each_cons, Hbody.
    destruct (key_sum_loop (stats p) keys Hnd
                (fun key Hk => Hnum p key ltac:(left) Hk) totals) as (T1 & -> & H1).
    destruct (IH (fun q key Hq Hk => Hnum q key ltac:(right; exact Hq) Hk) T1)
      as (T & HT & Hl).
    { intros key Hk. rewrite H1, bool_decide_eq_true_2 by exact Hk. eauto. }
    exists T. split; [exact HT|]. intros key. destruct (Hl key) as [Hin Hout]. split.
    + intros Hk. destruct (Hin Hk) as (v & Hv & Hsum). exists v. split; [exact Hv|].
      rewrite Hsum, H1, bool_decide_eq_true_2 by exact Hk.
      rewrite total_cons. cbn [default id]. lra.
    + intros Hk. rewrite (Hout Hk), H1, bool_decide_eq_false_2 by exact Hk.
      reflexivity.
Qed.

Lemma player_sum_error (keys : list string)
    (body : gmap string Q -> Player -> Res (gmap string Q)) (players : list Player)
    (p : Player) (bad : string) :
  (forall totals p,
     body totals p
     = for_each
         (fun totals key =>
            v ← as_num (py_get (stats p) key (Some 0));
            Ok (<[key := default 0 (totals !! key) + v]> totals))
         keys totals) ->
  (forall totals q e, body totals q = Raise e -> e = TypeError) ->
  p ∈ players -> bad ∈ keys -> stats p !! bad = Some None ->
  forall totals : gmap string Q, for_each body players totals = Raise TypeError.
Proof.
  intros Hbody Herr Hp Hbad Hnone.
  induction players as [|q players IH]; intros totals.
  - exfalso. exact (not_elem_of_nil _ Hp).
  - rewrite for_each_cons. destruct (body totals q) as [T|e] eqn:E.
    + apply IH. apply elem_of_cons in Hp as [->|Hp]; [|exact Hp].
      rewrite Hbody, (key_sum_error (stats q) keys bad Hbad Hnone) in E.
      discriminate E.
    + apply Herr in E as ->. reflexivity.
Qed.

Lemma key_sum_error_type (stats : Stats) (keys : list string)
    (totals : gmap string Q) (e : PyError) :
  for_each
    (fun totals key =>
       v ← as_num (py_get stats key (Some 0));
       Ok (<[key := default 0 (totals !! key) + v]> totals))
    keys totals = Raise e -> e = TypeError.
Proof.
  revert totals. induction keys as [|x keys IH]; intros totals; [discriminate|].
  rewrite for_each_cons.
  destruct (as_num (py_get stats x (Some 0))) as [v|e'] eqn:E.
  - cbn [mbind res_bind]. apply IH.
  - destruct (py_get stats x (Some 0)); [discriminate E|].
    injection E as <-. cbn. intros [= <-]. reflexivity.
Qed.

Lemma zero_totals_lookup (keys : list string) (key : string) :
  (list_to_map (map (fun key => (key, 0)) keys) : gmap string Q) !! key
  = if bool_decide (key ∈ keys) then Some 0 else None.
Proof.
  induction keys as [|x keys IH]; cbn [map].
  - rewrite list_to_map_nil, lookup_empty, bool_decide_eq_false_2
      by apply not_elem_of_nil.
    reflexivity.
  - rewrite list_to_map_cons. destruct (decide (key = x)) as [->|Hne].
    + rewrite lookup_insert_eq, bool_decide_eq_true_2 by left. reflexivity.
    + rewrite lookup_insert_ne by congruence. rewrite IH.
      apply (f_equal (fun b : bool => if b then Some 0 else None)).
      apply bool_decide_ext. rewrite elem_of_cons. tauto.
Qed.

End KeyFacts.

(** ** Identity keys and sums by key *)

(** X20. The identity key of a recommendation does not depend on the order
    in which the dropped and the added players are listed: two moves whose
    dropped names and whose added names are permutations of each other have
    the same key, so the entry point keeps only the first of them. *)
Theorem recommendation_key_ignores_player_order (r r' : Recommendation.RosterMove) :
  map Recommendation.mp_name (Recommendation.drop_players r)
  ≡ₚ map Recommendation.mp_name (Recommendation.drop_players r') ->
  map Recommendation.mp_name (Recommendation.add_players r)
  ≡ₚ map Recommendation.mp_name (Recommendation.add_players r') ->
  Recommendation._get_recommendation_key r = Recommendation._get_recommendation_key r'.
Proof.
  intros Hd Ha. unfold Recommendation._get_recommendation_key. cbv zeta.
  rewrite (sorted_names_perm _ _ Hd), (sorted_names_perm _ _ Ha). reflexivity.
Qed.

Lemma recommendation_key_ignores_player_order_witness :
  Recommendation._get_recommendation_key (block_move two_forwards better_forwards)
  = Recommendation._get_recommendation_key
      (block_move (reverse two_forwards) (reverse better_forwards)).
Proof.
  apply recommendation_key_ignores_player_order; vm_compute; apply perm_swap.
Defined.

(** X21. [_sum_player_stats] returns a dict with exactly its eleven keys;
    when no listed player holds [None] under one of them, each total is the
    sum over the players of the stored number, a missing key counting as 0
    (all totals are 0 for an empty list); and when some listed player holds
    [None] under one of the eleven keys the call raises [TypeError]. *)
Theorem sum_player_stats_totals (players : list Player) :
  ((forall p key, p ∈ players -> key ∈ Recommendation.total_keys ->
                  stats p !! key <> Some None) ->
   exists totals : gmap string Q,
     Recommendation._sum_player_stats players = Ok totals /\
     forall key,
       (key ∈ Recommendation.total_keys ->
        exists v, totals !! key = Some v
                  /\ v == total (fun p => stat_or_zero (stats p) key) players)
       /\ (key ∉ Recommendation.total_keys -> totals !! key = None)) /\
  (forall p key, p ∈ players -> key ∈ Recommendation.total_keys ->
                 stats p !! key = Some None ->
   Recommendation._sum_player_stats players = Raise TypeError).
Proof.
  assert (NoDup Recommendation.total_keys) as Hnd.
  { apply NoDup_ListNoDup. repeat constructor; cbn; intuition discriminate. }
  unfold Recommendation._sum_player_stats. split.
  - intros Hnum.
    match goal with
    | |- context [for_each ?body players ?init] =>
        destruct (player_sum_loop Recommendation.total_keys body players Hnd
                    (fun _ _ => eq_refl) Hnum init) as (T & -> & HT)
    end.
    { intros key Hk. rewrite zero_totals_lookup, bool_decide_eq_true_2 by exact Hk.
      eauto. }
    exists T. split; [reflexivity|]. intros key. destruct (HT key) as [Hin Hout]. split.
    + intros Hk. destruct (Hin Hk) as (v & Hv & Hsum). exists v. split; [exact Hv|].
      rewrite Hsum, zero_totals_lookup, bool_decide_eq_true_2 by exact Hk.
      cbn [default id]. lra.
    + intros Hk. rewrite (Hout Hk), zero_totals_lookup, bool_decide_eq_false_2
        by exact Hk.
      reflexivity.
  - intros p key Hp Hk Hnone.
    match goal with
    | |- context [for_each ?body players ?init] =>
        exact (player_sum_error Recommendation.total_keys body players p key
                 (fun _ _ => eq_refl)
                 (fun totals q e => key_sum_error_type (stats q) _ totals e)
                 Hp Hk Hnone init)
    end.
Qed.

Lemma sum_player_stats_totals_witness :
  exists totals : gmap string Q,
    Recommendation._sum_player_stats two_guards = Ok totals /\
    exists v, totals !! "points" = Some v
              /\ v == total (fun p => stat_or_zero (stats p) "points") two_guards.
Proof.
  destruct (proj1 (sum_player_stats_totals two_guards)) as (totals & Hs & Hk).
  - intros p key Hp Hkey Hnone.
    apply elem_of_cons in Hp as [->|Hp];
      [|apply list_elem_of_singleton in Hp as ->];
      apply elem_of_map_to_list in Hnone; vm_compute in Hnone;
      repeat (apply elem_of_cons in Hnone as [Hnone|Hnone]; [discriminate Hnone|]);
      exact (not_elem_of_nil _ Hnone).
  - exists totals. split; [exact Hs|]. apply (proj1 (Hk "points")). left.
Defined.

(** X22. [_calculate_roster_stats] returns, for each of its six keys, the
    sum of the stored numbers over the roster divided by the roster size,
    when no rostered player holds [None] under one of them; for the empty
    roster it divides by 1 and returns 0 for every key instead of dividing by
    zero. *)
Theorem roster_stats_are_averages (roster : list Player) :
  (forall p key, p ∈ roster -> key ∈ Recommendation.roster_keys ->
                 stats p !! key <> Some None) ->
  exists averages : gmap string Q,
    Recommendation._calculate_roster_stats roster = Ok averages /\
    forall key,
      (key ∈ Recommendation.roster_keys ->
       exists v, averages !! key = Some v
                 /\ v == total (fun p => stat_or_zero (stats p) key) roster
                         / inject_Z (Z.of_nat (Nat.max 1 (length roster))))
      /\ (key ∉ Recommendation.roster_keys -> averages !! key = None).
Proof.
  assert (NoDup Recommendation.roster_keys) as Hnd.
  { apply NoDup_ListNoDup. repeat constructor; cbn; intuition discriminate. }
  intros Hnum. unfold Recommendation._calculate_roster_stats.
  match goal with
  | |- context [for_each ?body roster ?init] =>
      destruct (player_sum_loop Recommendation.roster_keys body roster Hnd
                  (fun _ _ => eq_refl) Hnum init) as (T & -> & HT)
  end.
  { intros key Hk. rewrite zero_totals_lookup, bool_decide_eq_true_2 by exact Hk.
    eauto. }
  cbn [mbind res_bind]. eexists. split; [reflexivity|].
  assert (match roster with [] => 1%nat | _ :: _ => length roster end
          = Nat.max 1 (length roster)) as -> by (destruct roster; cbn [length]; lia).
  intros key. destruct (HT key) as [Hin Hout]. rewrite lookup_fmap. split.
  - intros Hk. destruct (Hin Hk) as (v & -> & Hsum). eexists. split; [reflexivity|].
    apply Qdiv_comp; [|reflexivity].
    rewrite Hsum, zero_totals_lookup, bool_decide_eq_true_2 by exact Hk.
    cbn [default id]. lra.
  - intros Hk. rewrite (Hout Hk), zero_totals_lookup, bool_decide_eq_false_2
      by exact Hk.
    reflexivity.
Qed.

Lemma roster_stats_are_averages_witness :
  exists averages : gmap string Q,
    Recommendation._calculate_roster_stats [] = Ok averages /\
    exists v, averages !! "points" = Some v /\ v == 0.
Proof.
  destruct (roster_stats_are_averages []) as (averages & Ha & Hk).
  - intros p key Hp. exfalso. exact (not_elem_of_nil _ Hp).
  - exists averages. split; [exact Ha|].
    destruct (proj1 (Hk "points") ltac:(left)) as (v & Hv & Hsum).
    exists v. split; [exact Hv|]. rewrite Hsum. vm_compute. reflexivity.
Defined.

(** ** Category reports read in both directions *)

Section ReverseFacts.

Import Recommendation.

(** The line of a category for the exchange read in the other direction
    moves an improvement to the declines and a decline to the improvements. *)
Lemma category_line_reverse (stat_key stat_name : string) (is_percentage : bool)
    (a b : Q) (c1 c2 : CategoryChanges) :
  length (improvements c1) = length (declines c2) ->
  length (declines c1) = length (improvements c2) ->
  let r1 := category_line stat_key stat_name is_percentage a b c1 in
  let r2 := category_line stat_key stat_name is_percentage b a c2 in
  length (improvements r1) = length (declines r2)
  /\ length (declines r1) = length (improvements r2).
Proof.
  intros H1 H2. cbv zeta. unfold category_line, Num.abs.
  destruct (bool_decide (stat_key = "turnovers")); [|destruct is_percentage];
    repeat match goal with
    | |- context [?x <? 0] => destruct (x <? 0) eqn:?
    end;
    repeat match goal with
    | |- context [?x <? ?y] => destruct (x <? y) eqn:?
    end; qcompare; try (exfalso; lra);
    unfold improved, declined, unchanged; cbn [improvements declines];
    rewrite ?length_app; cbn [length]; lia.
Qed.

(** Every line adds at most one entry to the improvements and the declines
    taken together. *)
Lemma category_line_changes (stat_key stat_name : string) (is_percentage : bool)
    (a b : Q) (c : CategoryChanges) :
  let r := category_line stat_key stat_name is_percentage a b c in
  (length (improvements r) + length (declines r)
   <= S (length (improvements c) + length (declines c)))%nat.
Proof.
  cbv zeta. unfold category_line, improved, declined, unchanged.
  repeat match goal with
  | |- context [if ?b then _ else _] => destruct b
  end; cbn [improvements declines]; rewrite ?length_app; cbn [length]; lia.
Qed.

(** Equal values leave the improvements and the declines as they are. *)
Lemma category_line_equal (stat_key stat_name : string) (is_percentage : bool)
    (a : Q) (c : CategoryChanges) :
  let r := category_line stat_key stat_name is_percentage a a c in
  improvements r = improvements c /\ declines r = declines c.
Proof.
  cbv zeta. unfold category_line, Num.abs.
  destruct (bool_decide (stat_key = "turnovers")); [|destruct is_percentage];
    repeat match goal with
    | |- context [?x <? 0] => destruct (x <? 0) eqn:?
    end;
    repeat match goal with
    | |- context [?x <? ?y] => destruct (x <? y) eqn:?
    end; qcompare; try (exfalso; lra);
    unfold unchanged; cbn [improvements declines]; split; reflexivity.
Qed.

Lemma pair_report_reverse (p q : Player) (l : list (string * string * bool)) :
  forall c1 c2 r1 r2 : CategoryChanges,
  length (improvements c1) = length (declines c2) ->
  length (declines c1) = length (improvements c2) ->
  for_each
    (fun c '(stat_key, stat_name, is_percentage) =>
       drop_val ← as_num (py_get (stats p) stat_key (Some 0));
       add_val ← as_num (py_get (stats q) stat_key (Some 0));
       Ok (category_line stat_key stat_name is_percentage drop_val add_val c))
    l c1 = Ok r1 ->
  for_each
    (fun c '(stat_key, stat_name, is_percentage) =>
       drop_val ← as_num (py_get (stats q) stat_key (Some 0));
       add_val ← as_num (py_get (stats p) stat_key (Some 0));
       Ok (category_line stat_key stat_name is_percentage drop_val add_val c))
    l c2 = Ok r2 ->
  length (improvements r1) = length (declines r2)
  /\ length (declines r1) = length (improvements r2).
Proof.
  induction l as [|[[stat_key stat_name] is_percentage] l IH];
    intros c1 c2 r1 r2 H1 H2 E1 E2.
  - cbn in E1, E2. injection E1 as <-. injection E2 as <-. auto.
  - rewrite for_each_cons in E1, E2. unfold mbind, res_bind in E1, E2.
    destruct (as_num (py_get (stats p) stat_key (Some 0))) as [a|e];
      [|discriminate E1].
    destruct (as_num (py_get (stats q) stat_key (Some 0))) as [b|e];
      [|discriminate E1].
    destruct (category_line_reverse stat_key stat_name is_percentage a b c1 c2 H1 H2)
      as [H1' H2'].
    exact (IH _ _ _ _ H1' H2' E1 E2).
Qed.

Lemma pair_report_changes (p q : Player) (l : list (string * string * bool)) :
  forall c r : CategoryChanges,
  for_each
    (fun c '(stat_key, stat_name, is_percentage) =>
       drop_val ← as_num (py_get (stats p) stat_key (Some 0));
       add_val ← as_num (py_get (stats q) stat_key (Some 0));
       Ok (category_line stat_key stat_name is_percentage drop_val add_val c))
    l c = Ok r ->
  (length (improvements r) + length (declines r)
   <= length (improvements c) + length (declines c) + length l)%nat.
Proof.
  induction l as [|[[stat_key stat_name] is_percentage] l IH]; intros c r E.
  - cbn in E. injection E as <-. cbn [length]. lia.
  - rewrite for_each_cons in E. unfold mbind, res_bind in E.
    destruct (as_num (py_get (stats p) stat_key (Some 0))) as [a|e]; [|discriminate E].
    destruct (as_num (py_get (stats q) stat_key (Some 0))) as [b|e]; [|discriminate E].
    pose proof (category_line_changes stat_key stat_name is_percentage a b c) as Hc.
    cbv zeta in Hc. apply IH in E. cbn [length]. lia.
Qed.

Lemma pair_report_same (p : Player) (l : list (string * string * bool)) :
  forall c r : CategoryChanges,
  for_each
    (fun c '(stat_key, stat_name, is_percentage) =>
       drop_val ← as_num (py_get (stats p) stat_key (Some 0));
       add_val ← as_num (py_get (stats p) stat_key (Some 0));
       Ok (category_line stat_key stat_name is_percentage drop_val add_val c))
    l c = Ok r ->
  improvements r = improvements c /\ declines r = declines c.
Proof.
  induction l as [|[[stat_key stat_name] is_percentage] l IH]; intros c r E.
  - cbn in E. injection E as <-. auto.
  - rewrite for_each_cons in E. unfold mbind, res_bind in E.
    destruct (as_num (py_get (stats p) stat_key (Some 0))) as [a|e]; [|discriminate E].
    destruct (category_line_equal stat_key stat_name is_percentage a c) as [Hi Hd].
    apply IH in E as [-> ->]. auto.
Qed.

End ReverseFacts.

Section ValueDefinedFacts.

Import Recommendation.

Lemma counting_get (stats : Stats) (key : string) :
  stats !! key <> Some None -> exists q, as_num (py_get stats key (Some 0)) = Ok q.
Proof.
  intros H. unfold py_get. destruct (stats !! key) as [[v|]|]; cbn; eauto.
  congruence.
Qed.

Lemma player_value_defined (p : Player) :
  (forall key, key ∈ value_keys -> stats p !! key <> Some None) ->
  exists v, _calculate_player_value p = Ok v.
Proof.
  intros Hnum. unfold _calculate_player_value. cbv zeta.
  repeat match goal with
  | |- context [as_num (py_get (stats p) ?k (Some 0))] =>
      let q := fresh "q" in let E := fresh "E" in
      destruct (counting_get (stats p) k) as [q E];
      [apply Hnum; unfold value_keys; repeat (first [left; reflexivity | right])
      |rewrite E; cbn [mbind res_bind]]
  end.
  eauto.
Qed.

Lemma player_value_error (p : Player) (e : PyError) :
  _calculate_player_value p = Raise e -> e = TypeError.
Proof.
  unfold _calculate_player_value. cbv zeta.
  repeat match goal with
  | |- context [as_num (py_get (stats p) ?k (Some 0))] =>
      destruct (py_get (stats p) k (Some 0));
      cbn [as_num mbind res_bind]; [|congruence]
  end.
  discriminate.
Qed.

Lemma player_value_ok_counting (p : Player) (v : Q) :
  _calculate_player_value p = Ok v ->
  forall key, key ∈ value_keys -> stats p !! key <> Some None.
Proof.
  unfold _calculate_player_value. cbv zeta.
  repeat match goal with
  | |- context [as_num (py_get (stats p) ?k (Some 0))] =>
      let E := fresh "E" in
      destruct (py_get (stats p) k (Some 0)) eqn:E;
      cbn [as_num mbind res_bind]; [|discriminate]
  end.
  intros _ key Hk Hnone. unfold value_keys in Hk. unfold py_get in *.
  repeat (apply elem_of_cons in Hk as [->|Hk];
          [rewrite Hnone in *; discriminate|]).
  exact (not_elem_of_nil _ Hk).
Qed.

Lemma player_value_none (p : Player) (key : string) :
  key ∈ value_keys -> stats p !! key = Some None ->
  _calculate_player_value p = Raise TypeError.
Proof.
  intros Hk Hnone.
  destruct (_calculate_player_value p) as [v|e] eqn:E.
  - destruct (player_value_ok_counting p v E key Hk Hnone).
  - f_equal. exact (player_value_error p e E).
Qed.

End ValueDefinedFacts.

(** ** Category reports and player values *)

(** X23. Reading a 1-for-1 exchange in the other direction swaps the roles
    of the two lists of [_analyze_category_improvements]: the forward report
    has as many improvements as the backward report has declines, and as many
    declines as the backward one has improvements; a report never lists more
    than nine changes in all, and two players with the same stats give no
    improvement and no decline. *)
Theorem category_report_reverses (p q : Player)
    (forward backward : Recommendation.CategoryChanges) :
  Recommendation._analyze_category_improvements p q = Ok forward ->
  Recommendation._analyze_category_improvements q p = Ok backward ->
  length (Recommendation.improvements forward)
  = length (Recommendation.declines backward)
  /\ length (Recommendation.declines forward)
     = length (Recommendation.improvements backward)
  /\ (length (Recommendation.improvements forward)
      + length (Recommendation.declines forward) <= 9)%nat
  /\ (stats p = stats q ->
      Recommendation.improvements forward = []
      /\ Recommendation.declines forward = []).
Proof.
  unfold Recommendation._analyze_category_improvements. cbv zeta. intros Hf Hb.
  destruct (pair_report_reverse p q _ Recommendation.no_changes
              Recommendation.no_changes _ _ eq_refl eq_refl Hf Hb) as [H1 H2].
  split; [exact H1|]. split; [exact H2|]. split.
  - apply pair_report_changes in Hf.
    unfold Recommendation.categories, Recommendation.no_changes in Hf.
    cbn [Recommendation.improvements Recommendation.declines length] in Hf. lia.
  - intros Heq. rewrite <- Heq in Hf. apply pair_report_same in Hf. exact Hf.
Qed.

Lemma category_report_reverses_witness :
  exists forward backward : Recommendation.CategoryChanges,
    Recommendation._analyze_category_improvements hot_hand volume_shooter = Ok forward
    /\ Recommendation._analyze_category_improvements volume_shooter hot_hand = Ok backward
    /\ length (Recommendation.improvements forward)
       = length (Recommendation.declines backward).
Proof.
  destruct (Recommendation._analyze_category_improvements hot_hand volume_shooter)
    as [forward|e] eqn:Ef; [|vm_compute in Ef; discriminate Ef].
  destruct (Recommendation._analyze_category_improvements volume_shooter hot_hand)
    as [backward|e] eqn:Eb; [|vm_compute in Eb; discriminate Eb].
  exists forward, backward. split; [reflexivity|]. split; [reflexivity|].
  exact (proj1 (category_report_reverses hot_hand volume_shooter forward backward Ef Eb)).
Defined.

(** X24. [_calculate_player_value] needs numbers under its seven counting
    keys only: it returns a value whenever none of them holds [None]
    (missing keys count as 0, and a [None] shooting percentage is skipped),
    and it raises [TypeError] as soon as one of the seven holds [None]. *)
Theorem player_value_needs_counting_stats (p : Player) :
  ((forall key, key ∈ value_keys -> stats p !! key <> Some None) ->
   exists v, Recommendation._calculate_player_value p = Ok v) /\
  (forall key, key ∈ value_keys -> stats p !! key = Some None ->
   Recommendation._calculate_player_value p = Raise TypeError).
Proof.
  split.
  - apply player_value_defined.
  - apply player_value_none.
Qed.

Lemma player_value_needs_counting_stats_witness :
  exists v,
    Recommendation._calculate_player_value reserve = Ok v.
Proof.
  apply (proj1 (player_value_needs_counting_stats _)).
  intros key Hk Hnone. unfold value_keys in Hk.
  repeat (apply elem_of_cons in Hk as [->|Hk]; [vm_compute in Hnone; discriminate Hnone|]).
  exact (not_elem_of_nil _ Hk).
Defined.

(** ** Loops of the searches *)

Section LoopFacts.

Import Recommendation.

(** A loop whose iterations keep [P] while they go on and establish [Q] when
    they leave early ends in [P] or is left in [Q]. *)
Lemma loop_flow {A S : Type} (P Q : S -> Prop) (body : S -> A -> Res (Flow S))
    (xs : list A) :
  (forall s x f, x ∈ xs -> P s -> body s x = Ok f ->
                 match f with Next s' => P s' | Stop s' => Q s' end) ->
  forall s r, P s -> loop body xs s = Ok r ->
              match r with Next s' => P s' | Stop s' => Q s' end.
Proof.
  induction xs as [|x xs IH]; intros Hbody s r Hs H; cbn [loop] in H.
  - injection H as <-. exact Hs.
  - unfold mbind, res_bind in H. destruct (body s x) as [f|e] eqn:E; [|discriminate H].
    pose proof (Hbody _ _ _ ltac:(left) Hs E) as Hf. destruct f as [s'|s'].
    + apply (IH (fun s x f Hx => Hbody s x f ltac:(right; exact Hx)) _ _ Hf H).
    + injection H as <-. exact Hf.
Qed.

(** A loop one of whose iterations raises whatever state it starts from
    raises. *)
Lemma for_each_raises {A S : Type} (body : S -> A -> Res S) (xs : list A) (x : A) :
  x ∈ xs -> (forall s, exists e, body s x = Raise e) ->
  forall s, exists e, for_each body xs s = Raise e.
Proof.
  intros Hx Hraise. induction xs as [|y xs IH]; intros s.
  - exfalso. exact (not_elem_of_nil _ Hx).
  - cbn [for_each]. unfold mbind, res_bind.
    apply elem_of_cons in Hx as [<-|Hx].
    + destruct (Hraise s) as [e ->]. eauto.
    + destruct (body s y) as [s'|e]; [exact (IH Hx s')|eauto].
Qed.

Lemma map_res_keys {A : Type} (key : A -> Res Q) (xs : list A) (keyed : list (Q * A)) :
  map_res (fun x => k ← key x; Ok (k, x)) xs = Ok keyed -> map snd keyed = xs.
Proof.
  revert keyed. induction xs as [|x xs IH]; intros keyed H; cbn [map_res] in H.
  - injection H as <-. reflexivity.
  - unfold mbind, res_bind in H. destruct (key x) as [k|e]; [|discriminate H].
    destruct (map_res _ xs) as [ys|e]; [|discriminate H]. injection H as <-.
    cbn [map snd]. f_equal. exact (IH _ eq_refl).
Qed.

(** [sorted(xs, key=..)] rearranges [xs]. *)
Lemma sorted_by_res_perm {A : Type} (key : A -> Res Q) (reverse : bool)
    (xs ys : list A) :
  sorted_by_res key reverse xs = Ok ys -> ys ≡ₚ xs.
Proof.
  unfold sorted_by_res, mbind, res_bind.
  destruct (map_res _ xs) as [keyed|e] eqn:E; [|discriminate]. intros [= <-].
  rewrite <- (map_res_keys key xs keyed E).
  apply Permutation_map, sort_by_perm.
Qed.

(** Every combination of size [k] has [k] elements, all taken from the
    list. *)
Lemma combinations_spec {A : Type} (k : nat) :
  forall (xs combo : list A),
    combo ∈ combinations xs k -> length combo = k /\ combo ⊆ xs.
Proof.
  induction k as [|k IHk]; intros xs combo H.
  - assert (combinations xs 0 = [[]]) as Hz by (destruct xs; reflexivity).
    rewrite Hz in H. apply list_elem_of_singleton in H as ->.
    split; [reflexivity|]. intros x Hx. exfalso. exact (not_elem_of_nil _ Hx).
  - induction xs as [|x xs IHxs]; cbn [combinations] in H.
    + exfalso. exact (not_elem_of_nil _ H).
    + apply elem_of_app in H as [H|H].
      * apply list_elem_of_fmap in H as (c & -> & Hc).
        destruct (IHk _ _ Hc) as [Hl Hs]. split; [cbn [length]; lia|].
        intros y Hy. apply elem_of_cons in Hy as [->|Hy]; [left|right; exact (Hs _ Hy)].
      * destruct (IHxs H) as [Hl Hs]. split; [exact Hl|].
        intros y Hy. right. exact (Hs _ Hy).
Qed.

Lemma elem_of_take {A : Type} (n : nat) (l : list A) (x : A) :
  x ∈ take n l -> x ∈ l.
Proof.
  intros H. rewrite <- (take_drop n l). apply elem_of_app. left. exact H.
Qed.

End LoopFacts.

Section SingleSwapFacts.

Import Recommendation.

Lemma single_swaps_flow (current_roster free_agents : list Player)
    (recs : list RosterMove) :
  _analyze_single_swaps current_roster free_agents = Ok recs ->
  (length recs <= 60)%nat /\ Forall (single_swap_of current_roster free_agents) recs.
Proof.
  unfold _analyze_single_swaps. cbv zeta. unfold mbind at 1, res_bind at 1.
  destruct (sorted_by_res _ false current_roster) as [sorted_roster|e] eqn:Er;
    [|discriminate].
  unfold mbind at 1, res_bind at 1.
  destruct (sorted_by_res _ true free_agents) as [sorted_fas|e] eqn:Ef;
    [|discriminate].
  apply sorted_by_res_perm in Er, Ef.
  unfold mbind at 1, res_bind at 1.
  destruct (loop _ _ _) as [r|e] eqn:EL; [|discriminate]. intros [= <-].
  set (good := single_swap_of current_roster free_agents).
  assert (match r with
          | Next s => (length s < 60)%nat /\ Forall good s
          | Stop s => (length s <= 60)%nat /\ Forall good s
          end) as Hr.
  { revert EL. apply loop_flow; [|split; [cbn; lia|constructor]].
    intros recs1 p f1 Hp HP1. unfold mbind at 1, res_bind at 1.
    destruct (_calculate_player_value p) as [vp|e] eqn:Evp; [|discriminate].
    apply loop_flow; [|exact HP1].
    intros recs2 fa f2 Hfa [Hlen Hgood]. unfold mbind at 1, res_bind at 1.
    destruct (_calculate_player_value fa) as [vf|e] eqn:Evf; [|discriminate].
    destruct ((vp <? vf)
              && _check_position_compatibility (position_of p) (position_of fa))
      eqn:Etest; [|intros [= <-]; split; assumption].
    apply andb_prop in Etest as [_ Hcompat].
    unfold mbind at 1, res_bind at 1.
    destruct (_analyze_category_improvements p fa) as [cc|e] eqn:Ecc; [|discriminate].
    destruct (0.5 <? vf - vp) eqn:Eimp; [|intros [= <-]; split; assumption].
    apply ltb_lt in Eimp.
    match goal with
    | |- context [recs2 ++ [?m]] =>
        assert (Forall good (recs2 ++ [m])) as Hnew
    end.
    { apply Forall_app. split; [exact Hgood|]. constructor; [|constructor].
      exists p, fa, vp, vf, cc.
      split; [rewrite <- Er; exact Hp|].
      split; [rewrite <- Ef; exact (elem_of_take _ _ _ Hfa)|].
      repeat (split; [first [assumption | reflexivity]|]). reflexivity. }
    destruct (60 <=? _)%nat eqn:Ecap; intros [= <-]; (split; [|exact Hnew]).
    - rewrite length_app. cbn [length]. lia.
    - apply Nat.leb_gt in Ecap. exact Ecap. }
  destruct r as [s|s]; cbn [state_of]; destruct Hr as [Hl Hg];
    (split; [lia|exact Hg]).
Qed.

End SingleSwapFacts.

Section MultiSwapFacts.

Import Recommendation.

Lemma multi_swaps_flow (current_roster free_agents : list Player)
    (recs : list RosterMove) :
  _analyze_multi_player_swaps current_roster free_agents = Ok recs ->
  (length recs <= 30)%nat /\ Forall (multi_swap_of current_roster free_agents) recs.
Proof.
  unfold _analyze_multi_player_swaps. cbv zeta. unfold mbind at 1, res_bind at 1.
  destruct (loop _ _ _) as [r|e] eqn:EL; [|discriminate]. intros [= <-].
  set (good := multi_swap_of current_roster free_agents).
  assert (match r with
          | Next s => (length s < 30)%nat /\ Forall good s
          | Stop s => (length s <= 30)%nat /\ Forall good s
          end) as Hr.
  { revert EL. apply loop_flow; [|split; [cbn; lia|constructor]].
    intros recs1 swap_size f1 Hsize HP1.
    assert (swap_size = 2 \/ swap_size = 3)%nat as Hk.
    { apply elem_of_cons in Hsize as [->|Hsize]; [left; reflexivity|].
      apply list_elem_of_singleton in Hsize as ->. right. reflexivity. }
    apply loop_flow; [|exact HP1].
    intros recs2 drop_combo f2 Hdrop HP2. unfold mbind at 1, res_bind at 1.
    destruct (values_total drop_combo) as [drop_total|e]; [|discriminate].
    apply loop_flow; [|exact HP2].
    intros recs3 add_combo f3 Hadd [Hlen Hgood]. unfold mbind at 1, res_bind at 1.
    destruct (values_total add_combo) as [add_total|e]; [|discriminate].
    destruct (_ <? _); [|intros [= <-]; split; assumption].
    unfold mbind at 1, res_bind at 1.
    destruct (for_each _ _ _) as [[imps decs]|e]; [|discriminate].
    match goal with
    | |- context [recs3 ++ [?m]] =>
        assert (Forall good (recs3 ++ [m])) as Hnew
    end.
    { apply Forall_app. split; [exact Hgood|]. constructor; [|constructor].
      apply elem_of_take, combinations_spec in Hdrop as [Hdl Hds].
      apply elem_of_take, combinations_spec in Hadd as [Hal Has].
      exists swap_size, drop_combo, add_combo.
      repeat (split; [first [assumption | reflexivity]|]). reflexivity. }
    destruct (30 <=? _)%nat eqn:Ecap; intros [= <-]; (split; [|exact Hnew]).
    - rewrite length_app. cbn [length]. lia.
    - apply Nat.leb_gt in Ecap. exact Ecap. }
  destruct r as [s|s]; cbn [state_of]; destruct Hr as [Hl Hg];
    (split; [lia|exact Hg]).
Qed.

End MultiSwapFacts.

Section BudgetFacts.

Import Recommendation.

(** The value-upgrade search raises as soon as one rostered player meets a
    compatible free agent worth more than 1.05 times their value while the
    rostered value is 0 or the category report of the pair raises. *)
Lemma budget_upgrades_raise (current_roster free_agents : list Player)
    (p fa : Player) (vp vf : Q) :
  p ∈ current_roster -> fa ∈ free_agents ->
  _calculate_player_value p = Ok vp -> _calculate_player_value fa = Ok vf ->
  vp * 1.05 < vf ->
  _check_position_compatibility (position_of p) (position_of fa) = true ->
  (vp == 0 \/ exists e, _analyze_category_improvements p fa = Raise e) ->
  exists e, _find_budget_upgrades current_roster free_agents = Raise e.
Proof.
  intros Hp Hfa Evp Evf Hbetter Hcompat Hfail. unfold _find_budget_upgrades.
  cbv zeta. unfold mbind at 1, res_bind at 1.
  match goal with
  | |- context [for_each ?body current_roster ?init] =>
      destruct (for_each_raises body current_roster p Hp) with (s := init)
        as [e ->]; [|eauto]
  end.
  intros recs1. unfold mbind at 1, res_bind at 1. rewrite Evp.
  match goal with
  | |- context [for_each ?body free_agents recs1] =>
      apply (for_each_raises body free_agents fa Hfa)
  end.
  intros recs2. unfold mbind at 1, res_bind at 1. rewrite Evf.
  apply ltb_lt in Hbetter. rewrite Hbetter, Hcompat. cbn [andb].
  unfold mbind at 1, res_bind at 1.
  destruct (_analyze_category_improvements p fa) as [cc|e] eqn:Ecc; [|eauto].
  destruct Hfail as [Hzero|[e He]]; [|discriminate He].
  apply eqb_eq in Hzero. rewrite Hzero. cbn [mbind res_bind]. eauto.
Qed.

Lemma recommendations_fall_back (stored : list TeamData)
    (current_roster free_agents all_players : list Player)
    (max_recommendations : nat) :
  (exists e, _find_budget_upgrades current_roster free_agents = Raise e) ->
  exists e,
    try_recommendations stored current_roster free_agents all_players
      max_recommendations = Raise e.
Proof.
  intros [e He]. unfold try_recommendations. cbv zeta.
  unfold mbind at 1, res_bind at 1.
  destruct (_analyze_single_swaps _ _); [|eauto].
  unfold mbind at 1, res_bind at 1.
  destruct (_analyze_multi_player_swaps _ _); [|eauto].
  unfold mbind at 1, res_bind at 1. rewrite He. eauto.
Qed.

End BudgetFacts.

Section TotalsFacts.

Import Recommendation.

Lemma totals_fold_reverse (l : list (string * string * bool * (Q * Q))) :
  forall c1 c2 : CategoryChanges,
  length (improvements c1) = length (declines c2) ->
  length (declines c1) = length (improvements c2) ->
  let r1 :=
    fold_left
      (fun c '(stat_key, display_name, is_percentage, (my_val, other_val)) =>
         category_line stat_key display_name is_percentage my_val other_val c)
      l c1 in
  let r2 :=
    fold_left
      (fun c '(stat_key, display_name, is_percentage, (my_val, other_val)) =>
         category_line stat_key display_name is_percentage my_val other_val c)
      (map (fun '(stat_key, display_name, is_percentage, (my_val, other_val)) =>
              (stat_key, display_name, is_percentage, (other_val, my_val))) l)
      c2 in
  length (improvements r1) = length (declines r2)
  /\ length (declines r1) = length (improvements r2).
Proof.
  induction l as [|[[[k n] i] [x y]] l IH]; intros c1 c2 H1 H2; cbv zeta.
  - cbn [map fold_left]. auto.
  - cbn [map fold_left].
    destruct (category_line_reverse k n i x y c1 c2 H1 H2) as [H1' H2'].
    exact (IH _ _ H1' H2').
Qed.

Lemma totals_fold_changes (l : list (string * string * bool * (Q * Q))) :
  forall c : CategoryChanges,
  let r :=
    fold_left
      (fun c '(stat_key, display_name, is_percentage, (my_val, other_val)) =>
         category_line stat_key display_name is_percentage my_val other_val c)
      l c in
  length (all_categories r) = (length (all_categories c) + length l)%nat
  /\ (Forall (fun item => item.2.1 == item.2.2) l ->
      improvements r = improvements c /\ declines r = declines c).
Proof.
  induction l as [|[[[k n] i] [x y]] l IH]; intros c; cbv zeta.
  - cbn [fold_left length]. split; [lia|auto].
  - cbn [fold_left length]. destruct (IH (category_line k n i x y c)) as [Hl Hs].
    split.
    + rewrite Hl. unfold category_line, improved, declined, unchanged.
      repeat match goal with
      | |- context [if ?b then _ else _] => destruct b
      end; cbn [all_categories]; rewrite length_app; cbn [length]; lia.
    + intros Hall. apply Forall_cons in Hall as [Hxy Hall]. cbn [fst snd] in Hxy.
      destruct (Hs Hall) as [-> ->].
      unfold category_line, Num.abs.
      destruct (bool_decide (k = "turnovers")); [|destruct i];
        repeat match goal with
        | |- context [?u <? 0] => destruct (u <? 0) eqn:?
        end;
        repeat match goal with
        | |- context [?u <? ?v] => destruct (u <? v) eqn:?
        end; qcompare; try (exfalso; lra);
        unfold unchanged; cbn [improvements declines]; split; reflexivity.
Qed.

Lemma totals_report_reverse (a b : gmap string Q) :
  length (improvements (_compare_stat_totals a b))
  = length (declines (_compare_stat_totals b a))
  /\ length (declines (_compare_stat_totals a b))
     = length (improvements (_compare_stat_totals b a)).
Proof.
  unfold _compare_stat_totals. cbv zeta.
  match goal with
  | |- context [fold_left _ ?l no_changes] =>
      exact (totals_fold_reverse l no_changes no_changes eq_refl eq_refl)
  end.
Qed.

Lemma totals_report_nine (a b : gmap string Q) :
  length (all_categories (_compare_stat_totals a b)) = 9%nat.
Proof.
  unfold _compare_stat_totals. cbv zeta.
  match goal with
  | |- context [fold_left _ ?l no_changes] =>
      exact (proj1 (totals_fold_changes l no_changes))
  end.
Qed.

Lemma totals_report_same (a : gmap string Q) :
  improvements (_compare_stat_totals a a) = []
  /\ declines (_compare_stat_totals a a) = [].
Proof.
  unfold _compare_stat_totals. cbv zeta.
  match goal with
  | |- context [fold_left _ ?l no_changes] =>
      apply (proj2 (totals_fold_changes l no_changes))
  end.
  repeat (constructor; [cbn [fst snd]; reflexivity|]). constructor.
Qed.

End TotalsFacts.

(** ** The free-agent searches *)

(** X25. [_analyze_single_swaps] returns at most 60 moves, and each of them
    pairs a rostered player with a free agent at a compatible position whose
    value is more than 0.5 higher: the move lists exactly these two players
    with their rounded values, its impact score is the rounded gain (so at
    least 0.5), and it carries the nine-entry category report of the pair. *)
Theorem single_swaps_are_capped_upgrades (current_roster free_agents : list Player)
    (recs : list Recommendation.RosterMove) :
  Recommendation._analyze_single_swaps current_roster free_agents = Ok recs ->
  (length recs <= 60)%nat
  /\ Forall (single_swap_of current_roster free_agents) recs
  /\ Forall (fun m => 0.5 <= Recommendation.impact_score m
                      /\ exists l, Recommendation.move_all_categories m = Some l
                                   /\ length l = 9%nat) recs.
Proof.
  intros H. apply single_swaps_flow in H as [Hlen Hgood].
  split; [exact Hlen|]. split; [exact Hgood|].
  apply (Forall_impl _ _ _ Hgood). intros m.
  intros (p & fa & vp & vf & cc & _ & _ & _ & _ & Hgain & _ & Hcc & _ & _ & Hi & Hc).
  split.
  - rewrite Hi. apply Qle_trans with (Num.round_n 0.5 1).
    + unfold Qle. vm_compute. discriminate.
    + apply round_n_mono. lra.
  - exists (Recommendation.all_categories cc). split; [exact Hc|].
    exact (pair_report_covers_nine p fa cc Hcc).
Qed.

Lemma single_swaps_are_capped_upgrades_witness :
  exists recs : list Recommendation.RosterMove,
    Recommendation._analyze_single_swaps two_forwards better_forwards = Ok recs
    /\ (length recs <= 60)%nat
    /\ Forall (single_swap_of two_forwards better_forwards) recs.
Proof.
  destruct (Recommendation._analyze_single_swaps two_forwards better_forwards)
    as [recs|e] eqn:E; [|vm_compute in E; discriminate E].
  exists recs. split; [reflexivity|].
  destruct (single_swaps_are_capped_upgrades two_forwards better_forwards recs E)
    as (Hl & Hg & _).
  split; assumption.
Defined.

(** X26. [_analyze_multi_player_swaps] returns at most 30 moves, and each of
    them drops and adds the same number of players, two or three, the dropped
    ones taken from the roster and the added ones from the first fifty free
    agents. *)
Theorem multi_swaps_are_capped_blocks (current_roster free_agents : list Player)
    (recs : list Recommendation.RosterMove) :
  Recommendation._analyze_multi_player_swaps current_roster free_agents = Ok recs ->
  (length recs <= 30)%nat
  /\ Forall (multi_swap_of current_roster free_agents) recs
  /\ Forall (fun m => length (Recommendation.drop_players m)
                      = length (Recommendation.add_players m)) recs.
Proof.
  intros H. apply multi_swaps_flow in H as [Hlen Hgood].
  split; [exact Hlen|]. split; [exact Hgood|].
  apply (Forall_impl _ _ _ Hgood). intros m.
  intros (k & drop_combo & add_combo & _ & Hd & Ha & _ & _ & -> & ->).
  rewrite !length_map. congruence.
Qed.

Lemma multi_swaps_are_capped_blocks_witness :
  exists recs : list Recommendation.RosterMove,
    Recommendation._analyze_multi_player_swaps two_centers two_guards = Ok recs
    /\ (length recs <= 30)%nat
    /\ Forall (multi_swap_of two_centers two_guards) recs.
Proof.
  destruct (Recommendation._analyze_multi_player_swaps two_centers two_guards)
    as [recs|e] eqn:E; [|vm_compute in E; discriminate E].
  exists recs. split; [reflexivity|].
  destruct (multi_swaps_are_capped_blocks two_centers two_guards recs E)
    as (Hl & Hg & _).
  split; assumption.
Defined.

(** X27. One failing pair is enough to lose every recommendation: when some
    rostered player meets a free agent at a compatible position worth more
    than 1.05 times their value, and either the rostered value is 0 (the
    value-upgrade search divides by it) or the category report of the pair
    raises (a [None] shooting percentage), the entry point returns its fixed
    one-entry fallback list, whatever the other players and the requested
    maximum are. *)
Theorem failing_value_upgrade_gives_fallback
    (self_other_teams_rosters : list Recommendation.TeamData)
    (current_roster free_agents all_players : list Player)
    (max_recommendations : nat)
    (other_teams_rosters : option (list Recommendation.TeamData))
    (p fa : Player) (vp vf : Q) :
  p ∈ current_roster -> fa ∈ free_agents ->
  Recommendation._calculate_player_value p = Ok vp ->
  Recommendation._calculate_player_value fa = Ok vf ->
  vp * 1.05 < vf ->
  Recommendation._check_position_compatibility
    (Recommendation.position_of p) (Recommendation.position_of fa) = true ->
  (vp == 0 \/ exists e, Recommendation._analyze_category_improvements p fa = Raise e) ->
  (Recommendation.get_recommendations_for_roster self_other_teams_rosters
     current_roster free_agents all_players max_recommendations
     other_teams_rosters).1
  = Recommendation._get_sample_recommendations.
Proof.
  intros Hp Hfa Evp Evf Hbetter Hcompat Hfail.
  unfold Recommendation.get_recommendations_for_roster. cbv zeta.
  match goal with
  | |- context [Recommendation.try_recommendations ?stored _ _ _ _] =>
      destruct (recommendations_fall_back stored current_roster free_agents
                  all_players max_recommendations) as [e ->]
  end.
  - exact (budget_upgrades_raise current_roster free_agents p fa vp vf
             Hp Hfa Evp Evf Hbetter Hcompat Hfail).
  - reflexivity.
Qed.

Lemma failing_value_upgrade_gives_fallback_witness :
  (Recommendation.get_recommendations_for_roster [] [reserve] two_guards [] 10
     None).1
  = Recommendation._get_sample_recommendations.
Proof.
  destruct (Recommendation._calculate_player_value reserve) as [vp|e] eqn:Evp;
    [|vm_compute in Evp; discriminate Evp].
  pose (fa := mkPlayer "Guard A" (Some "OKC") (Some "PG") 34 None
                 {[ "points" := Some 20; "assists" := Some 8; "steals" := Some 2 ]}).
  destruct (Recommendation._calculate_player_value fa)
    as [vf|e] eqn:Evf; [|vm_compute in Evf; discriminate Evf].
  apply (failing_value_upgrade_gives_fallback [] [reserve] two_guards [] 10 None
           reserve fa vp vf); [left|left|exact Evp|exact Evf| |reflexivity|].
  - vm_compute in Evp, Evf. injection Evp as <-. injection Evf as <-.
    unfold Qlt. vm_compute. reflexivity.
  - right. exists TypeError. vm_compute. reflexivity.
Defined.

(** X28. The block comparison [_compare_stat_totals] always lists nine
    categories; read in the other direction it has as many declines as the
    forward report has improvements and as many improvements as the forward
    one has declines; and equal totals give no improvement and no decline. *)
Theorem totals_report_reverses (a b : gmap string Q) :
  length (Recommendation.all_categories (Recommendation._compare_stat_totals a b))
  = 9%nat
  /\ length (Recommendation.improvements (Recommendation._compare_stat_totals a b))
     = length (Recommendation.declines (Recommendation._compare_stat_totals b a))
  /\ length (Recommendation.declines (Recommendation._compare_stat_totals a b))
     = length (Recommendation.improvements (Recommendation._compare_stat_totals b a))
  /\ Recommendation.improvements (Recommendation._compare_stat_totals a a) = []
  /\ Recommendation.declines (Recommendation._compare_stat_totals a a) = [].
Proof.
  split; [apply totals_report_nine|].
  destruct (totals_report_reverse a b) as [H1 H2].
  destruct (totals_report_same a) as [H3 H4]. auto.
Qed.
